(** * add_to_xcode.py: a verification development

    The script registers two Swift source files in an Xcode project manifest
    (project.pbxproj) by regular-expression anchored text splicing.  This
    file embeds the script -- Python strings, the fragment of [re] it uses,
    [uuid.uuid4], the file read and write and [print] -- and proves
    properties of it.

    Text is modelled the way Python 3 has it: a [str] is a sequence of
    Unicode code points, here [list N]. *)

From Stdlib Require Import String Ascii.
From Stdlib Require Import List NArith ZArith Arith Lia Bool.
Import ListNotations.


(* ================================================================== *)
(** * Python strings *)
(* ================================================================== *)

Definition char := N.
Definition text := list char.

(** A literal of the source, as code points. *)
Definition str (s : string) : text := map N_of_ascii (list_ascii_of_string s).

Definition nl : text := [10%N].   (* \n *)
Definition tab : text := [9%N].   (* \t *)
Definition dq : text := [34%N].   (* the double quote *)

Definition char_eqb (a b : char) : bool := N.eqb a b.

Fixpoint text_eqb (a b : text) : bool :=
  match a, b with
  | [], [] => true
  | x :: a', y :: b' => char_eqb x y && text_eqb a' b'
  | _, _ => false
  end.

(** [s.startswith(p)] *)
Fixpoint starts_with (p s : text) : bool :=
  match p, s with
  | [], _ => true
  | x :: p', y :: s' => char_eqb x y && starts_with p' s'
  | _ :: _, [] => false
  end.

(** [s[i:j]] for [0 <= i <= j]. *)
Definition slice (s : text) (i j : nat) : text := firstn (j - i) (skipn i s).

(** Python's [str.isspace] on one code point (Py_UNICODE_ISSPACE). *)
Definition is_space (c : char) : bool :=
  ((9 <=? c) && (c <=? 13) || (28 <=? c) && (c <=? 32)
   || (c =? 133) || (c =? 160) || (c =? 5760)
   || (8192 <=? c) && (c <=? 8202)
   || (c =? 8232) || (c =? 8233) || (c =? 8239) || (c =? 8287)
   || (c =? 12288))%N.

Fixpoint drop_while (p : char -> bool) (s : text) : text :=
  match s with
  | [] => []
  | c :: s' => if p c then drop_while p s' else s
  end.

(** [s.rstrip()] *)
Definition rstrip (s : text) : text := rev (drop_while is_space (rev s)).

(** [s.replace(old, new)] for a non-empty [old]: the occurrences of [old]
    are found scanning from the left, each search resuming after the
    previous occurrence.  [skip] counts the characters of the current
    occurrence that are still to be stepped over. *)
Fixpoint replace_from (old new : text) (skip : nat) (s : text) : text :=
  match s with
  | [] => []
  | c :: s' =>
      match skip with
      | S k => replace_from old new k s'
      | O => if starts_with old s
             then new ++ replace_from old new (length old - 1) s'
             else c :: replace_from old new 0 s'
      end
  end.

(** [s.replace(old, new)]; with an empty [old] Python puts [new] before
    every character and at the end. *)
Definition replace (s old new : text) : text :=
  match old with
  | [] => new ++ flat_map (fun c => c :: new) s
  | _ :: _ => replace_from old new 0 s
  end.

(* ================================================================== *)
(** * The fragment of [re] the script uses *)
(* ================================================================== *)

(** A pattern is the sequence of its atoms; a capturing group is bracketed
    by [Open i] and [Close i]. *)
Inductive atom : Type :=
| Lit (c : char)                    (* a literal character *)
| Rep (p : char -> bool) (n : nat)  (* [...]{n} *)
| Plus (p : char -> bool)           (* [...]+ , greedy *)
| Open (i : nat)
| Close (i : nat).

Definition regex := list atom.

Definition lits (s : text) : regex := map Lit s.

(** Group spans, keyed by group number. *)
Definition spans := list (nat * (nat * nat)).

Fixpoint span_of (i : nat) (g : spans) : option (nat * nat) :=
  match g with
  | [] => None
  | (j, sp) :: g' => if Nat.eqb i j then Some sp else span_of i g'
  end.

Definition open_group (i pos : nat) (g : spans) : spans := (i, (pos, pos)) :: g.

Definition close_group (i pos : nat) (g : spans) : spans :=
  match span_of i g with
  | Some (b, _) => (i, (b, pos)) :: g
  | None => g
  end.

(** Backtracking match of [r] against [s], the text from offset [pos] on.
    The result is the end offset and the group spans of the first match in
    the order a backtracking matcher explores: a greedy [+] first takes as
    many characters as it can and gives them back one at a time. *)
Fixpoint run (r : regex) (s : text) (pos : nat) (g : spans)
  : option (nat * spans) :=
  match r with
  | [] => Some (pos, g)
  | Lit c :: r' =>
      match s with
      | x :: s' => if char_eqb x c then run r' s' (S pos) g else None
      | [] => None
      end
  | Rep p n :: r' =>
      (fix rep (n : nat) (s : text) (pos : nat) {struct n} :=
         match n with
         | O => run r' s pos g
         | S n' =>
             match s with
             | x :: s' => if p x then rep n' s' (S pos) else None
             | [] => None
             end
         end) n s pos
  | Plus p :: r' =>
      (fix greedy (s : text) (pos : nat) {struct s} :=
         match s with
         | x :: s' =>
             if p x then
               match greedy s' (S pos) with
               | Some res => Some res
               | None => run r' s' (S pos) g
               end
             else None
         | [] => None
         end) s pos
  | Open i :: r' => run r' s pos (open_group i pos g)
  | Close i :: r' => run r' s pos (close_group i pos g)
  end.

(** A match object: [start()], [end()] and the group spans. *)
Record match_obj : Type := MatchObj {
  m_start : nat;
  m_end : nat;
  m_spans : spans
}.

(** [re.search]: the match at the leftmost offset that has one. *)
Fixpoint search_from (r : regex) (s : text) (pos : nat) : option match_obj :=
  match run r s pos [] with
  | Some (e, g) => Some (MatchObj pos e g)
  | None =>
      match s with
      | [] => None
      | _ :: s' => search_from r s' (S pos)
      end
  end.

Definition re_search (r : regex) (content : text) : option match_obj :=
  search_from r content 0.

(** [m.group(i)] on the searched string. *)
Definition group (content : text) (m : match_obj) (i : nat) : text :=
  match span_of i (m_spans m) with
  | Some (b, e) => slice content b e
  | None => []
  end.

(** The character classes of the script's patterns. *)
Definition is_upper_hex (c : char) : bool :=
  ((65 <=? c) && (c <=? 70) || (48 <=? c) && (c <=? 57))%N.  (* [A-F0-9] *)
Definition not_rbrace (c : char) : bool := negb (char_eqb c 125%N). (* [^}] *)
Definition not_rparen (c : char) : bool := negb (char_eqb c 41%N).  (* [^)] *)

(* ================================================================== *)
(** * The script: identifiers and inserted text *)
(* ================================================================== *)

(** The five identifiers of one run, named as in the source. *)
Record uuids : Type := Uuids {
  view_file_ref_uuid : text;
  viewmodel_file_ref_uuid : text;
  view_build_file_uuid : text;
  viewmodel_build_file_uuid : text;
  group_uuid : text
}.

Definition tabs2 : text := tab ++ tab.
Definition tabs3 : text := tab ++ tab ++ tab.
Definition tabs4 : text := tab ++ tab ++ tab ++ tab.

(** The f-string of lines 28-30. *)
Definition build_entries (u : uuids) : text :=
  nl ++ tabs2 ++ view_build_file_uuid u
  ++ str " /* AudioProcessorTestView.swift in Sources */ = {isa = PBXBuildFile; fileRef = "
  ++ view_file_ref_uuid u ++ str " /* AudioProcessorTestView.swift */; };"
  ++ nl ++ tabs2 ++ viewmodel_build_file_uuid u
  ++ str " /* AudioProcessorTestViewModel.swift in Sources */ = {isa = PBXBuildFile; fileRef = "
  ++ viewmodel_file_ref_uuid u ++ str " /* AudioProcessorTestViewModel.swift */; };".

(** The f-string of lines 37-39. *)
Definition file_entries (u : uuids) : text :=
  nl ++ tabs2 ++ view_file_ref_uuid u
  ++ str " /* AudioProcessorTestView.swift */ = {isa = PBXFileReference; lastKnownFileType = sourcecode.swift; path = AudioProcessorTestView.swift; sourceTree = "
  ++ dq ++ str "<group>" ++ dq ++ str "; };"
  ++ nl ++ tabs2 ++ viewmodel_file_ref_uuid u
  ++ str " /* AudioProcessorTestViewModel.swift */ = {isa = PBXFileReference; lastKnownFileType = sourcecode.swift; path = AudioProcessorTestViewModel.swift; sourceTree = "
  ++ dq ++ str "<group>" ++ dq ++ str "; };".

(** The f-string appended on line 51. *)
Definition new_child (u : uuids) : text :=
  nl ++ tabs4 ++ group_uuid u ++ str " /* AudioProcessorTest */,".

(** The f-string of lines 58-67. *)
Definition group_entry (u : uuids) : text :=
  nl ++ tabs2 ++ group_uuid u ++ str " /* AudioProcessorTest */ = {"
  ++ nl ++ tabs3 ++ str "isa = PBXGroup;"
  ++ nl ++ tabs3 ++ str "children = ("
  ++ nl ++ tabs4 ++ view_file_ref_uuid u ++ str " /* AudioProcessorTestView.swift */,"
  ++ nl ++ tabs4 ++ viewmodel_file_ref_uuid u ++ str " /* AudioProcessorTestViewModel.swift */,"
  ++ nl ++ tabs3 ++ str ");"
  ++ nl ++ tabs3 ++ str "path = AudioProcessorTest;"
  ++ nl ++ tabs3 ++ str "sourceTree = " ++ dq ++ str "<group>" ++ dq ++ str ";"
  ++ nl ++ tabs2 ++ str "};".

(** The f-string appended on line 77. *)
Definition new_source_files (u : uuids) : text :=
  nl ++ tabs4 ++ view_build_file_uuid u
  ++ str " /* AudioProcessorTestView.swift in Sources */,"
  ++ nl ++ tabs4 ++ viewmodel_build_file_uuid u
  ++ str " /* AudioProcessorTestViewModel.swift in Sources */,".

(* ================================================================== *)
(** * The script: the patterns *)
(* ================================================================== *)

(** [/\* Begin PBXBuildFile section \*/] *)
Definition build_file_marker : text := str "/* Begin PBXBuildFile section */".
(** [/\* Begin PBXFileReference section \*/] *)
Definition file_ref_marker : text := str "/* Begin PBXFileReference section */".
(** [/\* Begin PBXGroup section \*/] *)
Definition group_marker : text := str "/* Begin PBXGroup section */".

(** [([A-F0-9]{24}) /\* Features \*/ = \{[^}]+children = \([^)]+\);] *)
Definition features_re : regex :=
  [Open 1; Rep is_upper_hex 24; Close 1]
  ++ lits (str " /* Features */ = {") ++ [Plus not_rbrace]
  ++ lits (str "children = (") ++ [Plus not_rparen] ++ lits (str ");").

(** ['(' + features_group_uuid + ' /\* Features \*/ = \{[^}]+children = \()([^)]+)(\);)'];
    the identifier spliced into the pattern is made of [A-F0-9] only, so it
    stands for itself. *)
Definition features_children_re (features_group_uuid : text) : regex :=
  [Open 1] ++ lits features_group_uuid
  ++ lits (str " /* Features */ = {") ++ [Plus not_rbrace]
  ++ lits (str "children = (") ++ [Close 1]
  ++ [Open 2; Plus not_rparen; Close 2]
  ++ [Open 3] ++ lits (str ");") ++ [Close 3].

(** [([A-F0-9]{24}) /\* Sources \*/ = \{[^}]+files = \([^)]+\);] *)
Definition sources_re : regex :=
  [Open 1; Rep is_upper_hex 24; Close 1]
  ++ lits (str " /* Sources */ = {") ++ [Plus not_rbrace]
  ++ lits (str "files = (") ++ [Plus not_rparen] ++ lits (str ");").

(** ['(' + sources_uuid + ' /\* Sources \*/ = \{[^}]+files = \()([^)]+)(\);)'] *)
Definition sources_files_re (sources_uuid : text) : regex :=
  [Open 1] ++ lits sources_uuid
  ++ lits (str " /* Sources */ = {") ++ [Plus not_rbrace]
  ++ lits (str "files = (") ++ [Close 1]
  ++ [Open 2; Plus not_rparen; Close 2]
  ++ [Open 3] ++ lits (str ");") ++ [Close 3].

(* ================================================================== *)
(** * The script: the five guarded steps (lines 24-78) *)
(* ================================================================== *)

(** [content[:insert_pos] + entries + content[insert_pos:]] *)
Definition splice (content : text) (insert_pos : nat) (entries : text) : text :=
  firstn insert_pos content ++ entries ++ skipn insert_pos content.

(** 1. Add PBXBuildFile entries (lines 25-31). *)
Definition add_build_files (u : uuids) (content : text) : text :=
  match re_search (lits build_file_marker) content with
  | Some build_file_section =>
      let insert_pos := m_end build_file_section in
      splice content insert_pos (build_entries u)
  | None => content
  end.

(** 2. Add PBXFileReference entries (lines 34-40). *)
Definition add_file_refs (u : uuids) (content : text) : text :=
  match re_search (lits file_ref_marker) content with
  | Some file_ref_section =>
      let insert_pos := m_end file_ref_section in
      splice content insert_pos (file_entries u)
  | None => content
  end.

(** 3. Add the new group to the children of Features (lines 44-52). *)
Definition link_group (u : uuids) (content : text) : text :=
  match re_search features_re content with
  | Some features_group_match =>
      let features_group_uuid := group content features_group_match 1 in
      match re_search (features_children_re features_group_uuid) content with
      | Some children_match =>
          let existing_children := group content children_match 2 in
          let new_children := rstrip existing_children ++ new_child u in
          replace content (group content children_match 2) new_children
      | None => content
      end
  | None => content
  end.

(** Add the AudioProcessorTest group definition (lines 55-68). *)
Definition add_group (u : uuids) (content : text) : text :=
  match re_search (lits group_marker) content with
  | Some group_section =>
      let insert_pos := m_end group_section in
      splice content insert_pos (group_entry u)
  | None => content
  end.

(** 4. Add to PBXSourcesBuildPhase (lines 71-78). *)
Definition link_sources (u : uuids) (content : text) : text :=
  match re_search sources_re content with
  | Some sources_phase_match =>
      let sources_uuid := group content sources_phase_match 1 in
      match re_search (sources_files_re sources_uuid) content with
      | Some files_match =>
          let existing_files := group content files_match 2 in
          let new_files := rstrip existing_files ++ new_source_files u in
          replace content (group content files_match 2) new_files
      | None => content
      end
  | None => content
  end.

(** Lines 24-78: the text written back, from the text read. *)
Definition patch (u : uuids) (content : text) : text :=
  link_sources u (add_group u (link_group u (add_file_refs u (add_build_files u content)))).
(* ================================================================== *)
(** * Bytes, text encodings and line ends *)
(* ================================================================== *)

(** A file holds bytes; [open] in text mode decodes and encodes them with
    the encoding of the locale and translates line ends. *)
Definition byte := N.
Definition bytes := list byte.

(** The encodings of the model, for [locale.getpreferredencoding(False)]
    and [sys.stdout.encoding]. *)
Inductive encoding : Type := ASCII | Latin1 | UTF8.

(** One code point in UTF-8.  Surrogates and numbers above U+10FFFF have
    no encoding. *)
Definition utf8_encode_char (c : char) : option bytes :=
  if (c <? 128)%N then Some [c]
  else if (c <? 2048)%N then Some [192 + c / 64; 128 + c mod 64]%N
  else if (c <? 65536)%N then
    if ((55296 <=? c) && (c <? 57344))%N then None
    else Some [224 + c / 4096; 128 + (c / 64) mod 64; 128 + c mod 64]%N
  else if (c <? 1114112)%N then
    Some [240 + c / 262144; 128 + (c / 4096) mod 64;
          128 + (c / 64) mod 64; 128 + c mod 64]%N
  else None.

Definition encode_char (e : encoding) (c : char) : option bytes :=
  match e with
  | ASCII => if (c <? 128)%N then Some [c] else None
  | Latin1 => if (c <? 256)%N then Some [c] else None
  | UTF8 => utf8_encode_char c
  end.

(** [s.encode(e)] with [errors='strict']: [None] stands for
    [UnicodeEncodeError]. *)
Fixpoint encode (e : encoding) (s : text) : option bytes :=
  match s with
  | [] => Some []
  | c :: s' =>
      match encode_char e c, encode e s' with
      | Some b, Some bs => Some (b ++ bs)
      | _, _ => None
      end
  end.

(** A continuation byte of UTF-8. *)
Definition is_cont (b : byte) : bool := ((128 <=? b) && (b <? 192))%N.

(** Strict UTF-8: no overlong form, no surrogate, nothing above
    U+10FFFF. *)
Fixpoint utf8_decode (b : bytes) : option text :=
  match b with
  | [] => Some []
  | b0 :: r0 =>
      if (b0 <? 128)%N then option_map (cons b0) (utf8_decode r0)
      else
        match r0 with
        | [] => None
        | b1 :: r1 =>
            if ((194 <=? b0) && (b0 <? 224))%N then
              if is_cont b1
              then option_map (cons ((b0 - 192) * 64 + (b1 - 128))%N) (utf8_decode r1)
              else None
            else
              match r1 with
              | [] => None
              | b2 :: r2 =>
                  if ((224 <=? b0) && (b0 <? 240))%N then
                    let c := ((b0 - 224) * 4096 + (b1 - 128) * 64 + (b2 - 128))%N in
                    if is_cont b1 && is_cont b2 && (2048 <=? c)%N
                       && negb ((55296 <=? c) && (c <? 57344))%N
                    then option_map (cons c) (utf8_decode r2)
                    else None
                  else
                    match r2 with
                    | [] => None
                    | b3 :: r3 =>
                        if ((240 <=? b0) && (b0 <? 245))%N then
                          let c := ((b0 - 240) * 262144 + (b1 - 128) * 4096
                                    + (b2 - 128) * 64 + (b3 - 128))%N in
                          if is_cont b1 && is_cont b2 && is_cont b3
                             && (65536 <=? c)%N && (c <? 1114112)%N
                          then option_map (cons c) (utf8_decode r3)
                          else None
                        else None
                    end
              end
        end
  end.

(** The encodings with one byte for a character. *)
Fixpoint decode_bytewise (limit : N) (b : bytes) : option text :=
  match b with
  | [] => Some []
  | x :: b' =>
      if (x <? limit)%N then option_map (cons x) (decode_bytewise limit b') else None
  end.

(** [b.decode(e)] with [errors='strict']: [None] stands for
    [UnicodeDecodeError]. *)
Definition decode (e : encoding) (b : bytes) : option text :=
  match e with
  | ASCII => decode_bytewise 128 b
  | Latin1 => decode_bytewise 256 b
  | UTF8 => utf8_decode b
  end.

(** [os.linesep] *)
Inductive platform : Type := Posix | Windows.

Definition linesep (p : platform) : text :=
  match p with
  | Posix => [10%N]
  | Windows => [13%N; 10%N]
  end.

(** Reading with [newline=None]: [\r\n] and a lone [\r] become [\n]. *)
Fixpoint universal_newlines (s : text) : text :=
  match s with
  | [] => []
  | c :: s' =>
      if (c =? 13)%N then
        10%N :: match s' with
                | d :: s'' => if (d =? 10)%N then universal_newlines s''
                              else universal_newlines s'
                | [] => []
                end
      else c :: universal_newlines s'
  end.

(** Writing with [newline=None]: [\n] becomes [os.linesep]. *)
Definition to_linesep (p : platform) (s : text) : text :=
  flat_map (fun c => if (c =? 10)%N then linesep p else [c]) s.

(* ================================================================== *)
(** * Effects: files, the random source, standard output *)
(* ================================================================== *)

(** A regular file: its bytes and what the process may do with it. *)
Record file : Type := File {
  data : bytes;
  readable : bool;
  writable : bool
}.

(** What the script can observe and change.  [resolve] gives the file a
    path names (two paths can name one file), [disk] the files there
    are; [fs_encoding] is the encoding [open] uses in text mode, [os] the
    platform; [urandom k] is the [k]-th 16-byte draw of [os.urandom], read
    as a big-endian number; [stdout] holds the printed lines. *)
Record world : Type := World {
  resolve : string -> string;
  disk : string -> option file;
  fs_encoding : encoding;
  os : platform;
  stdout_encoding : encoding;
  urandom : nat -> N;
  drawn : nat;
  stdout : list text
}.

Inductive exn : Type :=
| FileNotFoundError (path : string)
| PermissionError (path : string)
| UnicodeDecodeError (e : encoding)
| UnicodeEncodeError (e : encoding).

Inductive outcome (A : Type) : Type :=
| Returned (a : A) (w : world)
| Raised (e : exn) (w : world).

Arguments Returned {A} a w.
Arguments Raised {A} e w.

Definition io (A : Type) : Type := world -> outcome A.

Definition ret {A : Type} (a : A) : io A := fun w => Returned a w.

Definition bind {A B : Type} (m : io A) (k : A -> io B) : io B :=
  fun w =>
    match m w with
    | Returned a w' => k a w'
    | Raised e w' => Raised e w'
    end.

Notation "x <- m ;; k" := (bind m (fun x => k))
  (at level 61, m at next level, right associativity).
Notation "m ;;; k" := (bind m (fun _ => k))
  (at level 61, right associativity).

(** The world with the file a path names replaced. *)
Definition store (w : world) (path : string) (f : file) : world :=
  World (resolve w)
        (fun k => if String.eqb k (resolve w path) then Some f else disk w k)
        (fs_encoding w) (os w) (stdout_encoding w)
        (urandom w) (drawn w) (stdout w).

(** [open(path, 'r')] and [f.read()]: the bytes are decoded, then the
    line ends translated. *)
Definition read_file (path : string) : io text :=
  fun w =>
    match disk w (resolve w path) with
    | None => Raised (FileNotFoundError path) w
    | Some f =>
        if readable f then
          match decode (fs_encoding w) (data f) with
          | Some raw => Returned (universal_newlines raw) w
          | None => Raised (UnicodeDecodeError (fs_encoding w)) w
          end
        else Raised (PermissionError path) w
    end.

(** [open(path, 'w')] and [f.write(content)]: opening creates the file or
    empties it; the text is then encoded as a whole, so when it cannot be
    encoded the file stays empty. *)
Definition write_file (path : string) (content : text) : io unit :=
  fun w =>
    match disk w (resolve w path) with
    | Some f =>
        if writable f then
          match encode (fs_encoding w) (to_linesep (os w) content) with
          | Some b => Returned tt (store w path (File b (readable f) (writable f)))
          | None => Raised (UnicodeEncodeError (fs_encoding w))
                           (store w path (File [] (readable f) (writable f)))
          end
        else Raised (PermissionError path) w
    | None =>
        match encode (fs_encoding w) (to_linesep (os w) content) with
        | Some b => Returned tt (store w path (File b true true))
        | None => Raised (UnicodeEncodeError (fs_encoding w))
                         (store w path (File [] true true))
        end
    end.

(** [print(line)]: the line is encoded for standard output first. *)
Definition print (line : text) : io unit :=
  fun w =>
    match encode (stdout_encoding w) line with
    | Some _ =>
        Returned tt
          (World (resolve w) (disk w) (fs_encoding w) (os w) (stdout_encoding w)
                 (urandom w) (drawn w) (stdout w ++ [line]))
    | None => Raised (UnicodeEncodeError (stdout_encoding w)) w
    end.

(** [os.urandom(16)], as a number below [2^128]. *)
Definition os_urandom16 : io N :=
  fun w =>
    Returned (urandom w (drawn w) mod 2 ^ 128)%N
             (World (resolve w) (disk w) (fs_encoding w) (os w) (stdout_encoding w)
                    (urandom w) (S (drawn w)) (stdout w)).

(** [uuid.UUID(bytes=..., version=4).int]: the variant bits are set to
    binary 10 and the version nibble to 4. *)
Definition uuid4_int (r : N) : N :=
  let i := N.ldiff r (N.shiftl 49152 48) in   (* int &= ~(0xc000 << 48) *)
  let i := N.lor i (N.shiftl 32768 48) in     (* int |= 0x8000 << 48 *)
  let i := N.ldiff i (N.shiftl 61440 64) in   (* int &= ~(0xf000 << 64) *)
  N.lor i (N.shiftl 4 76).                    (* int |= version << 76 *)

Definition hex_digit (d : N) : char :=
  if (d <? 10)%N then (48 + d)%N else (87 + d)%N.

(** The last [width] digits of ['%x' % n], zero padded. *)
Fixpoint hex_of (width : nat) (n : N) : text :=
  match width with
  | O => []
  | S w => hex_of w (n / 16)%N ++ [hex_digit (n mod 16)%N]
  end.

(** [UUID.hex]: ['%032x' % self.int] *)
Definition uuid_hex (i : N) : text := hex_of 32 i.

(** [str.upper] on the characters a hexadecimal string has. *)
Definition upper_char (c : char) : char :=
  if ((97 <=? c) && (c <=? 122))%N then (c - 32)%N else c.
Definition upper (s : text) : text := map upper_char s.

(** The identifier made from one draw: [uuid4().hex.upper()[:24]]. *)
Definition xcode_uuid_of (r : N) : text :=
  firstn 24 (upper (uuid_hex (uuid4_int r))).

(** [generate_xcode_uuid()] (lines 5-7). *)
Definition generate_xcode_uuid : io text :=
  r <- os_urandom16 ;;
  ret (xcode_uuid_of r).

(** The line of line 84; the check mark is U+2705. *)
Definition success_line : text :=
  [9989%N] ++ str " Files added to Xcode project successfully!".

(** [add_files_to_pbxproj(pbxproj_path)] (lines 9-84). *)
Definition add_files_to_pbxproj (pbxproj_path : string) : io unit :=
  content <- read_file pbxproj_path ;;
  view_file_ref_uuid <- generate_xcode_uuid ;;
  viewmodel_file_ref_uuid <- generate_xcode_uuid ;;
  view_build_file_uuid <- generate_xcode_uuid ;;
  viewmodel_build_file_uuid <- generate_xcode_uuid ;;
  group_uuid <- generate_xcode_uuid ;;
  print (str "View File Ref UUID: " ++ view_file_ref_uuid) ;;;
  print (str "ViewModel File Ref UUID: " ++ viewmodel_file_ref_uuid) ;;;
  print (str "Group UUID: " ++ group_uuid) ;;;
  let u := Uuids view_file_ref_uuid viewmodel_file_ref_uuid
                 view_build_file_uuid viewmodel_build_file_uuid group_uuid in
  write_file pbxproj_path (patch u content) ;;;
  print success_line.

(** ** What a run reads, and what lets it finish *)

(** The text [open(path, 'r').read()] gives in [w], when it gives one. *)
Definition files (w : world) (path : string) : option text :=
  match read_file path w with
  | Returned content _ => Some content
  | Raised _ _ => None
  end.

(** The bytes of the file a path names. *)
Definition file_bytes (w : world) (path : string) : option bytes :=
  option_map data (disk w (resolve w path)).

(** The file a path names may be written, and standard output can show
    the check mark of line 84. *)
Definition permits (w : world) (path : string) : Prop :=
  (exists f, disk w (resolve w path) = Some f /\ writable f = true)
  /\ encode (stdout_encoding w) success_line <> None.

(** The bytes [s.encode(e)] gives when it gives some. *)
Definition encoded (e : encoding) (s : text) : bytes :=
  match encode e s with
  | Some b => b
  | None => []
  end.

(** The identifiers a run started in world [w] generates, in the order of
    lines 14-18. *)
Definition draw (w : world) (k : nat) : N := (urandom w (k + drawn w) mod 2 ^ 128)%N.

Definition run_uuids (w : world) : uuids :=
  Uuids (xcode_uuid_of (draw w 0)) (xcode_uuid_of (draw w 1))
        (xcode_uuid_of (draw w 2)) (xcode_uuid_of (draw w 3))
        (xcode_uuid_of (draw w 4)).

(** The three progress lines of lines 20-22. *)
Definition progress_lines (u : uuids) : list text :=
  [str "View File Ref UUID: " ++ view_file_ref_uuid u;
   str "ViewModel File Ref UUID: " ++ viewmodel_file_ref_uuid u;
   str "Group UUID: " ++ group_uuid u].

(** The world after the five draws and the three progress lines. *)
Definition world_before_write (w : world) : world :=
  World (resolve w) (disk w) (fs_encoding w) (os w) (stdout_encoding w)
        (urandom w) (5 + drawn w)
        (stdout w ++ progress_lines (run_uuids w)).

(** The world a run leaves behind when it read [content] and could
    finish: the file holds the encoded patch. *)
Definition world_after (pbxproj_path : string) (content : text) (w : world) : world :=
  World (resolve w)
        (fun k => if String.eqb k (resolve w pbxproj_path)
                  then Some (File (encoded (fs_encoding w)
                                     (to_linesep (os w) (patch (run_uuids w) content)))
                                  true true)
                  else disk w k)
        (fs_encoding w) (os w) (stdout_encoding w)
        (urandom w) (5 + drawn w)
        (stdout w ++ progress_lines (run_uuids w) ++ [success_line]).

(** The world a run leaves when the file was written and the check mark
    could not be printed. *)
Definition world_written (pbxproj_path : string) (content : text) (w : world) : world :=
  World (resolve w)
        (fun k => if String.eqb k (resolve w pbxproj_path)
                  then Some (File (encoded (fs_encoding w)
                                     (to_linesep (os w) (patch (run_uuids w) content)))
                                  true true)
                  else disk w k)
        (fs_encoding w) (os w) (stdout_encoding w)
        (urandom w) (5 + drawn w)
        (stdout w ++ progress_lines (run_uuids w)).

(* ================================================================== *)
(** * Notions used to state the properties *)
(* ================================================================== *)

(** [s.find(p)]: the offset of the leftmost occurrence of [p] in [s]. *)
Fixpoint find_from (p s : text) (pos : nat) : option nat :=
  if starts_with p s then Some pos
  else match s with
       | [] => None
       | _ :: s' => find_from p s' (S pos)
       end.

Definition find (p s : text) : option nat := find_from p s 0.

(** The two listing patterns of the script differ only in the label of
    the record and the key of the listing. *)
Definition listing_re (header key : text) : regex :=
  [Open 1; Rep is_upper_hex 24; Close 1]
  ++ lits header ++ [Plus not_rbrace]
  ++ lits key ++ [Plus not_rparen] ++ lits (str ");").

Definition listing_group_re (uuid header key : text) : regex :=
  [Open 1] ++ lits uuid
  ++ lits header ++ [Plus not_rbrace]
  ++ lits key ++ [Close 1]
  ++ [Open 2; Plus not_rparen; Close 2]
  ++ [Open 3] ++ lits (str ");") ++ [Close 3].

Definition features_header : text := str " /* Features */ = {".
Definition children_key : text := str "children = (".
Definition sources_header : text := str " /* Sources */ = {".
Definition files_key : text := str "files = (".

(** [s] begins with a record [uuid header body key listing );]: the body
    is a non-empty run without a closing brace, the listing a non-empty
    run without a closing parenthesis. *)
Definition listing_at (uuid header key body listing : text) (s : text) : Prop :=
  (exists rest, s = uuid ++ header ++ body ++ key ++ listing ++ str ");" ++ rest)
  /\ body <> [] /\ forallb not_rbrace body = true
  /\ listing <> [] /\ forallb not_rparen listing = true.

(** The two append steps as one function of the header, the key and the
    text appended. *)
Definition link_listing (header key appended content : text) : text :=
  match re_search (listing_re header key) content with
  | Some m1 =>
      let uuid := group content m1 1 in
      match re_search (listing_group_re uuid header key) content with
      | Some m2 =>
          let existing := group content m2 2 in
          replace content (group content m2 2) (rstrip existing ++ appended)
      | None => content
      end
  | None => content
  end.

(** The listing an append step works on: the offset and the text of
    group 2 of the second search, when both searches succeed. *)
Definition matched_listing (header key content : text) : option (nat * text) :=
  match re_search (listing_re header key) content with
  | Some m1 =>
      match re_search (listing_group_re (group content m1 1) header key) content with
      | Some m2 =>
          match span_of 2 (m_spans m2) with
          | Some (b, e) => Some (b, slice content b e)
          | None => None
          end
      | None => None
      end
  | None => None
  end.

(** Pattern atoms that consume no character. *)
Definition is_group_atom (a : atom) : bool :=
  match a with
  | Open _ | Close _ => true
  | _ => false
  end.

Definition strip_groups (r : regex) : regex :=
  filter (fun a => negb (is_group_atom a)) r.

(** All the offsets at which [p] occurs in [s], overlapping occurrences
    included. *)
Fixpoint positions_from (p s : text) (pos : nat) : list nat :=
  (if starts_with p s then [pos] else [])
  ++ match s with
     | [] => []
     | _ :: s' => positions_from p s' (S pos)
     end.

Definition positions (p s : text) : list nat := positions_from p s 0.

(** The number of characters of [s] that are not white space. *)
Definition visible (s : text) : nat :=
  length (filter (fun c => negb (is_space c)) s).

(** [p] occurs in [s]. *)
Definition occurs (p s : text) : Prop := exists a b, s = a ++ p ++ b.

(** The three insertion steps as one function of the marker and the
    entries: nothing without the marker, one splice right after
    its leftmost occurrence with it. *)
Definition insert_step (marker entries content : text) : text :=
  match re_search (lits marker) content with
  | Some m => splice content (m_end m) entries
  | None => content
  end.


(** An identifier as the manifest format has it: 24 characters of
    [A-F0-9]. *)
Definition is_xcode_uuid (s : text) : Prop :=
  length s = 24 /\ forallb is_upper_hex s = true.

Definition uuid_list (u : uuids) : list text :=
  [view_file_ref_uuid u; viewmodel_file_ref_uuid u;
   view_build_file_uuid u; viewmodel_build_file_uuid u; group_uuid u].

Definition valid_uuids (u : uuids) : Prop := Forall is_xcode_uuid (uuid_list u).

(** The part of a version-4 UUID that the identifier shows: the leading
    96 of its 128 bits. *)
Definition leading_bits (r : N) : N := N.shiftr (uuid4_int r) 32.

(** Parentheses and braces. *)
Definition is_bracket (c : char) : bool :=
  ((c =? 40) || (c =? 41) || (c =? 123) || (c =? 125))%N.

(** The stack of brackets still open after reading [s] with [stack] open;
    [None] when a closing bracket does not close the innermost open one. *)
Fixpoint nesting (stack : list char) (s : text) : option (list char) :=
  match s with
  | [] => Some stack
  | c :: s' =>
      if ((c =? 40) || (c =? 123))%N then nesting (c :: stack) s'
      else if (c =? 41)%N then
        match stack with
        | o :: st => if (o =? 40)%N then nesting st s' else None
        | [] => None
        end
      else if (c =? 125)%N then
        match stack with
        | o :: st => if (o =? 123)%N then nesting st s' else None
        | [] => None
        end
      else nesting stack s'
  end.

(** Parentheses and braces are properly nested and all closed. *)
Definition balanced (s : text) : bool :=
  match nesting [] s with
  | Some [] => true
  | _ => false
  end.

(** [s.split(old)] for a non-empty [old]: the pieces of [s] between the
    occurrences of [old] that a scan from the left meets. *)
Fixpoint pieces_from (old : text) (skip : nat) (s : text) : list text :=
  match s with
  | [] => [[]]
  | c :: s' =>
      match skip with
      | S k => pieces_from old k s'
      | O => if starts_with old s
             then [] :: pieces_from old (length old - 1) s'
             else match pieces_from old 0 s' with
                  | p :: ps => (c :: p) :: ps
                  | [] => [[c]]
                  end
      end
  end.

Definition pieces (s old : text) : list text := pieces_from old 0 s.

(** [sep.join(ps)] *)
Fixpoint join (sep : text) (ps : list text) : text :=
  match ps with
  | [] => []
  | [p] => p
  | p :: ps' => p ++ sep ++ join sep ps'
  end.

(** The edit an append step is meant to make: the text of one listing, at
    offset [pos], gets its trailing white space removed and [appended]
    added; nothing else changes. *)
Definition local_append (content : text) (pos : nat) (listing appended : text) : text :=
  firstn pos content ++ (rstrip listing ++ appended)
  ++ skipn (pos + length listing) content.

(** [s.count(old)]: the number of occurrences a scan from the left meets. *)
Definition occurrence_count (s old : text) : nat := length (pieces s old) - 1.



(** ** The records of the manifest format that the script writes *)

Definition view_name : text := str "AudioProcessorTestView.swift".
Definition viewmodel_name : text := str "AudioProcessorTestViewModel.swift".
Definition folder_name : text := str "AudioProcessorTest".

(** A build-file entry: it binds the build-file identifier [uuid] to the
    file-reference identifier [file_ref]. *)
Definition build_file_line (uuid file_ref name : text) : text :=
  tabs2 ++ uuid ++ str " /* " ++ name ++ str " in Sources */ = {isa = PBXBuildFile; fileRef = "
  ++ file_ref ++ str " /* " ++ name ++ str " */; };".

(** A file-reference entry. *)
Definition file_ref_line (uuid name : text) : text :=
  tabs2 ++ uuid ++ str " /* " ++ name
  ++ str " */ = {isa = PBXFileReference; lastKnownFileType = sourcecode.swift; path = "
  ++ name ++ str "; sourceTree = " ++ dq ++ str "<group>" ++ dq ++ str "; };".

(** A member of a children or files listing. *)
Definition member_line (uuid label : text) : text :=
  tabs4 ++ uuid ++ str " /* " ++ label ++ str " */,".

(** A group record with its members, each an identifier and a label. *)
Definition group_record (uuid name : text) (members : list (text * text)) : text :=
  tabs2 ++ uuid ++ str " /* " ++ name ++ str " */ = {"
  ++ nl ++ tabs3 ++ str "isa = PBXGroup;"
  ++ nl ++ tabs3 ++ str "children = ("
  ++ flat_map (fun m => nl ++ member_line (fst m) (snd m)) members
  ++ nl ++ tabs3 ++ str ");"
  ++ nl ++ tabs3 ++ str "path = " ++ name ++ str ";"
  ++ nl ++ tabs3 ++ str "sourceTree = " ++ dq ++ str "<group>" ++ dq ++ str ";"
  ++ nl ++ tabs2 ++ str "};".

(** The identifiers of the inserted records refer to one another as the
    format requires. *)
Definition cross_referenced (u : uuids) : Prop :=
  build_entries u
  = nl ++ build_file_line (view_build_file_uuid u) (view_file_ref_uuid u) view_name
    ++ nl ++ build_file_line (viewmodel_build_file_uuid u) (viewmodel_file_ref_uuid u)
               viewmodel_name
  /\ file_entries u
     = nl ++ file_ref_line (view_file_ref_uuid u) view_name
       ++ nl ++ file_ref_line (viewmodel_file_ref_uuid u) viewmodel_name
  /\ group_entry u
     = nl ++ group_record (group_uuid u) folder_name
               [(view_file_ref_uuid u, view_name);
                (viewmodel_file_ref_uuid u, viewmodel_name)]
  /\ new_child u = nl ++ member_line (group_uuid u) folder_name
  /\ new_source_files u
     = nl ++ member_line (view_build_file_uuid u) (view_name ++ str " in Sources")
       ++ nl ++ member_line (viewmodel_build_file_uuid u)
                  (viewmodel_name ++ str " in Sources").

(** ** The edits of one run *)

(** [after] is [before] with [entries] put right after the leftmost
    occurrence of [marker]. *)
Definition inserted_after (marker entries before after : text) : Prop :=
  exists a b,
    before = a ++ marker ++ b
    /\ find marker before = Some (length a)
    /\ after = a ++ marker ++ entries ++ b.

(** [after] is [before] with [appended] added to one listing, and nothing
    else changed: the listing is one of the leftmost record of this label,
    a non-empty text without closing parenthesis; it loses its trailing
    white space and gains [appended]. *)
Definition appended_to (header key appended before after : text) : Prop :=
  exists a uuid body listing rest,
    before = a ++ uuid ++ header ++ body ++ key ++ listing ++ str ");" ++ rest
    /\ is_xcode_uuid uuid
    /\ body <> [] /\ forallb not_rbrace body = true
    /\ listing <> [] /\ forallb not_rparen listing = true
    /\ option_map m_start (re_search (listing_re header key) before) = Some (length a)
    /\ after = a ++ uuid ++ header ++ body ++ key
               ++ (rstrip listing ++ appended) ++ str ");" ++ rest.

(** The five edits the patch is meant to make, one after the other. *)
Definition single_run_edits (u : uuids) (content written : text) : Prop :=
  exists c1 c2 c3 c4,
    inserted_after build_file_marker (build_entries u) content c1
    /\ inserted_after file_ref_marker (file_entries u) c1 c2
    /\ appended_to features_header children_key (new_child u) c2 c3
    /\ inserted_after group_marker (group_entry u) c3 c4
    /\ appended_to sources_header files_key (new_source_files u) c4 written.

(** [s] holds a record that an append step can match. *)
Definition has_record (header key s : text) : Prop :=
  exists a uuid body listing rest,
    s = a ++ uuid ++ header ++ body ++ key ++ listing ++ str ");" ++ rest
    /\ is_xcode_uuid uuid
    /\ body <> [] /\ forallb not_rbrace body = true
    /\ listing <> [] /\ forallb not_rparen listing = true.

(** Characters the reasoning names. *)
Definition ch_nl : char := 10%N.
Definition ch_semi : char := 59%N.
Definition ch_slash : char := 47%N.
Definition ch_lparen : char := 40%N.
Definition ch_rparen : char := 41%N.
Definition ch_rbrace : char := 125%N.

(** Identifiers all look alike once their characters are masked: every
    character of [A-F0-9] becomes the digit zero. *)
Definition mask (c : char) : char := if is_upper_hex c then 48%N else c.

(** An append step finds its anchor in [content] and the text of the
    listing it matches occurs at one offset only of [content]. *)
Definition listing_found_once (header key content : text) : bool :=
  match matched_listing header key content with
  | Some (pos, listing) =>
      match positions listing content with
      | [p] => Nat.eqb p pos
      | _ => false
      end
  | None => false
  end.

(** Every step finds its anchor in the text it is given, and the text of
    each matched listing occurs at one offset only of the text at hand. *)
Definition anchors_found_once (u : uuids) (content : text) : Prop :=
  re_search (lits build_file_marker) content <> None
  /\ re_search (lits file_ref_marker) (add_build_files u content) <> None
  /\ listing_found_once features_header children_key
       (add_file_refs u (add_build_files u content)) = true
  /\ re_search (lits group_marker)
       (link_group u (add_file_refs u (add_build_files u content))) <> None
  /\ listing_found_once sources_header files_key
       (add_group u (link_group u (add_file_refs u (add_build_files u content))))
     = true.

(** The edits meant for a manifest without Features group: the three
    insertions, and the members appended to the files listing of Sources
    when there is one. *)
Definition no_features_edits (u : uuids) (content written : text) : Prop :=
  exists c1 c2 c4,
    inserted_after build_file_marker (build_entries u) content c1
    /\ inserted_after file_ref_marker (file_entries u) c1 c2
    /\ inserted_after group_marker (group_entry u) c2 c4
    /\ (written = c4
        \/ appended_to sources_header files_key (new_source_files u) c4 written).

(** ** Characters and encodings *)

(** A character of ASCII. *)
Definition is_ascii (c : char) : bool := (c <? 128)%N.

(** The encoding has bytes for the character. *)
Definition encodable (e : encoding) (c : char) : bool :=
  match encode_char e c with
  | Some _ => true
  | None => false
  end.

(** The characters the script itself writes: printable ASCII, the tab and
    the line feed. *)
Definition is_plain (c : char) : bool :=
  ((c =? 9) || (c =? 10) || (32 <=? c) && (c <? 127))%N.

(** No carriage return. *)
Definition not_cr (c : char) : bool := negb (c =? 13)%N.

(** The text [open(path, 'r')] decodes from the file a path names, before
    its line ends are translated. *)
Definition raw_text (w : world) (path : string) : option text :=
  match disk w (resolve w path) with
  | Some f => if readable f then decode (fs_encoding w) (data f) else None
  | None => None
  end.

(** The line ends of [raw] are those of the platform: reading and writing
    it gives it back. *)
Definition native_line_ends (p : platform) (raw : text) : Prop :=
  to_linesep p (universal_newlines raw) = raw.

(** ** The syntax of the manifest format

    A project manifest is a property list in the old text format: a
    value is a string (bare or quoted), data between angle brackets, a
    dictionary [{ key = value; ... }] or an array [( value, ... )];
    comments are [/* ... */] and [// ...] to the end of the line. *)

Inductive token : Type :=
| TLBrace | TRBrace | TLParen | TRParen | TEqual | TSemi | TComma
| TString.

(** Where the scanner is. *)
Inductive scan : Type :=
| Between                 (* between tokens *)
| Slash                   (* after a slash that begins a token or a comment *)
| Word                    (* in a bare string *)
| WordSlash               (* after a slash in a bare string *)
| Quoted                  (* in a quoted string *)
| Escaped                 (* after a backslash in a quoted string *)
| Block                   (* in a comment *)
| BlockStar               (* after a star in a comment *)
| Line                    (* in a comment to the end of the line *)
| Data.                   (* between angle brackets *)

(** The characters of a bare string other than the slash. *)
Definition is_word_char (c : char) : bool :=
  ((48 <=? c) && (c <=? 57) || (65 <=? c) && (c <=? 90) || (97 <=? c) && (c <=? 122)
   || (c =? 95) || (c =? 36) || (c =? 58) || (c =? 46) || (c =? 45))%N.

Definition is_hex_or_space (c : char) : bool :=
  ((48 <=? c) && (c <=? 57) || (65 <=? c) && (c <=? 70) || (97 <=? c) && (c <=? 102)
   || (c =? 32) || (c =? 9) || (c =? 10) || (c =? 13))%N.

(** One character read between tokens: the state after it and the tokens
    it begins. *)
Definition scan_between (c : char) : option (scan * list token) :=
  if ((c =? 32) || (c =? 9) || (c =? 10) || (c =? 13))%N then Some (Between, [])
  else if (c =? 47)%N then Some (Slash, [])
  else if (c =? 123)%N then Some (Between, [TLBrace])
  else if (c =? 125)%N then Some (Between, [TRBrace])
  else if (c =? 40)%N then Some (Between, [TLParen])
  else if (c =? 41)%N then Some (Between, [TRParen])
  else if (c =? 61)%N then Some (Between, [TEqual])
  else if (c =? 59)%N then Some (Between, [TSemi])
  else if (c =? 44)%N then Some (Between, [TComma])
  else if (c =? 34)%N then Some (Quoted, [TString])
  else if (c =? 60)%N then Some (Data, [TString])
  else if is_word_char c then Some (Word, [TString])
  else None.

(** One character read in a bare string. *)
Definition scan_word (c : char) : option (scan * list token) :=
  if is_word_char c then Some (Word, [])
  else if (c =? 47)%N then Some (WordSlash, [])
  else scan_between c.

Definition scan_step (st : scan) (c : char) : option (scan * list token) :=
  match st with
  | Between => scan_between c
  | Slash =>
      if (c =? 42)%N then Some (Block, [])
      else if (c =? 47)%N then Some (Line, [])
      else option_map (fun r => (fst r, TString :: snd r)) (scan_word c)
  | Word => scan_word c
  | WordSlash =>
      if (c =? 42)%N then Some (Block, [])
      else if (c =? 47)%N then Some (Line, [])
      else scan_word c
  | Quoted =>
      if (c =? 34)%N then Some (Between, [])
      else if (c =? 92)%N then Some (Escaped, [])
      else Some (Quoted, [])
  | Escaped => Some (Quoted, [])
  | Block => if (c =? 42)%N then Some (BlockStar, []) else Some (Block, [])
  | BlockStar =>
      if (c =? 47)%N then Some (Between, [])
      else if (c =? 42)%N then Some (BlockStar, [])
      else Some (Block, [])
  | Line => if (c =? 10)%N then Some (Between, []) else Some (Line, [])
  | Data =>
      if (c =? 62)%N then Some (Between, [])
      else if is_hex_or_space c then Some (Data, [])
      else None
  end.

(** The tokens of a text; [None] when a character fits nowhere or the
    text ends inside a comment, a quoted string or data. *)
Fixpoint tokens_from (st : scan) (s : text) : option (list token) :=
  match s with
  | [] =>
      match st with
      | Between | Word | WordSlash | Line => Some []
      | Slash => Some [TString]
      | Quoted | Escaped | Block | BlockStar | Data => None
      end
  | c :: s' =>
      match scan_step st c with
      | Some (st', ts) => option_map (app ts) (tokens_from st' s')
      | None => None
      end
  end.

Definition tokens (s : text) : option (list token) := tokens_from Between s.

(** What encloses the place the parser is at, and what it expects
    there. *)
Inductive frame : Type := InDict | InArray.

Inductive expect : Type :=
| Value          (* a value: at the start, or after the equals sign *)
| KeyOrEnd       (* in a dictionary: a key or the closing brace *)
| Equals         (* after a key *)
| Semicolon      (* after the value of a key *)
| ValueOrEnd     (* in an array, at its start or after a comma *)
| CommaOrEnd     (* after a value of an array *)
| Done.

Definition after_value (stack : list frame) : expect :=
  match stack with
  | [] => Done
  | InDict :: _ => Semicolon
  | InArray :: _ => CommaOrEnd
  end.

Fixpoint parse (e : expect) (stack : list frame) (ts : list token) : bool :=
  match ts with
  | [] =>
      match e, stack with
      | Done, [] => true
      | _, _ => false
      end
  | t :: ts' =>
      match e, t with
      | Value, TString | ValueOrEnd, TString => parse (after_value stack) stack ts'
      | Value, TLBrace | ValueOrEnd, TLBrace => parse KeyOrEnd (InDict :: stack) ts'
      | Value, TLParen | ValueOrEnd, TLParen => parse ValueOrEnd (InArray :: stack) ts'
      | ValueOrEnd, TRParen | CommaOrEnd, TRParen =>
          match stack with
          | InArray :: st => parse (after_value st) st ts'
          | _ => false
          end
      | CommaOrEnd, TComma => parse ValueOrEnd stack ts'
      | KeyOrEnd, TString => parse Equals stack ts'
      | KeyOrEnd, TRBrace =>
          match stack with
          | InDict :: st => parse (after_value st) st ts'
          | _ => false
          end
      | Equals, TEqual => parse Value stack ts'
      | Semicolon, TSemi => parse KeyOrEnd stack ts'
      | _, _ => false
      end
  end.

(** The text is one value of the format, with comments and white space
    around it. *)
Definition well_formed (s : text) : bool :=
  match tokens s with
  | Some ts => parse Value [] ts
  | None => false
  end.

(** ** Notions for the steps that are skipped *)




(* ================================================================== *)
(** * Sample inputs *)
(* ================================================================== *)

(** The path the script is run on (line 87). *)
Definition project_path : string := "ReTakeAi.xcodeproj/project.pbxproj".

(** A small manifest with the five anchors, laid out as Xcode does. *)
Definition sample_manifest : text :=
  str "// !$*UTF8*$!" ++ nl
  ++ str "/* Begin PBXBuildFile section */" ++ nl
  ++ str "/* End PBXBuildFile section */" ++ nl
  ++ str "/* Begin PBXFileReference section */" ++ nl
  ++ str "/* End PBXFileReference section */" ++ nl
  ++ str "/* Begin PBXGroup section */" ++ nl
  ++ tabs2 ++ str "AAAAAAAAAAAAAAAAAAAAAAAA /* Features */ = {" ++ nl
  ++ tabs3 ++ str "isa = PBXGroup;" ++ nl
  ++ tabs3 ++ str "children = (" ++ nl
  ++ tabs4 ++ str "BBBBBBBBBBBBBBBBBBBBBBBB /* Home */," ++ nl
  ++ tabs3 ++ str ");" ++ nl
  ++ tabs3 ++ str "path = Features;" ++ nl
  ++ tabs2 ++ str "};" ++ nl
  ++ str "/* End PBXGroup section */" ++ nl
  ++ tabs2 ++ str "CCCCCCCCCCCCCCCCCCCCCCCC /* Sources */ = {" ++ nl
  ++ tabs3 ++ str "isa = PBXSourcesBuildPhase;" ++ nl
  ++ tabs3 ++ str "files = (" ++ nl
  ++ tabs4 ++ str "DDDDDDDDDDDDDDDDDDDDDDDD /* Home.swift in Sources */," ++ nl
  ++ tabs3 ++ str ");" ++ nl
  ++ tabs2 ++ str "};" ++ nl.

(** A text without any anchor. *)
Definition bare_manifest : text := str "// !$*UTF8*$!" ++ nl.

(** A disk with one file, readable and writable, at the project path. *)
Definition one_file (b : bytes) : string -> option file :=
  fun k => if String.eqb k project_path then Some (File b true true) else None.

(** A world like the one the script is run in: a POSIX system with UTF-8
    as the encoding of files and of standard output, every path naming
    itself, the manifest [content] at the project path, and a random source
    whose draws differ. *)
Definition world_with (content : text) : world :=
  World (fun p => p) (one_file (encoded UTF8 content)) UTF8 Posix UTF8
        (fun k => (N.of_nat k * 1234567890123456789012345678901234567
                   + 98765432109876543210987654321098765432)%N)
        0 [].

(** A world whose random source repeats one draw. *)
Definition stuck_world (content : text) : world :=
  World (fun p => p) (one_file (encoded UTF8 content)) UTF8 Posix UTF8
        (fun _ => 98765432109876543210987654321098765432%N)
        0 [].

(** The same system with the bytes of the manifest given as they are. *)
Definition world_of_bytes (b : bytes) : world :=
  World (fun p => p) (one_file b) UTF8 Posix UTF8
        (fun k => (N.of_nat k * 1234567890123456789012345678901234567
                   + 98765432109876543210987654321098765432)%N)
        0 [].

(** A manifest in which another group has the same children as Features. *)
Definition twin_manifest : text :=
  str "/* Begin PBXGroup section */" ++ nl
  ++ tabs2 ++ str "EEEEEEEEEEEEEEEEEEEEEEEE /* Shared */ = {" ++ nl
  ++ tabs3 ++ str "children = (" ++ nl
  ++ tabs4 ++ str "BBBBBBBBBBBBBBBBBBBBBBBB /* Home */," ++ nl
  ++ tabs3 ++ str ");" ++ nl
  ++ tabs2 ++ str "};" ++ nl
  ++ tabs2 ++ str "AAAAAAAAAAAAAAAAAAAAAAAA /* Features */ = {" ++ nl
  ++ tabs3 ++ str "children = (" ++ nl
  ++ tabs4 ++ str "BBBBBBBBBBBBBBBBBBBBBBBB /* Home */," ++ nl
  ++ tabs3 ++ str ");" ++ nl
  ++ tabs2 ++ str "};" ++ nl.

(** A manifest in which two build phases have the same files. *)
Definition twin_sources_manifest : text :=
  tabs2 ++ str "CCCCCCCCCCCCCCCCCCCCCCCC /* Sources */ = {" ++ nl
  ++ tabs3 ++ str "files = (" ++ nl
  ++ tabs4 ++ str "DDDDDDDDDDDDDDDDDDDDDDDD /* Home.swift in Sources */," ++ nl
  ++ tabs3 ++ str ");" ++ nl
  ++ tabs2 ++ str "};" ++ nl
  ++ tabs2 ++ str "FFFFFFFFFFFFFFFFFFFFFFFF /* Resources */ = {" ++ nl
  ++ tabs3 ++ str "files = (" ++ nl
  ++ tabs4 ++ str "DDDDDDDDDDDDDDDDDDDDDDDD /* Home.swift in Sources */," ++ nl
  ++ tabs3 ++ str ");" ++ nl
  ++ tabs2 ++ str "};" ++ nl.


(** The sample manifest with a Features group that has no children yet,
    laid out as Xcode does: the parentheses of the listing enclose a line
    break and three tabs. *)
Definition empty_features_manifest : text :=
  str "// !$*UTF8*$!" ++ nl
  ++ str "/* Begin PBXBuildFile section */" ++ nl
  ++ str "/* End PBXBuildFile section */" ++ nl
  ++ str "/* Begin PBXFileReference section */" ++ nl
  ++ str "/* End PBXFileReference section */" ++ nl
  ++ str "/* Begin PBXGroup section */" ++ nl
  ++ tabs2 ++ str "AAAAAAAAAAAAAAAAAAAAAAAA /* Features */ = {" ++ nl
  ++ tabs3 ++ str "isa = PBXGroup;" ++ nl
  ++ tabs3 ++ str "children = (" ++ nl
  ++ tabs3 ++ str ");" ++ nl
  ++ tabs3 ++ str "path = Features;" ++ nl
  ++ tabs2 ++ str "};" ++ nl
  ++ str "/* End PBXGroup section */" ++ nl
  ++ tabs2 ++ str "CCCCCCCCCCCCCCCCCCCCCCCC /* Sources */ = {" ++ nl
  ++ tabs3 ++ str "isa = PBXSourcesBuildPhase;" ++ nl
  ++ tabs3 ++ str "files = (" ++ nl
  ++ tabs4 ++ str "DDDDDDDDDDDDDDDDDDDDDDDD /* Home.swift in Sources */," ++ nl
  ++ tabs3 ++ str ");" ++ nl
  ++ tabs2 ++ str "};" ++ nl.

(** A manifest without Features group, with the three section markers and
    a Sources phase that has no files yet, laid out as Xcode does. *)
Definition no_features_manifest : text :=
  str "/* Begin PBXBuildFile section */" ++ nl
  ++ str "/* End PBXBuildFile section */" ++ nl
  ++ str "/* Begin PBXFileReference section */" ++ nl
  ++ str "/* End PBXFileReference section */" ++ nl
  ++ str "/* Begin PBXGroup section */" ++ nl
  ++ tabs2 ++ str "AAAAAAAAAAAAAAAAAAAAAAAA /* Screens */ = {" ++ nl
  ++ tabs3 ++ str "isa = PBXGroup;" ++ nl
  ++ tabs3 ++ str "children = (" ++ nl
  ++ tabs4 ++ str "BBBBBBBBBBBBBBBBBBBBBBBB /* Home */," ++ nl
  ++ tabs3 ++ str ");" ++ nl
  ++ tabs2 ++ str "};" ++ nl
  ++ str "/* End PBXGroup section */" ++ nl
  ++ tabs2 ++ str "CCCCCCCCCCCCCCCCCCCCCCCC /* Sources */ = {" ++ nl
  ++ tabs3 ++ str "isa = PBXSourcesBuildPhase;" ++ nl
  ++ tabs3 ++ str "files = (" ++ nl
  ++ tabs3 ++ str ");" ++ nl
  ++ tabs2 ++ str "};" ++ nl.

(** The same without any Sources phase. *)
Definition markers_only_manifest : text :=
  str "/* Begin PBXBuildFile section */" ++ nl
  ++ str "/* Begin PBXFileReference section */" ++ nl
  ++ str "/* Begin PBXGroup section */" ++ nl
  ++ tabs2 ++ str "AAAAAAAAAAAAAAAAAAAAAAAA /* Screens */ = {" ++ nl
  ++ tabs3 ++ str "children = (" ++ nl
  ++ tabs4 ++ str "BBBBBBBBBBBBBBBBBBBBBBBB /* Home */," ++ nl
  ++ tabs3 ++ str ");" ++ nl
  ++ tabs2 ++ str "};" ++ nl.

(** A manifest in which the file-reference marker begins on the last
    character of the build-file marker. *)
Definition overlap_manifest : text :=
  str "/* Begin PBXBuildFile section */* Begin PBXFileReference section */" ++ nl
  ++ str "/* Begin PBXGroup section */" ++ nl.

(** A manifest with the five anchors whose Features group has the single
    child [e]. *)
Definition child_e_manifest : text :=
  str "/* Begin PBXBuildFile section */" ++ nl
  ++ str "/* Begin PBXFileReference section */" ++ nl
  ++ str "/* Begin PBXGroup section */" ++ nl
  ++ tabs2 ++ str "AAAAAAAAAAAAAAAAAAAAAAAA /* Features */ = {" ++ nl
  ++ tabs3 ++ str "children = (e);" ++ nl
  ++ tabs2 ++ str "};" ++ nl
  ++ tabs2 ++ str "CCCCCCCCCCCCCCCCCCCCCCCC /* Sources */ = {" ++ nl
  ++ tabs3 ++ str "files = (" ++ nl
  ++ tabs4 ++ str "DDDDDDDDDDDDDDDDDDDDDDDD /* Home.swift in Sources */," ++ nl
  ++ tabs3 ++ str ");" ++ nl
  ++ tabs2 ++ str "};" ++ nl.

(** The bytes of a manifest without anchors whose line ends with a
    carriage return and a line feed, as an editor on Windows leaves it. *)
Definition crlf_manifest_bytes : bytes := str "// !$*UTF8*$!" ++ [13%N; 10%N].

(** A complete manifest of the format, with a Features group whose child
    has a label with a parenthesis in it. *)
Definition labelled_manifest : text :=
  str "// !$*UTF8*$!" ++ nl
  ++ str "{" ++ nl
  ++ tab ++ str "objects = {" ++ nl
  ++ str "/* Begin PBXGroup section */" ++ nl
  ++ tabs2 ++ str "AAAAAAAAAAAAAAAAAAAAAAAA /* Features */ = {" ++ nl
  ++ tabs3 ++ str "isa = PBXGroup;" ++ nl
  ++ tabs3 ++ str "children = (" ++ nl
  ++ tabs4 ++ str "BBBBBBBBBBBBBBBBBBBBBBBB /* Home (old); */," ++ nl
  ++ tabs3 ++ str ");" ++ nl
  ++ tabs3 ++ str "path = Features;" ++ nl
  ++ tabs2 ++ str "};" ++ nl
  ++ str "/* End PBXGroup section */" ++ nl
  ++ tab ++ str "};" ++ nl
  ++ str "}" ++ nl.

(** The same manifest with an ordinary label. *)
Definition complete_manifest : text :=
  str "// !$*UTF8*$!" ++ nl
  ++ str "{" ++ nl
  ++ tab ++ str "objects = {" ++ nl
  ++ str "/* Begin PBXGroup section */" ++ nl
  ++ tabs2 ++ str "AAAAAAAAAAAAAAAAAAAAAAAA /* Features */ = {" ++ nl
  ++ tabs3 ++ str "isa = PBXGroup;" ++ nl
  ++ tabs3 ++ str "children = (" ++ nl
  ++ tabs4 ++ str "BBBBBBBBBBBBBBBBBBBBBBBB /* Home */," ++ nl
  ++ tabs3 ++ str ");" ++ nl
  ++ tabs3 ++ str "path = Features;" ++ nl
  ++ tabs2 ++ str "};" ++ nl
  ++ str "/* End PBXGroup section */" ++ nl
  ++ tab ++ str "};" ++ nl
  ++ str "}" ++ nl.

(** A manifest whose Features group has no child yet, laid out as Xcode
    does; no other line of it is indented by three tabs. *)
Definition empty_group_manifest : text :=
  str "// !$*UTF8*$!" ++ nl
  ++ tabs2 ++ str "AAAAAAAAAAAAAAAAAAAAAAAA /* Features */ = {" ++ nl
  ++ tabs3 ++ str "isa = PBXGroup;" ++ nl
  ++ tabs3 ++ str "children = (" ++ nl
  ++ tabs3 ++ str ");" ++ nl
  ++ tabs2 ++ str "};" ++ nl
  ++ tabs2 ++ str "CCCCCCCCCCCCCCCCCCCCCCCC /* Other */ = {" ++ nl
  ++ tabs2 ++ str "};" ++ nl.



(* ================================================================== *)
(** * The script as run, and further notions *)
(* ================================================================== *)

(** Lines 86-87: the script run as a program. *)
Definition main : io unit := add_files_to_pbxproj project_path.

(** The characters of [s] that are not white space, in order. *)
Definition visible_chars (s : text) : text :=
  filter (fun c => negb (is_space c)) s.

(** [a] is [b] with some characters left out. *)
Inductive subseq : text -> text -> Prop :=
| subseq_nil : subseq [] []
| subseq_skip (x : char) (a b : text) : subseq a b -> subseq a (x :: b)
| subseq_keep (x : char) (a b : text) : subseq a b -> subseq (x :: a) (x :: b).

(** A manifest with a parenthesis that is never closed. *)
Definition unbalanced_manifest : text :=
  str "/* Begin PBXBuildFile section */" ++ nl ++ str "children = (" ++ nl.

(** A Features record with two children listings before its closing
    brace. *)
Definition two_listings_manifest : text :=
  tabs2 ++ str "AAAAAAAAAAAAAAAAAAAAAAAA /* Features */ = {" ++ nl
  ++ tabs3 ++ str "children = (x);" ++ nl
  ++ tabs3 ++ str "children = (y);" ++ nl
  ++ tabs2 ++ str "};" ++ nl.

(* ================================================================== *)
(** * Strings: prefixes, slices *)
(* ================================================================== *)

Lemma char_eqb_eq (a b : char) : char_eqb a b = true <-> a = b.
Proof. apply N.eqb_eq. Qed.

Lemma char_eqb_refl (a : char) : char_eqb a a = true.
Proof. apply N.eqb_refl. Qed.

Lemma starts_with_app (p r : text) : starts_with p (p ++ r) = true.
Proof.
  induction p as [|x p IH]; simpl; [reflexivity|].
  now rewrite char_eqb_refl, IH.
Qed.

Lemma starts_with_split (p s : text) :
  starts_with p s = true -> s = p ++ skipn (length p) s.
Proof.
  revert s; induction p as [|x p IH]; intros s H; simpl in *; [reflexivity|].
  destruct s as [|y s]; [discriminate|].
  apply andb_true_iff in H as [Hxy Hp].
  apply char_eqb_eq in Hxy; subst y.
  simpl. f_equal. now apply IH.
Qed.

Lemma starts_with_iff (p s : text) :
  starts_with p s = true <-> exists r, s = p ++ r.
Proof.
  split.
  - intros H. exists (skipn (length p) s). now apply starts_with_split.
  - intros [r ->]. apply starts_with_app.
Qed.

Lemma skipn_app_exact (A : Type) (a b : list A) : skipn (length a) (a ++ b) = b.
Proof. induction a; simpl; auto. Qed.

Lemma firstn_app_exact (A : Type) (a b : list A) : firstn (length a) (a ++ b) = a.
Proof. induction a; simpl; [reflexivity|]. now f_equal. Qed.

Lemma skipn_app_plus (A : Type) (a b : list A) (n : nat) :
  skipn (length a + n) (a ++ b) = skipn n b.
Proof. induction a; simpl; auto. Qed.

Lemma firstn_app_plus (A : Type) (a b : list A) (n : nat) :
  firstn (length a + n) (a ++ b) = a ++ firstn n b.
Proof. induction a; simpl; [reflexivity|]. now f_equal. Qed.

Lemma slice_app (a b c : text) :
  slice (a ++ b ++ c) (length a) (length a + length b) = b.
Proof.
  unfold slice.
  replace (length a + length b - length a) with (length b) by lia.
  rewrite skipn_app_exact. apply firstn_app_exact.
Qed.

Lemma app_eq_length (A : Type) (a a' b b' : list A) :
  a ++ b = a' ++ b' -> length a = length a' -> a = a' /\ b = b'.
Proof.
  revert a'; induction a as [|x a IH]; intros [|y a'] H Hlen; try discriminate.
  - now split.
  - simpl in *. injection H as -> H. injection Hlen as Hlen.
    destruct (IH _ H Hlen) as [-> ->]. now split.
Qed.

Lemma Some_inj (A : Type) (x y : A) : Some x = Some y -> x = y.
Proof. now intros [= ->]. Qed.

Lemma split_at (a b c : text) :
  a ++ b ++ c
  = firstn (length a) (a ++ b ++ c) ++ b ++ skipn (length a + length b) (a ++ b ++ c).
Proof.
  rewrite firstn_app_exact, skipn_app_plus.
  now rewrite skipn_app_exact.
Qed.

Lemma splice_app (a b ins : text) :
  splice (a ++ b) (length a) ins = a ++ ins ++ b.
Proof.
  unfold splice. now rewrite firstn_app_exact, skipn_app_exact.
Qed.

(* ================================================================== *)
(** * The matcher, atom by atom *)
(* ================================================================== *)

Lemma run_lits (p : text) (r : regex) (s : text) (pos : nat) (g : spans) :
  run (lits p ++ r) s pos g =
  if starts_with p s then run r (skipn (length p) s) (length p + pos) g else None.
Proof.
  revert s pos; induction p as [|x p IH]; intros s pos; simpl.
  - reflexivity.
  - destruct s as [|y s]; [reflexivity|].
    rewrite N.eqb_sym. fold (char_eqb x y).
    destruct (char_eqb x y); simpl; [|reflexivity].
    rewrite IH. now rewrite Nat.add_succ_r.
Qed.

Lemma run_rep (p : char -> bool) (n : nat) (r : regex) (s : text) (pos : nat) (g : spans) :
  run (Rep p n :: r) s pos g =
  if (n <=? length s) && forallb p (firstn n s)
  then run r (skipn n s) (n + pos) g else None.
Proof.
  simpl. revert s pos; induction n as [|n IH]; intros s pos.
  - reflexivity.
  - destruct s as [|x s]; [reflexivity|].
    cbn [length firstn skipn forallb].
    destruct (p x); cbn [andb].
    + rewrite IH. rewrite Nat.add_succ_r. cbn [Nat.leb]. reflexivity.
    + now rewrite andb_false_r.
Qed.

Lemma run_open (i : nat) (r : regex) (s : text) (pos : nat) (g : spans) :
  run (Open i :: r) s pos g = run r s pos (open_group i pos g).
Proof. reflexivity. Qed.

Lemma run_close (i : nat) (r : regex) (s : text) (pos : nat) (g : spans) :
  run (Close i :: r) s pos g = run r s pos (close_group i pos g).
Proof. reflexivity. Qed.

(** A greedy [+] that succeeds took some [k >= 1] characters of the class,
    and the rest of the pattern matched after them. *)
Lemma run_plus_sound (p : char -> bool) (r : regex) (s : text) (pos : nat)
      (g : spans) (res : nat * spans) :
  run (Plus p :: r) s pos g = Some res ->
  exists k, 1 <= k /\ k <= length s /\ forallb p (firstn k s) = true
            /\ run r (skipn k s) (k + pos) g = Some res.
Proof.
  simpl. revert pos; induction s as [|x s IH]; intros pos H; [discriminate|].
  destruct (p x) eqn:Hx; [|discriminate].
  match type of H with
  | match ?e with _ => _ end = _ => destruct e as [res'|] eqn:Hg
  end.
  - injection H as <-.
    destruct (IH _ Hg) as (k & Hk1 & Hk2 & Hall & Hrun).
    exists (S k). cbn [length firstn skipn forallb]. rewrite Hx.
    split; [lia|]. split; [lia|]. split; [exact Hall|].
    now rewrite Nat.add_succ_r in Hrun.
  - exists 1. cbn [length firstn skipn forallb]. rewrite Hx.
    split; [lia|]. split; [lia|]. split; [reflexivity|exact H].
Qed.

(** Whenever some [k >= 1] characters of the class are followed by a match
    of the rest, the greedy [+] succeeds (with that split or a longer one). *)
Lemma run_plus_complete (p : char -> bool) (r : regex) (s : text) (pos : nat)
      (g : spans) (k : nat) :
  1 <= k -> k <= length s -> forallb p (firstn k s) = true ->
  run r (skipn k s) (k + pos) g <> None ->
  run (Plus p :: r) s pos g <> None.
Proof.
  simpl. revert pos k; induction s as [|x s IH]; intros pos k Hk1 Hk2 Hall Hrun.
  - simpl in Hk2. lia.
  - destruct k as [|k]; [lia|].
    cbn [length firstn skipn forallb] in *.
    apply andb_true_iff in Hall as [Hx Hall]. rewrite Hx.
    destruct k as [|k].
    + match goal with
      | |- match ?e with _ => _ end <> _ => destruct e
      end; [discriminate| exact Hrun].
    + assert (Hrec := IH (S pos) (S k) ltac:(lia) ltac:(lia) Hall).
      rewrite Nat.add_succ_r in Hrec. specialize (Hrec Hrun).
      match goal with
      | |- match ?e with _ => _ end <> _ => destruct e
      end; [discriminate| now elim Hrec].
Qed.

(* ================================================================== *)
(** * [re.search] *)
(* ================================================================== *)

(** The match found starts at the leftmost offset at which the pattern
    matches. *)
Lemma search_from_sound (r : regex) (s : text) (pos : nat) (m : match_obj) :
  search_from r s pos = Some m ->
  exists i, i <= length s /\ m_start m = i + pos
            /\ run r (skipn i s) (i + pos) [] = Some (m_end m, m_spans m)
            /\ forall j, j < i -> run r (skipn j s) (j + pos) [] = None.
Proof.
  revert pos; induction s as [|x s IH]; intros pos H; simpl in H.
  - destruct (run r [] pos []) as [[e g]|] eqn:Hr; [|discriminate].
    injection H as <-. exists 0. simpl.
    split; [lia|]. split; [reflexivity|]. split; [exact Hr|]. intros; lia.
  - destruct (run r (x :: s) pos []) as [[e g]|] eqn:Hr.
    + injection H as <-. exists 0. simpl.
      split; [lia|]. split; [reflexivity|]. split; [exact Hr|]. intros; lia.
    + destruct (IH _ H) as (i & Hi & Hs & Hrun & Hmin).
      exists (S i). simpl. rewrite Nat.add_succ_r in *.
      split; [lia|]. split; [exact Hs|]. split; [exact Hrun|].
      intros [|j] Hj; simpl; [exact Hr|].
      specialize (Hmin j ltac:(lia)). now rewrite Nat.add_succ_r in Hmin.
Qed.

Lemma search_from_none (r : regex) (s : text) (pos : nat) :
  search_from r s pos = None <->
  forall i, i <= length s -> run r (skipn i s) (i + pos) [] = None.
Proof.
  revert pos; induction s as [|x s IH]; intros pos; simpl.
  - destruct (run r [] pos []) as [[e g]|] eqn:Hr.
    + split; [discriminate|]. intros H. specialize (H 0 (le_n _)).
      simpl in H. congruence.
    + split; [|reflexivity]. intros _ i Hi. replace i with 0 by lia. exact Hr.
  - destruct (run r (x :: s) pos []) as [[e g]|] eqn:Hr.
    + split; [discriminate|]. intros H. specialize (H 0 ltac:(lia)).
      simpl in H. congruence.
    + rewrite IH. split.
      * intros H [|i] Hi; simpl; [exact Hr|].
        rewrite <- Nat.add_succ_r. apply H. lia.
      * intros H i Hi. specialize (H (S i) ltac:(lia)). simpl in H.
        now rewrite Nat.add_succ_r.
Qed.

(** Whether the pattern matches does not depend on the offset reported or
    on the group spans carried. *)
Lemma run_none_indep (r : regex) (s : text) (pos pos' : nat) (g g' : spans) :
  run r s pos g = None -> run r s pos' g' = None.
Proof.
  revert s pos pos' g g'; induction r as [|a r IH]; intros s pos pos' g g' H.
  - discriminate.
  - destruct a as [c|p n|p|i|i].
    + simpl in *. destruct s as [|x s]; [reflexivity|].
      destruct (char_eqb x c); [eauto|reflexivity].
    + rewrite run_rep in *.
      destruct ((n <=? length s) && forallb p (firstn n s)); [eauto|reflexivity].
    + destruct (run (Plus p :: r) s pos' g') as [res|] eqn:Hres; [|reflexivity].
      apply run_plus_sound in Hres as (k & Hk1 & Hk2 & Hall & Hrun).
      exfalso. revert H. apply run_plus_complete with (k := k); auto.
      intros Hn. rewrite (IH _ _ (k + pos') _ g' Hn) in Hrun. discriminate.
    + simpl in *. eauto.
    + simpl in *. eauto.
Qed.

(* ================================================================== *)
(** * The section markers *)
(* ================================================================== *)

Lemma run_lits_only (p s : text) (pos : nat) (g : spans) :
  run (lits p) s pos g = if starts_with p s then Some (length p + pos, g) else None.
Proof.
  rewrite <- (app_nil_r (lits p)). rewrite run_lits. reflexivity.
Qed.

Lemma search_lits_from (p s : text) (pos : nat) :
  search_from (lits p) s pos =
  option_map (fun i => MatchObj i (length p + i) []) (find_from p s pos).
Proof.
  revert pos; induction s as [|x s IH]; intros pos.
  - cbn [search_from find_from]. rewrite run_lits_only.
    destruct (starts_with p []); reflexivity.
  - cbn [search_from find_from]. rewrite run_lits_only.
    destruct (starts_with p (x :: s)); [reflexivity|]. apply IH.
Qed.

(** Searching for a marker is [str.find]; [end()] is the offset just after
    the leftmost occurrence. *)
Lemma search_marker (p s : text) :
  re_search (lits p) s = option_map (fun i => MatchObj i (length p + i) []) (find p s).
Proof. apply search_lits_from. Qed.

Lemma find_from_sound (p s : text) (pos i : nat) :
  find_from p s pos = Some i ->
  exists a b, s = a ++ p ++ b /\ i = length a + pos.
Proof.
  revert pos; induction s as [|x s IH]; intros pos H; cbn [find_from] in H.
  - destruct (starts_with p []) eqn:Hp; [|discriminate].
    injection H as <-. apply starts_with_iff in Hp as [r Hr].
    exists [], r. split; [exact Hr|reflexivity].
  - destruct (starts_with p (x :: s)) eqn:Hp.
    + injection H as <-. apply starts_with_iff in Hp as [r Hr].
      exists [], r. split; [exact Hr|reflexivity].
    + destruct (IH _ H) as (a & b & Hs & Hi).
      exists (x :: a), b. split; [now rewrite Hs|]. simpl. lia.
Qed.

Lemma find_sound (p s : text) (i : nat) :
  find p s = Some i ->
  exists a b, s = a ++ p ++ b /\ i = length a.
Proof.
  intros H. apply find_from_sound in H as (a & b & Hs & Hi).
  exists a, b. split; [exact Hs|lia].
Qed.

Lemma find_from_none (p s : text) (pos : nat) :
  find_from p s pos = None -> forall a b, s <> a ++ p ++ b.
Proof.
  revert pos; induction s as [|x s IH]; intros pos H a b Hs; cbn [find_from] in H.
  - destruct (starts_with p []) eqn:Hp; [discriminate|].
    destruct a; [|discriminate]. simpl in Hs.
    rewrite Hs, starts_with_app in Hp. discriminate.
  - destruct (starts_with p (x :: s)) eqn:Hp; [discriminate|].
    destruct a as [|y a].
    + simpl in Hs. rewrite Hs, starts_with_app in Hp. discriminate.
    + injection Hs as _ Hs. exact (IH _ H _ _ Hs).
Qed.

Lemma find_none (p s : text) :
  find p s = None -> forall a b, s <> a ++ p ++ b.
Proof. apply find_from_none. Qed.

(** Each insertion step in terms of [find]. *)
Lemma insert_step_found (marker entries content : text) (i : nat) :
  find marker content = Some i ->
  match re_search (lits marker) content with
  | Some m => splice content (m_end m) entries
  | None => content
  end = splice content (length marker + i) entries.
Proof. intros H. rewrite search_marker, H. reflexivity. Qed.

Lemma insert_step_absent (marker entries content : text) :
  find marker content = None ->
  match re_search (lits marker) content with
  | Some m => splice content (m_end m) entries
  | None => content
  end = content.
Proof. intros H. rewrite search_marker, H. reflexivity. Qed.

(* ================================================================== *)
(** * The listing patterns *)
(* ================================================================== *)

Lemma features_re_listing :
  features_re = listing_re features_header children_key.
Proof. reflexivity. Qed.

Lemma features_children_re_listing (uuid : text) :
  features_children_re uuid = listing_group_re uuid features_header children_key.
Proof. reflexivity. Qed.

Lemma sources_re_listing :
  sources_re = listing_re sources_header files_key.
Proof. reflexivity. Qed.

Lemma sources_files_re_listing (uuid : text) :
  sources_files_re uuid = listing_group_re uuid sources_header files_key.
Proof. reflexivity. Qed.

Lemma firstn_nonempty (A : Type) (k : nat) (s : list A) :
  1 <= k -> k <= length s -> firstn k s <> [].
Proof.
  intros H1 H2 Hn. apply (f_equal (@length A)) in Hn.
  rewrite length_firstn in Hn. simpl in Hn. lia.
Qed.

Section Listing.
Variables header key : text.

(** What a match of the first pattern is. *)
Lemma listing_re_sound (s : text) (pos e : nat) (g : spans) :
  run (listing_re header key) s pos [] = Some (e, g) ->
  exists uuid body listing,
    listing_at uuid header key body listing s
    /\ length uuid = 24 /\ forallb is_upper_hex uuid = true
    /\ uuid = firstn 24 s
    /\ span_of 1 g = Some (pos, 24 + pos).
Proof.
  unfold listing_re. intros H.
  cbn [app] in H. rewrite run_open, run_rep in H.
  destruct (24 <=? length s) eqn:Hlen; [|discriminate].
  destruct (forallb is_upper_hex (firstn 24 s)) eqn:Hhex; [|discriminate].
  cbn [andb] in H. rewrite run_close, run_lits in H.
  destruct (starts_with header (skipn 24 s)) eqn:Hh; [|discriminate].
  apply run_plus_sound in H as (k1 & Hk1 & Hk1' & Hbody & H).
  rewrite run_lits in H.
  match type of H with
  | (if starts_with key ?t then _ else _) = _ =>
      destruct (starts_with key t) eqn:Hkey; [|discriminate]
  end.
  apply run_plus_sound in H as (k2 & Hk2 & Hk2' & Hlst & H).
  rewrite run_lits_only in H.
  match type of H with
  | (if starts_with _ ?t then _ else _) = _ =>
      destruct (starts_with (str ");") t) eqn:Hend; [|discriminate]
  end.
  injection H as _ <-.
  apply Nat.leb_le in Hlen.
  apply starts_with_split in Hh, Hkey, Hend.
  set (s1 := skipn (length header) (skipn 24 s)) in *.
  set (s2 := skipn (length key) (skipn k1 s1)) in *.
  exists (firstn 24 s), (firstn k1 s1), (firstn k2 s2).
  split; [|split; [|split; [|split]]].
  - split; [|split; [|split; [|split]]].
    + exists (skipn (length (str ");")) (skipn k2 s2)).
      rewrite <- Hend, (firstn_skipn k2 s2), <- Hkey, (firstn_skipn k1 s1).
      rewrite <- Hh. now rewrite firstn_skipn.
    + now apply firstn_nonempty.
    + exact Hbody.
    + now apply firstn_nonempty.
    + exact Hlst.
  - rewrite length_firstn. lia.
  - exact Hhex.
  - reflexivity.
  - reflexivity.
Qed.

Lemma listing_at_run (uuid body listing s : text) (pos : nat) (g : spans) :
  listing_at uuid header key body listing s ->
  run (lits header ++ [Plus not_rbrace] ++ lits key ++ [Plus not_rparen]
       ++ lits (str ");")) (skipn (length uuid) s) pos g <> None.
Proof.
  intros ((rest & Hs) & Hb & Hb' & Hl & Hl'). subst s.
  rewrite skipn_app_exact, run_lits, starts_with_app, skipn_app_exact.
  apply run_plus_complete with (k := length body).
  - destruct body; [contradiction|simpl; lia].
  - rewrite length_app. lia.
  - now rewrite firstn_app_exact.
  - rewrite skipn_app_exact, run_lits, starts_with_app, skipn_app_exact.
    apply run_plus_complete with (k := length listing).
    + destruct listing; [contradiction|simpl; lia].
    + rewrite length_app. lia.
    + now rewrite firstn_app_exact.
    + rewrite skipn_app_exact, run_lits_only, starts_with_app. discriminate.
Qed.

Lemma listing_re_complete (uuid body listing s : text) (pos : nat) (g : spans) :
  listing_at uuid header key body listing s ->
  length uuid = 24 -> forallb is_upper_hex uuid = true ->
  run (listing_re header key) s pos g <> None.
Proof.
  intros Hat Hlen Hhex. unfold listing_re. cbn [app].
  rewrite run_open, run_rep.
  assert (H24 : firstn 24 s = uuid /\ 24 <= length s).
  { destruct Hat as ((rest & ->) & _). rewrite <- Hlen.
    rewrite firstn_app_exact, length_app. split; [reflexivity|lia]. }
  destruct H24 as [H24 Hle]. rewrite H24, Hhex.
  apply Nat.leb_le in Hle. rewrite Hle. cbn [andb].
  rewrite run_close, <- Hlen at 1.
  now apply listing_at_run with (body := body) (listing := listing).
Qed.

(** What a match of the second pattern is, and where its group 2 lies. *)
Lemma listing_group_re_sound (uuid s : text) (pos e : nat) (g : spans) :
  run (listing_group_re uuid header key) s pos [] = Some (e, g) ->
  exists body listing,
    listing_at uuid header key body listing s
    /\ span_of 2 g =
       Some (length (uuid ++ header ++ body ++ key) + pos,
             length (uuid ++ header ++ body ++ key ++ listing) + pos).
Proof.
  unfold listing_group_re. intros H.
  cbn [app] in H. rewrite run_open, run_lits in H.
  destruct (starts_with uuid s) eqn:Hu; [|discriminate].
  rewrite run_lits in H.
  destruct (starts_with header (skipn (length uuid) s)) eqn:Hh; [|discriminate].
  apply run_plus_sound in H as (k1 & Hk1 & Hk1' & Hbody & H).
  rewrite run_lits in H.
  match type of H with
  | (if starts_with key ?t then _ else _) = _ =>
      destruct (starts_with key t) eqn:Hkey; [|discriminate]
  end.
  cbn [app] in H. rewrite run_close, run_open in H.
  apply run_plus_sound in H as (k2 & Hk2 & Hk2' & Hlst & H).
  rewrite run_close, run_open, run_lits in H.
  match type of H with
  | (if starts_with _ ?t then _ else _) = _ =>
      destruct (starts_with (str ");") t) eqn:Hend; [|discriminate]
  end.
  cbn [run] in H. injection H as _ <-.
  apply starts_with_split in Hu, Hh, Hkey, Hend.
  set (s1 := skipn (length header) (skipn (length uuid) s)) in *.
  set (s2 := skipn (length key) (skipn k1 s1)) in *.
  exists (firstn k1 s1), (firstn k2 s2).
  split.
  - split; [|split; [|split; [|split]]].
    + exists (skipn (length (str ");")) (skipn k2 s2)).
      rewrite <- Hend, (firstn_skipn k2 s2), <- Hkey, (firstn_skipn k1 s1).
      now rewrite <- Hh.
    + now apply firstn_nonempty.
    + exact Hbody.
    + now apply firstn_nonempty.
    + exact Hlst.
  - cbn [close_group open_group span_of Nat.eqb].
    rewrite !length_app, !length_firstn.
    do 2 f_equal; lia.
Qed.
End Listing.
(* ================================================================== *)
(** * Groups do not change whether a pattern matches *)
(* ================================================================== *)

Lemma run_strip_groups (r : regex) :
  forall (s : text) (pos pos' : nat) (g g' : spans),
    run r s pos g = None <-> run (strip_groups r) s pos' g' = None.
Proof.
  induction r as [|a r IH]; intros s pos pos' g g'.
  - simpl. split; discriminate.
  - destruct a as [c|p n|p|i|i]; cbn [strip_groups filter is_group_atom negb];
      fold (strip_groups r).
    + simpl. destruct s as [|x s]; [tauto|].
      destruct (char_eqb x c); [apply IH|tauto].
    + rewrite !run_rep.
      destruct ((n <=? length s) && forallb p (firstn n s)); [apply IH|tauto].
    + split; intros H.
      * destruct (run (Plus p :: strip_groups r) s pos' g') as [res|] eqn:Hres;
          [|reflexivity].
        apply run_plus_sound in Hres as (k & Hk1 & Hk2 & Hall & Hrun).
        exfalso. revert H. apply run_plus_complete with (k := k); auto.
        intros Hn. apply (IH _ _ (k + pos') _ g') in Hn. congruence.
      * destruct (run (Plus p :: r) s pos g) as [res|] eqn:Hres; [|reflexivity].
        apply run_plus_sound in Hres as (k & Hk1 & Hk2 & Hall & Hrun).
        exfalso. revert H. apply run_plus_complete with (k := k); auto.
        intros Hn. apply (IH _ (k + pos) _ g) in Hn. congruence.
    + rewrite run_open. apply IH.
    + rewrite run_close. apply IH.
Qed.

Lemma strip_groups_app (r1 r2 : regex) :
  strip_groups (r1 ++ r2) = strip_groups r1 ++ strip_groups r2.
Proof. apply filter_app. Qed.

Lemma strip_groups_lits (p : text) : strip_groups (lits p) = lits p.
Proof.
  induction p as [|x p IH]; [reflexivity|].
  simpl. fold (strip_groups (lits p)). now rewrite IH.
Qed.

Section LinkStep.
Variables header key : text.

Lemma listing_group_re_complete (uuid body listing s : text) (pos : nat) (g : spans) :
  listing_at uuid header key body listing s ->
  run (listing_group_re uuid header key) s pos g <> None.
Proof.
  intros Hat Hn.
  apply (run_strip_groups _ _ _ 0 _ []) in Hn.
  unfold listing_group_re in Hn.
  rewrite !strip_groups_app, !strip_groups_lits in Hn.
  cbn [strip_groups filter is_group_atom negb app] in Hn.
  rewrite run_lits in Hn.
  assert (Hu : starts_with uuid s = true).
  { destruct Hat as ((rest & ->) & _). apply starts_with_app. }
  rewrite Hu in Hn. revert Hn.
  now apply listing_at_run with (body := body) (listing := listing).
Qed.

(** A match of the second pattern is a match of the first when the
    identifier is one. *)
Lemma listing_group_re_listing_re (uuid s : text) (pos pos' : nat) (g : spans) :
  length uuid = 24 -> forallb is_upper_hex uuid = true ->
  run (listing_group_re uuid header key) s pos [] <> None ->
  run (listing_re header key) s pos' g <> None.
Proof.
  intros Hlen Hhex Hrun.
  destruct (run (listing_group_re uuid header key) s pos []) as [[e g2]|] eqn:H;
    [|congruence].
  apply listing_group_re_sound in H as (body & listing & Hat & _).
  now apply listing_re_complete with (uuid := uuid) (body := body) (listing := listing).
Qed.

(** The inner guard of an append step never fails: the second search
    succeeds whenever the first does, and at the same offset. *)
Lemma matched_listing_found (content : text) (m1 : match_obj) :
  re_search (listing_re header key) content = Some m1 ->
  exists m2 a uuid body listing rest,
    re_search (listing_group_re (group content m1 1) header key) content = Some m2
    /\ group content m1 1 = uuid
    /\ content = a ++ uuid ++ header ++ body ++ key ++ listing ++ str ");" ++ rest
    /\ length uuid = 24 /\ forallb is_upper_hex uuid = true
    /\ body <> [] /\ forallb not_rbrace body = true
    /\ listing <> [] /\ forallb not_rparen listing = true
    /\ m_start m1 = length a /\ m_start m2 = length a
    /\ span_of 2 (m_spans m2) =
       Some (length (a ++ uuid ++ header ++ body ++ key),
             length (a ++ uuid ++ header ++ body ++ key ++ listing))
    /\ group content m2 2 = listing.
Proof.
  unfold re_search. intros H1.
  apply search_from_sound in H1 as (i & Hi & Hs1 & Hrun1 & Hmin1).
  rewrite Nat.add_0_r in *.
  destruct (listing_re_sound _ _ _ _ _ _ Hrun1)
    as (uuid & body1 & listing1 & Hat1 & Hlen & Hhex & Huuid & Hsp1).
  assert (Hg1 : group content m1 1 = uuid).
  { unfold group. rewrite Hsp1. unfold slice.
    replace (24 + i - i) with 24 by lia. now rewrite Huuid. }
  rewrite Hg1.
  destruct (search_from (listing_group_re uuid header key) content 0)
    as [m2|] eqn:H2.
  2:{ exfalso. rewrite search_from_none in H2.
      specialize (H2 i Hi). revert H2.
      now apply listing_group_re_complete with (body := body1) (listing := listing1). }
  apply search_from_sound in H2 as (i2 & Hi2 & Hs2 & Hrun2 & Hmin2).
  rewrite Nat.add_0_r in *.
  assert (Heq2 : i2 = i).
  { destruct (Nat.lt_trichotomy i2 i) as [Hlt|[Heq|Hgt]]; [|exact Heq|].
    - exfalso. specialize (Hmin1 _ Hlt). rewrite Nat.add_0_r in Hmin1.
      revert Hmin1.
      apply listing_group_re_listing_re with (uuid := uuid) (pos := i2); auto.
      congruence.
    - exfalso. specialize (Hmin2 _ Hgt). rewrite Nat.add_0_r in Hmin2.
      revert Hmin2.
      now apply listing_group_re_complete with (body := body1) (listing := listing1). }
  rewrite Heq2 in *. clear Heq2 Hmin2.
  destruct (listing_group_re_sound _ _ _ _ _ _ _ Hrun2) as (body & listing & Hat & Hsp2).
  destruct Hat as ((rest & Hskip) & Hb & Hb' & Hl & Hl').
  assert (Hc : content = firstn i content ++ uuid ++ header ++ body ++ key
                         ++ listing ++ str ");" ++ rest).
  { rewrite <- Hskip. symmetry. apply firstn_skipn. }
  assert (Ha : length (firstn i content) = i) by (rewrite length_firstn; lia).
  exists m2, (firstn i content), uuid, body, listing, rest.
  split; [reflexivity|]. split; [reflexivity|]. split; [exact Hc|].
  split; [exact Hlen|]. split; [exact Hhex|].
  split; [exact Hb|]. split; [exact Hb'|]. split; [exact Hl|]. split; [exact Hl'|].
  split; [congruence|]. split; [congruence|].
  assert (Hsp : span_of 2 (m_spans m2) =
       Some (length (firstn i content ++ uuid ++ header ++ body ++ key),
             length (firstn i content ++ uuid ++ header ++ body ++ key ++ listing))).
  { rewrite Hsp2. rewrite (length_app (firstn i content)).
    rewrite (length_app (firstn i content) (uuid ++ _)). rewrite Ha.
    do 2 f_equal; lia. }
  split; [exact Hsp|].
  unfold group. rewrite Hsp. rewrite Hc at 1.
  replace (firstn i content ++ uuid ++ header ++ body ++ key ++ listing ++ str ");" ++ rest)
    with ((firstn i content ++ uuid ++ header ++ body ++ key) ++ listing ++ str ");" ++ rest)
    by (now rewrite <- !app_assoc).
  replace (length (firstn i content ++ uuid ++ header ++ body ++ key ++ listing))
    with (length (firstn i content ++ uuid ++ header ++ body ++ key) + length listing)
    by (rewrite !length_app; lia).
  apply slice_app.
Qed.
End LinkStep.
(* ================================================================== *)
(** * [str.replace] *)
(* ================================================================== *)

Lemma replace_from_skip (old new : text) (skip : nat) (s : text) :
  replace_from old new skip s = replace_from old new 0 (skipn skip s).
Proof.
  revert skip; induction s as [|x s IH]; intros skip.
  - destruct skip; reflexivity.
  - destruct skip as [|k]; [reflexivity|]. cbn [replace_from skipn]. apply IH.
Qed.

Lemma replace_nil (old new : text) : old <> [] -> replace [] old new = [].
Proof. destruct old; [contradiction|reflexivity]. Qed.

Lemma replace_here (old new b : text) :
  old <> [] -> replace (old ++ b) old new = new ++ replace b old new.
Proof.
  destruct old as [|x old]; [contradiction|]; intros _.
  unfold replace. cbn [app replace_from].
  change (x :: old ++ b) with ((x :: old) ++ b). rewrite starts_with_app.
  rewrite replace_from_skip.
  replace (length (x :: old) - 1) with (length old) by (simpl; lia).
  now rewrite skipn_app_exact.
Qed.

Lemma replace_step (old new : text) (x : char) (s : text) :
  old <> [] -> starts_with old (x :: s) = false ->
  replace (x :: s) old new = x :: replace s old new.
Proof.
  destruct old as [|y old]; [contradiction|]; intros _ H.
  unfold replace. cbn [replace_from]. now rewrite H.
Qed.

(** Reasoning about [replace] follows the scan: either the text is
    exhausted, or it begins with an occurrence, or its first character is
    kept. *)
Lemma replace_ind (old new : text) (P : text -> text -> Prop) :
  old <> [] ->
  P [] [] ->
  (forall b r, P b r -> P (old ++ b) (new ++ r)) ->
  (forall x s r, starts_with old (x :: s) = false -> P s r -> P (x :: s) (x :: r)) ->
  forall s, P s (replace s old new).
Proof.
  intros Hold Hnil Hhere Hstep s.
  remember (length s) as n eqn:Hn. revert s Hn.
  induction n as [n IH] using lt_wf_ind. intros s Hn.
  destruct s as [|x s].
  - now rewrite replace_nil.
  - destruct (starts_with old (x :: s)) eqn:Hsw.
    + apply starts_with_split in Hsw. rewrite Hsw.
      rewrite replace_here by assumption. apply Hhere.
      apply (IH (length (skipn (length old) (x :: s)))); [|reflexivity].
      subst n. rewrite length_skipn. destruct old; [contradiction|]. simpl. lia.
    + rewrite replace_step by assumption. apply Hstep; [assumption|].
      apply (IH (length s)); [subst n; simpl; lia|reflexivity].
Qed.

(** A replacement that keeps the characters selected by [q] keeps them in
    the whole text. *)
Lemma replace_filter (q : char -> bool) (s old new : text) :
  old <> [] -> filter q new = filter q old ->
  filter q (replace s old new) = filter q s.
Proof.
  intros Hold Hq. apply replace_ind with (P := fun s r => filter q r = filter q s).
  - exact Hold.
  - reflexivity.
  - intros b r IH. rewrite !filter_app. now rewrite IH, Hq.
  - intros x t r _ IH. simpl. now rewrite IH.
Qed.

Lemma visible_app (a b : text) : visible (a ++ b) = visible a + visible b.
Proof. unfold visible. now rewrite filter_app, length_app. Qed.

Lemma visible_cons_le (x : char) (s : text) : visible s <= visible (x :: s).
Proof. unfold visible. simpl. destruct (negb (is_space x)); simpl; lia. Qed.

Lemma occurs_tail (p : text) (x : char) (s : text) :
  starts_with p (x :: s) = false -> occurs p (x :: s) -> occurs p s.
Proof.
  intros Hsw (a & b & Hs). destruct a as [|y a].
  - simpl in Hs. rewrite Hs, starts_with_app in Hsw. discriminate.
  - injection Hs as _ Hs. now exists a, b.
Qed.

(** A replacement that adds visible characters never loses any, and gains
    some as soon as the replaced text occurs. *)
Lemma replace_visible (s old new : text) :
  old <> [] -> visible old < visible new ->
  visible s <= visible (replace s old new)
  /\ (occurs old s -> visible s < visible (replace s old new)).
Proof.
  intros Hold Hv.
  apply replace_ind with
    (P := fun s r => visible s <= visible r /\ (occurs old s -> visible s < visible r)).
  - exact Hold.
  - split; [lia|]. intros (a & b & H). destruct a; destruct old; try discriminate.
    contradiction.
  - intros b r [IH _]. rewrite !visible_app. split; [lia|]. intros _. lia.
  - intros x t r Hsw [IH1 IH2]. split.
    + unfold visible in *. simpl. destruct (negb (is_space x)); simpl; lia.
    + intros Hocc. apply occurs_tail in Hocc; [|exact Hsw].
      specialize (IH2 Hocc).
      unfold visible in *. simpl. destruct (negb (is_space x)); simpl; lia.
Qed.

Lemma replace_absent (s old new : text) :
  old <> [] -> ~ occurs old s -> replace s old new = s.
Proof.
  intros Hold.
  apply replace_ind with (P := fun s r => ~ occurs old s -> r = s).
  - exact Hold.
  - reflexivity.
  - intros b r _ Hno. elim Hno. now exists [], b.
  - intros x t r _ IH Hno. f_equal. apply IH.
    intros (a & b & Ht). apply Hno. exists (x :: a), b. now rewrite Ht.
Qed.

(** When the replaced text occurs at one offset only, [replace] is a
    single local edit. *)
Lemma replace_once (old new a b : text) :
  old <> [] ->
  (forall a' b', a ++ old ++ b = a' ++ old ++ b' -> length a' = length a) ->
  replace (a ++ old ++ b) old new = a ++ new ++ b.
Proof.
  intros Hold. induction a as [|x a IH]; intros Huniq.
  - cbn [app]. rewrite replace_here by assumption. f_equal.
    apply replace_absent; [assumption|].
    intros (a' & b' & Hb).
    specialize (Huniq (old ++ a') b').
    cbn [app length] in Huniq. rewrite Hb, <- app_assoc in Huniq.
    specialize (Huniq eq_refl). rewrite length_app in Huniq.
    destruct old; [contradiction|]. simpl in Huniq. lia.
  - cbn [app]. rewrite replace_step; [|assumption|].
    + f_equal. apply IH. intros a' b' H.
      specialize (Huniq (x :: a') b'). cbn [app length] in Huniq.
      rewrite H in Huniq. specialize (Huniq eq_refl). lia.
    + destruct (starts_with old (x :: a ++ old ++ b)) eqn:Hsw; [|reflexivity].
      apply starts_with_iff in Hsw as [r Hr].
      specialize (Huniq [] r). cbn [app length] in Huniq.
      specialize (Huniq Hr). discriminate.
Qed.

(** [positions] lists exactly the offsets of the occurrences. *)
Lemma positions_from_complete (p a b : text) (pos : nat) :
  In (length a + pos) (positions_from p (a ++ p ++ b) pos).
Proof.
  revert pos; induction a as [|x a IH]; intros pos.
  - cbn [app length Nat.add]. destruct (p ++ b) eqn:Hpb.
    + cbn [positions_from]. destruct p; [|discriminate]. simpl. now left.
    + cbn [positions_from]. rewrite <- Hpb, starts_with_app. now left.
  - cbn [app positions_from length]. apply in_or_app. right.
    specialize (IH (S pos)). now rewrite Nat.add_succ_r in IH.
Qed.

Lemma positions_complete (p a b : text) : In (length a) (positions p (a ++ p ++ b)).
Proof.
  unfold positions. generalize (positions_from_complete p a b 0).
  now rewrite Nat.add_0_r.
Qed.

Lemma positions_single (p a b : text) (i : nat) :
  positions p (a ++ p ++ b) = [i] ->
  forall a' b', a ++ p ++ b = a' ++ p ++ b' -> length a' = length a.
Proof.
  intros Hpos a' b' H.
  assert (H1 := positions_complete p a b).
  assert (H2 := positions_complete p a' b').
  rewrite <- H, Hpos in H2. rewrite Hpos in H1.
  destruct H1 as [H1|[]]. destruct H2 as [H2|[]]. congruence.
Qed.
(* ================================================================== *)
(** * [str.rstrip] *)
(* ================================================================== *)

Lemma visible_rev (s : text) : visible (rev s) = visible s.
Proof.
  unfold visible. induction s as [|x s IH]; [reflexivity|].
  simpl. rewrite filter_app, length_app, IH. simpl.
  destruct (negb (is_space x)); simpl; lia.
Qed.

Lemma visible_drop_spaces (s : text) : visible (drop_while is_space s) = visible s.
Proof.
  unfold visible. induction s as [|x s IH]; [reflexivity|].
  simpl. destruct (is_space x) eqn:Hx; simpl; [exact IH|].
  now rewrite Hx.
Qed.

Lemma visible_rstrip (s : text) : visible (rstrip s) = visible s.
Proof.
  unfold rstrip. now rewrite visible_rev, visible_drop_spaces, visible_rev.
Qed.

Lemma drop_while_split (p : char -> bool) (s : text) :
  exists ws, s = ws ++ drop_while p s /\ forallb p ws = true.
Proof.
  induction s as [|x s (ws & Hs & Hws)].
  - now exists [].
  - simpl. destruct (p x) eqn:Hx.
    + exists (x :: ws). simpl. rewrite Hx, Hws. split; [now f_equal|reflexivity].
    + now exists [].
Qed.

(** [rstrip] removes a run of white space from the end. *)
Lemma rstrip_split (s : text) :
  exists ws, s = rstrip s ++ ws /\ forallb is_space ws = true.
Proof.
  unfold rstrip. destruct (drop_while_split is_space (rev s)) as (ws & Hs & Hws).
  exists (rev ws). split.
  - rewrite <- rev_app_distr, <- Hs. now rewrite rev_involutive.
  - rewrite forallb_forall in *. intros x Hx. apply Hws. now apply in_rev.
Qed.

(** Characters that are not white space survive [rstrip] in order. *)
Lemma filter_rstrip (q : char -> bool) (s : text) :
  (forall c, q c = true -> is_space c = false) ->
  filter q (rstrip s) = filter q s.
Proof.
  intros Hq. destruct (rstrip_split s) as (ws & Hs & Hws).
  rewrite Hs at 2. rewrite filter_app.
  assert (Hnil : filter q ws = []).
  { clear Hs. induction ws as [|x ws IH]; [reflexivity|].
    simpl in *. apply andb_true_iff in Hws as [Hx Hws].
    destruct (q x) eqn:Hqx; [|now apply IH].
    apply Hq in Hqx. congruence. }
  now rewrite Hnil, app_nil_r.
Qed.

(* ================================================================== *)
(** * The steps, one at a time *)
(* ================================================================== *)

Lemma length_splice (content : text) (pos : nat) (entries : text) :
  length (splice content pos entries) = length content + length entries.
Proof.
  unfold splice. rewrite !length_app.
  rewrite <- (firstn_skipn pos content) at 3. rewrite length_app. lia.
Qed.

Lemma visible_splice (content : text) (pos : nat) (entries : text) :
  visible (splice content pos entries) = visible content + visible entries.
Proof.
  unfold splice. rewrite !visible_app.
  rewrite <- (firstn_skipn pos content) at 3. rewrite visible_app. lia.
Qed.

Lemma filter_splice (q : char -> bool) (content : text) (pos : nat) (entries : text) :
  filter q (splice content pos entries)
  = filter q (firstn pos content) ++ filter q entries ++ filter q (skipn pos content).
Proof. unfold splice. now rewrite !filter_app. Qed.

Lemma add_build_files_insert (u : uuids) (content : text) :
  add_build_files u content = insert_step build_file_marker (build_entries u) content.
Proof. reflexivity. Qed.

Lemma add_file_refs_insert (u : uuids) (content : text) :
  add_file_refs u content = insert_step file_ref_marker (file_entries u) content.
Proof. reflexivity. Qed.

Lemma add_group_insert (u : uuids) (content : text) :
  add_group u content = insert_step group_marker (group_entry u) content.
Proof. reflexivity. Qed.

Lemma link_group_listing (u : uuids) (content : text) :
  link_group u content = link_listing features_header children_key (new_child u) content.
Proof. reflexivity. Qed.

Lemma link_sources_listing (u : uuids) (content : text) :
  link_sources u content = link_listing sources_header files_key (new_source_files u) content.
Proof. reflexivity. Qed.

Lemma insert_step_visible (marker entries content : text) :
  visible content <= visible (insert_step marker entries content).
Proof.
  unfold insert_step. destruct (re_search (lits marker) content); [|lia].
  rewrite visible_splice. lia.
Qed.

Lemma insert_step_fixed (marker entries content : text) :
  entries <> [] ->
  insert_step marker entries content = content
  <-> re_search (lits marker) content = None.
Proof.
  intros Hne. unfold insert_step.
  destruct (re_search (lits marker) content) as [m|].
  - split; [|discriminate]. intros H.
    apply (f_equal (@length char)) in H. rewrite length_splice in H.
    destruct entries; [contradiction|]. simpl in H. lia.
  - tauto.
Qed.

Section LinkFacts.
Variables header key appended : text.

Lemma link_listing_absent (content : text) :
  re_search (listing_re header key) content = None ->
  link_listing header key appended content = content.
Proof. unfold link_listing. now intros ->. Qed.

(** With the anchor, the step replaces the text of the matched listing,
    wherever that text occurs. *)
Lemma link_listing_found (content : text) (m1 : match_obj) :
  re_search (listing_re header key) content = Some m1 ->
  exists a uuid body listing rest,
    content = a ++ uuid ++ header ++ body ++ key ++ listing ++ str ");" ++ rest
    /\ length uuid = 24 /\ forallb is_upper_hex uuid = true
    /\ body <> [] /\ forallb not_rbrace body = true
    /\ listing <> [] /\ forallb not_rparen listing = true
    /\ matched_listing header key content
       = Some (length (a ++ uuid ++ header ++ body ++ key), listing)
    /\ link_listing header key appended content
       = replace content listing (rstrip listing ++ appended).
Proof.
  intros H1.
  destruct (matched_listing_found header key content m1 H1)
    as (m2 & a & uuid & body & listing & rest & H2 & Hg1 & Hc & Hlen & Hhex
        & Hb & Hb' & Hl & Hl' & _ & _ & Hsp & Hg2).
  exists a, uuid, body, listing, rest.
  split; [exact Hc|]. split; [exact Hlen|]. split; [exact Hhex|].
  split; [exact Hb|]. split; [exact Hb'|]. split; [exact Hl|]. split; [exact Hl'|].
  split.
  - unfold matched_listing. rewrite H1, H2, Hsp.
    unfold group in Hg2. rewrite Hsp in Hg2. now rewrite Hg2.
  - unfold link_listing. rewrite H1, H2. now rewrite Hg2.
Qed.

Lemma matched_listing_absent (content : text) :
  re_search (listing_re header key) content = None ->
  matched_listing header key content = None.
Proof. unfold matched_listing. now intros ->. Qed.

Lemma link_listing_visible (content : text) :
  0 < visible appended ->
  visible content <= visible (link_listing header key appended content)
  /\ (re_search (listing_re header key) content <> None ->
      visible content < visible (link_listing header key appended content)).
Proof.
  intros Hv.
  destruct (re_search (listing_re header key) content) as [m1|] eqn:H1.
  - destruct (link_listing_found content m1 H1)
      as (a & uuid & body & listing & rest & Hc & _ & _ & _ & _ & Hl & _ & _ & Hlink).
    rewrite Hlink.
    assert (Hocc : occurs listing content).
    { exists (a ++ uuid ++ header ++ body ++ key), (str ");" ++ rest).
      rewrite Hc at 1. now rewrite <- !app_assoc. }
    destruct (replace_visible content listing (rstrip listing ++ appended) Hl) as [Hle Hlt].
    + rewrite visible_app, visible_rstrip. lia.
    + split; [exact Hle|]. intros _. now apply Hlt.
  - rewrite link_listing_absent by assumption. split; [lia|]. congruence.
Qed.

Lemma link_listing_fixed (content : text) :
  0 < visible appended ->
  link_listing header key appended content = content
  <-> re_search (listing_re header key) content = None.
Proof.
  intros Hv. split.
  - intros Hfix.
    destruct (re_search (listing_re header key) content) as [m1|] eqn:H1;
      [|reflexivity].
    destruct (link_listing_visible content Hv) as [_ Hlt].
    rewrite H1 in Hlt. specialize (Hlt ltac:(discriminate)).
    rewrite Hfix in Hlt. lia.
  - apply link_listing_absent.
Qed.
End LinkFacts.

(** The inserted texts are never empty and the appended ones are
    visible. *)
Lemma build_entries_nonempty (u : uuids) : build_entries u <> [].
Proof. discriminate. Qed.

Lemma file_entries_nonempty (u : uuids) : file_entries u <> [].
Proof. discriminate. Qed.

Lemma group_entry_nonempty (u : uuids) : group_entry u <> [].
Proof. discriminate. Qed.

Lemma visible_new_child (u : uuids) : 0 < visible (new_child u).
Proof.
  unfold new_child. rewrite !visible_app.
  assert (0 < visible (str " /* AudioProcessorTest */,")) by (vm_compute; lia).
  lia.
Qed.

Lemma visible_new_source_files (u : uuids) : 0 < visible (new_source_files u).
Proof.
  unfold new_source_files. rewrite !visible_app.
  assert (0 < visible (str " /* AudioProcessorTestView.swift in Sources */,"))
    by (vm_compute; lia).
  lia.
Qed.
(* ================================================================== *)
(** * Identifiers *)
(* ================================================================== *)

Lemma length_hex_of (w : nat) (n : N) : length (hex_of w n) = w.
Proof.
  revert n; induction w as [|w IH]; intros n; [reflexivity|].
  simpl. rewrite length_app, IH. simpl. lia.
Qed.

Lemma below_16 (d : N) :
  (d < 16)%N ->
  In d [0; 1; 2; 3; 4; 5; 6; 7; 8; 9; 10; 11; 12; 13; 14; 15]%N.
Proof.
  intros H. destruct d as [|p]; [now left|].
  do 4 (destruct p as [p|p|]; try (exfalso; lia); try (simpl; tauto)).
Qed.

Lemma upper_hex_digit (d : N) :
  (d < 16)%N -> is_upper_hex (upper_char (hex_digit d)) = true.
Proof.
  intros H. apply below_16 in H. simpl in H.
  repeat (destruct H as [<-|H]; [reflexivity|]). contradiction.
Qed.

Lemma upper_hex_digit_inj (d e : N) :
  (d < 16)%N -> (e < 16)%N ->
  upper_char (hex_digit d) = upper_char (hex_digit e) -> d = e.
Proof.
  intros Hd He. apply below_16 in Hd, He. simpl in Hd, He.
  repeat (destruct Hd as [<-|Hd]; [
    repeat (destruct He as [<-|He]; [intros H; first [reflexivity|discriminate H]|]);
    contradiction|]).
  contradiction.
Qed.

Lemma mod16_lt (n : N) : (n mod 16 < 16)%N.
Proof. apply N.mod_upper_bound. discriminate. Qed.

Lemma hex_of_upper_hex (w : nat) (n : N) :
  forallb is_upper_hex (upper (hex_of w n)) = true.
Proof.
  revert n; induction w as [|w IH]; intros n; [reflexivity|].
  simpl. unfold upper in *. rewrite map_app, forallb_app, IH. simpl.
  now rewrite upper_hex_digit by apply mod16_lt.
Qed.

Lemma forallb_firstn (A : Type) (p : A -> bool) (k : nat) (s : list A) :
  forallb p s = true -> forallb p (firstn k s) = true.
Proof.
  revert k; induction s as [|x s IH]; intros k H.
  - now rewrite firstn_nil.
  - destruct k; [reflexivity|]. simpl in *.
    apply andb_true_iff in H as [Hx Hs]. now rewrite Hx, IH.
Qed.

(** Every identifier the script generates has the format. *)
Lemma xcode_uuid_of_format (r : N) : is_xcode_uuid (xcode_uuid_of r).
Proof.
  unfold is_xcode_uuid, xcode_uuid_of, uuid_hex. split.
  - rewrite length_firstn. unfold upper. rewrite length_map, length_hex_of. reflexivity.
  - apply forallb_firstn, hex_of_upper_hex.
Qed.

Lemma run_uuids_valid (w : world) : valid_uuids (run_uuids w).
Proof.
  unfold valid_uuids, uuid_list, run_uuids. cbn.
  repeat constructor; apply xcode_uuid_of_format.
Qed.

(** The digits of a number split into the leading and the trailing ones. *)
Lemma hex_of_split (w k : nat) (n : N) :
  hex_of (k + w) n = hex_of w (n / 16 ^ N.of_nat k)%N ++ hex_of k n.
Proof.
  revert n; induction k as [|k IH]; intros n.
  - cbn [Nat.add N.of_nat hex_of]. rewrite N.pow_0_r, N.div_1_r. now rewrite app_nil_r.
  - cbn [Nat.add hex_of]. rewrite IH, <- app_assoc. f_equal.
    rewrite Nat2N.inj_succ, N.pow_succ_r'.
    now rewrite N.Div0.div_div.
Qed.

Lemma hex_of_inj (w : nat) (a b : N) :
  upper (hex_of w a) = upper (hex_of w b) ->
  (a mod 16 ^ N.of_nat w = b mod 16 ^ N.of_nat w)%N.
Proof.
  revert a b; induction w as [|w IH]; intros a b H.
  - cbn [N.of_nat]. now rewrite N.pow_0_r, !N.mod_1_r.
  - cbn [hex_of] in H. unfold upper in H. rewrite !map_app in H.
    apply app_inj_tail in H as [Hhi Hlo].
    apply upper_hex_digit_inj in Hlo; try apply mod16_lt.
    apply IH in Hhi.
    rewrite Nat2N.inj_succ, N.pow_succ_r'.
    rewrite !N.Div0.mod_mul_r. now rewrite Hlo, Hhi.
Qed.

(** A version-4 UUID made from 128 bits has 128 bits. *)
Lemma uuid4_int_bound (r : N) : (r < 2 ^ 128)%N -> (uuid4_int r < 2 ^ 128)%N.
Proof.
  intros Hr.
  assert (Hmod : (uuid4_int r mod 2 ^ 128 = uuid4_int r)%N).
  { apply N.bits_inj. intros m.
    destruct (N.lt_ge_cases m 128) as [Hm|Hm].
    - now rewrite N.mod_pow2_bits_low.
    - rewrite N.mod_pow2_bits_high by assumption. symmetry.
      unfold uuid4_int.
      rewrite N.lor_spec, N.ldiff_spec, N.lor_spec, N.ldiff_spec.
      rewrite !N.shiftl_spec_high' by lia.
      assert (Hrm : N.testbit r m = false).
      { rewrite <- (N.mod_small r (2 ^ 128)) by assumption.
        now apply N.mod_pow2_bits_high. }
      rewrite Hrm.
      assert (Hsmall : forall a k, (a < 2 ^ 16)%N -> (16 <= k)%N -> N.testbit a k = false).
      { intros a k Ha Hk. rewrite <- (N.mod_small a (2 ^ 16)) by assumption.
        now apply N.mod_pow2_bits_high. }
      rewrite (Hsmall 32768%N) by (try reflexivity; lia).
      rewrite (Hsmall 4%N) by (try reflexivity; lia).
      reflexivity. }
  rewrite <- Hmod. apply N.mod_upper_bound. discriminate.
Qed.

Lemma leading_bits_bound (r : N) :
  (r < 2 ^ 128)%N -> (leading_bits r < 16 ^ 24)%N.
Proof.
  intros Hr. unfold leading_bits. rewrite N.shiftr_div_pow2.
  apply N.Div0.div_lt_upper_bound.
  apply uuid4_int_bound in Hr. exact Hr.
Qed.

(** The identifier is the leading 96 bits of the UUID, in 24 digits. *)
Lemma xcode_uuid_of_leading (r : N) :
  xcode_uuid_of r = upper (hex_of 24 (leading_bits r)).
Proof.
  unfold xcode_uuid_of, uuid_hex, leading_bits.
  change 32 with (8 + 24). rewrite hex_of_split.
  unfold upper. rewrite map_app.
  rewrite <- (length_hex_of 24 (uuid4_int r / 16 ^ N.of_nat 8)) at 1.
  rewrite <- (length_map upper_char). rewrite firstn_app_exact.
  now rewrite N.shiftr_div_pow2.
Qed.

(** Two draws give the same identifier exactly when their UUIDs agree on
    the leading 96 bits. *)
Lemma xcode_uuid_of_eq (r1 r2 : N) :
  (r1 < 2 ^ 128)%N -> (r2 < 2 ^ 128)%N ->
  xcode_uuid_of r1 = xcode_uuid_of r2 <-> leading_bits r1 = leading_bits r2.
Proof.
  intros H1 H2. rewrite !xcode_uuid_of_leading. split.
  - intros H. apply hex_of_inj in H.
    rewrite !N.mod_small in H; auto using leading_bits_bound.
  - now intros ->.
Qed.

Lemma draw_bound (w : world) (k : nat) : (draw w k < 2 ^ 128)%N.
Proof. unfold draw. apply N.mod_upper_bound. discriminate. Qed.
(* ================================================================== *)
(** * Bracket balance *)
(* ================================================================== *)

Lemma nesting_app (st : list char) (a b : text) :
  nesting st (a ++ b) =
  match nesting st a with
  | Some st' => nesting st' b
  | None => None
  end.
Proof.
  revert st; induction a as [|c a IH]; intros st; [reflexivity|].
  cbn [app nesting].
  destruct ((c =? 40) || (c =? 123))%N; [apply IH|].
  destruct (c =? 41)%N.
  { destruct st as [|o st]; [reflexivity|]. destruct (o =? 40)%N; [apply IH|reflexivity]. }
  destruct (c =? 125)%N.
  { destruct st as [|o st]; [reflexivity|]. destruct (o =? 123)%N; [apply IH|reflexivity]. }
  apply IH.
Qed.

(** Brackets open below the ones a text uses do not matter to it. *)
Lemma nesting_frame (base st st' : list char) (s : text) :
  nesting st s = Some st' -> nesting (st ++ base) s = Some (st' ++ base).
Proof.
  revert st; induction s as [|c s IH]; intros st H.
  - simpl in *. now injection H as ->.
  - cbn [nesting] in *.
    destruct ((c =? 40) || (c =? 123))%N; [exact (IH (c :: st) H)|].
    destruct (c =? 41)%N.
    { destruct st as [|o st]; [discriminate|]. cbn [app].
      destruct (o =? 40)%N; [now apply IH|discriminate]. }
    destruct (c =? 125)%N.
    { destruct st as [|o st]; [discriminate|]. cbn [app].
      destruct (o =? 123)%N; [now apply IH|discriminate]. }
    now apply IH.
Qed.

Lemma nesting_balanced (st : list char) (s : text) :
  balanced s = true -> nesting st s = Some st.
Proof.
  unfold balanced. intros H.
  destruct (nesting [] s) as [[|o r]|] eqn:Hn; try discriminate.
  exact (nesting_frame st [] [] s Hn).
Qed.

(** Only the brackets of a text count. *)
Lemma nesting_filter (st : list char) (s : text) :
  nesting st (filter is_bracket s) = nesting st s.
Proof.
  revert st; induction s as [|c s IH]; intros st; [reflexivity|].
  cbn [filter nesting]. unfold is_bracket.
  destruct (c =? 40)%N eqn:H40.
  { cbn [orb nesting]. rewrite H40. cbn [orb]. apply IH. }
  destruct (c =? 41)%N eqn:H41.
  { cbn [orb nesting]. rewrite H40, H41.
    destruct (c =? 123)%N eqn:H123; cbn [orb]; [apply IH|].
    destruct st as [|o st]; [reflexivity|]. destruct (o =? 40)%N; [apply IH|reflexivity]. }
  destruct (c =? 123)%N eqn:H123.
  { cbn [orb nesting]. rewrite H40, H123. cbn [orb]. apply IH. }
  destruct (c =? 125)%N eqn:H125.
  { cbn [orb nesting]. rewrite H40, H41, H123, H125. cbn [orb].
    destruct st as [|o st]; [reflexivity|]. destruct (o =? 123)%N; [apply IH|reflexivity]. }
  cbn [orb]. apply IH.
Qed.

Lemma balanced_filter (s t : text) :
  filter is_bracket s = filter is_bracket t -> balanced s = balanced t.
Proof.
  intros H. unfold balanced.
  now rewrite <- (nesting_filter [] s), <- (nesting_filter [] t), H.
Qed.

(** Inserting a balanced text anywhere keeps the balance as it was. *)
Lemma balanced_splice (content : text) (pos : nat) (entries : text) :
  balanced entries = true ->
  balanced (splice content pos entries) = balanced content.
Proof.
  intros Hb. unfold balanced, splice.
  rewrite <- (firstn_skipn pos content) at 3.
  rewrite (nesting_app [] (firstn pos content) (entries ++ skipn pos content)).
  rewrite (nesting_app [] (firstn pos content) (skipn pos content)).
  destruct (nesting [] (firstn pos content)) as [st|]; [|reflexivity].
  now rewrite nesting_app, (nesting_balanced st entries Hb).
Qed.

Lemma balanced_insert_step (marker entries content : text) :
  balanced entries = true ->
  balanced (insert_step marker entries content) = balanced content.
Proof.
  intros Hb. unfold insert_step.
  destruct (re_search (lits marker) content); [|reflexivity].
  now apply balanced_splice.
Qed.

Lemma is_bracket_not_space (c : char) : is_bracket c = true -> is_space c = false.
Proof.
  unfold is_bracket. intros H.
  repeat (apply orb_true_iff in H as [H|H]); apply N.eqb_eq in H; subst c; reflexivity.
Qed.

(** An append step keeps the brackets of the text, in order. *)
Lemma filter_link_listing (header key appended content : text) :
  filter is_bracket appended = [] ->
  filter is_bracket (link_listing header key appended content)
  = filter is_bracket content.
Proof.
  intros Happ.
  destruct (re_search (listing_re header key) content) as [m1|] eqn:H1.
  - destruct (link_listing_found header key appended content m1 H1)
      as (a & uuid & body & listing & rest & _ & _ & _ & _ & _ & Hl & _ & _ & Hlink).
    rewrite Hlink. apply replace_filter; [exact Hl|].
    rewrite filter_app, Happ, app_nil_r.
    apply filter_rstrip, is_bracket_not_space.
  - now rewrite link_listing_absent.
Qed.

Lemma balanced_link_listing (header key appended content : text) :
  filter is_bracket appended = [] ->
  balanced (link_listing header key appended content) = balanced content.
Proof. intros H. now apply balanced_filter, filter_link_listing. Qed.

Lemma filter_bracket_uuid (s : text) : is_xcode_uuid s -> filter is_bracket s = [].
Proof.
  intros [_ H]. induction s as [|c s IH]; [reflexivity|].
  simpl in *. apply andb_true_iff in H as [Hc Hs].
  rewrite IH by assumption.
  assert (Hb : is_bracket c = false).
  { unfold is_upper_hex in Hc. unfold is_bracket.
    repeat (apply orb_false_iff; split); apply N.eqb_neq; intros ->; discriminate. }
  now rewrite Hb.
Qed.

Section ValidUuids.
Variable u : uuids.
Hypothesis Hu : valid_uuids u.

Lemma valid_view_file_ref : is_xcode_uuid (view_file_ref_uuid u).
Proof. exact (Forall_inv Hu). Qed.

Lemma valid_viewmodel_file_ref : is_xcode_uuid (viewmodel_file_ref_uuid u).
Proof. exact (Forall_inv (Forall_inv_tail Hu)). Qed.

Lemma valid_view_build_file : is_xcode_uuid (view_build_file_uuid u).
Proof. exact (Forall_inv (Forall_inv_tail (Forall_inv_tail Hu))). Qed.

Lemma valid_viewmodel_build_file : is_xcode_uuid (viewmodel_build_file_uuid u).
Proof.
  exact (Forall_inv (Forall_inv_tail (Forall_inv_tail (Forall_inv_tail Hu)))).
Qed.

Lemma valid_group : is_xcode_uuid (group_uuid u).
Proof.
  exact (Forall_inv (Forall_inv_tail (Forall_inv_tail (Forall_inv_tail
           (Forall_inv_tail Hu))))).
Qed.

Ltac drop_uuids :=
  rewrite !filter_app;
  rewrite ?(filter_bracket_uuid _ valid_view_file_ref),
          ?(filter_bracket_uuid _ valid_viewmodel_file_ref),
          ?(filter_bracket_uuid _ valid_view_build_file),
          ?(filter_bracket_uuid _ valid_viewmodel_build_file),
          ?(filter_bracket_uuid _ valid_group).

Lemma brackets_build_entries : filter is_bracket (build_entries u) = str "{}{}".
Proof. unfold build_entries. drop_uuids. reflexivity. Qed.

Lemma brackets_file_entries : filter is_bracket (file_entries u) = str "{}{}".
Proof. unfold file_entries. drop_uuids. reflexivity. Qed.

Lemma brackets_group_entry : filter is_bracket (group_entry u) = str "{()}".
Proof. unfold group_entry. drop_uuids. reflexivity. Qed.

Lemma balanced_build_entries : balanced (build_entries u) = true.
Proof.
  now rewrite (balanced_filter (build_entries u) (str "{}{}") brackets_build_entries).
Qed.

Lemma balanced_file_entries : balanced (file_entries u) = true.
Proof.
  now rewrite (balanced_filter (file_entries u) (str "{}{}") brackets_file_entries).
Qed.

Lemma balanced_group_entry : balanced (group_entry u) = true.
Proof.
  now rewrite (balanced_filter (group_entry u) (str "{()}") brackets_group_entry).
Qed.

Lemma brackets_new_child : filter is_bracket (new_child u) = [].
Proof. unfold new_child. drop_uuids. reflexivity. Qed.

Lemma brackets_new_source_files : filter is_bracket (new_source_files u) = [].
Proof. unfold new_source_files. drop_uuids. reflexivity. Qed.

(** The whole patch keeps the balance of the text. *)
Lemma balanced_patch (content : text) :
  balanced (patch u content) = balanced content.
Proof.
  unfold patch.
  rewrite link_sources_listing, balanced_link_listing
    by apply brackets_new_source_files.
  rewrite add_group_insert, balanced_insert_step by apply balanced_group_entry.
  rewrite link_group_listing, balanced_link_listing by apply brackets_new_child.
  rewrite add_file_refs_insert, balanced_insert_step by apply balanced_file_entries.
  rewrite add_build_files_insert, balanced_insert_step by apply balanced_build_entries.
  reflexivity.
Qed.
End ValidUuids.
(* ================================================================== *)
(** * [replace] rewrites every occurrence the scan meets *)
(* ================================================================== *)

Lemma pieces_from_skip (old : text) (skip : nat) (s : text) :
  pieces_from old skip s = pieces_from old 0 (skipn skip s).
Proof.
  revert skip; induction s as [|x s IH]; intros skip.
  - destruct skip; reflexivity.
  - destruct skip as [|k]; [reflexivity|]. cbn [pieces_from skipn]. apply IH.
Qed.

Lemma pieces_here (old b : text) :
  old <> [] -> pieces (old ++ b) old = [] :: pieces b old.
Proof.
  destruct old as [|x old]; [contradiction|]; intros _.
  unfold pieces. cbn [app pieces_from].
  change (x :: old ++ b) with ((x :: old) ++ b). rewrite starts_with_app.
  rewrite pieces_from_skip.
  replace (length (x :: old) - 1) with (length old) by (simpl; lia).
  now rewrite skipn_app_exact.
Qed.

Lemma pieces_nonempty (old : text) (skip : nat) (s : text) :
  pieces_from old skip s <> [].
Proof.
  revert skip; induction s as [|x s IH]; intros skip; [discriminate|].
  cbn [pieces_from]. destruct skip; [|apply IH].
  destruct (starts_with old (x :: s)); [discriminate|].
  destruct (pieces_from old 0 s); discriminate.
Qed.

Lemma join_cons_head (sep : text) (x : char) (p : text) (ps : list text) :
  join sep ((x :: p) :: ps) = x :: join sep (p :: ps).
Proof. destruct ps; reflexivity. Qed.

Lemma join_nil_head (sep : text) (ps : list text) :
  ps <> [] -> join sep ([] :: ps) = sep ++ join sep ps.
Proof. destruct ps; [contradiction|reflexivity]. Qed.

(** Gluing the pieces with [new] instead of [old] is [replace]. *)
Lemma join_pieces (s old new : text) :
  old <> [] -> join new (pieces s old) = replace s old new.
Proof.
  intros Hold.
  remember (length s) as n eqn:Hn. revert s Hn.
  induction n as [n IH] using lt_wf_ind. intros s Hn.
  destruct s as [|x s].
  - now rewrite replace_nil.
  - destruct (starts_with old (x :: s)) eqn:Hsw.
    + apply starts_with_split in Hsw. rewrite Hsw.
      rewrite replace_here, pieces_here by assumption.
      rewrite join_nil_head by apply pieces_nonempty. f_equal.
      apply (IH (length (skipn (length old) (x :: s)))); [|reflexivity].
      subst n. rewrite length_skipn. destruct old; [contradiction|]. simpl. lia.
    + rewrite replace_step by assumption.
      unfold pieces. cbn [pieces_from]. rewrite Hsw.
      assert (Hrec := IH (length s) ltac:(subst n; simpl; lia) s eq_refl).
      unfold pieces in Hrec.
      destruct (pieces_from old 0 s) as [|p ps] eqn:Hp.
      * now elim (pieces_nonempty old 0 s).
      * rewrite join_cons_head. now f_equal.
Qed.

Lemma replace_same (s old : text) : old <> [] -> replace s old old = s.
Proof.
  intros Hold. apply replace_ind with (P := fun s r => r = s); auto.
  - now intros b r ->.
  - now intros x t r _ ->.
Qed.

(** The text is its pieces glued with [old]. *)
Lemma join_pieces_self (s old : text) : old <> [] -> join old (pieces s old) = s.
Proof. intros Hold. rewrite join_pieces by assumption. now apply replace_same. Qed.

Lemma visible_join (sep : text) (ps : list text) :
  visible (join sep ps) + visible sep
  = fold_right (fun p n => visible p + visible sep + n) 0 ps
    + (match ps with [] => visible sep | _ => 0 end).
Proof.
  induction ps as [|p ps IH]; [reflexivity|].
  destruct ps as [|q ps].
  - simpl. lia.
  - change (join sep (p :: q :: ps)) with (p ++ sep ++ join sep (q :: ps)).
    rewrite !visible_app. cbn [fold_right] in *. lia.
Qed.

Lemma fold_visible_sep (sep sep' : text) (ps : list text) :
  fold_right (fun p n => visible p + visible sep' + n) 0 ps + length ps * visible sep
  = fold_right (fun p n => visible p + visible sep + n) 0 ps + length ps * visible sep'.
Proof. induction ps as [|p ps IH]; simpl; lia. Qed.

(** Each occurrence the scan meets brings in the visible characters the
    replacement adds. *)
Lemma visible_replace_pieces (s old new : text) :
  old <> [] ->
  visible (replace s old new) + (length (pieces s old) - 1) * visible old
  = visible s + (length (pieces s old) - 1) * visible new.
Proof.
  intros Hold.
  rewrite <- (join_pieces s old new Hold).
  rewrite <- (join_pieces_self s old Hold) at 3.
  assert (H1 := visible_join new (pieces s old)).
  assert (H2 := visible_join old (pieces s old)).
  assert (H3 := fold_visible_sep old new (pieces s old)).
  destruct (pieces s old) as [|p ps] eqn:Hp.
  - now elim (pieces_nonempty old 0 s).
  - cbn [length] in *. rewrite Nat.sub_succ, Nat.sub_0_r. lia.
Qed.
(* ================================================================== *)
(** * The edits of one run *)
(* ================================================================== *)

Lemma cross_referenced_always (u : uuids) : cross_referenced u.
Proof.
  unfold cross_referenced, build_entries, file_entries, group_entry, new_child,
    new_source_files, build_file_line, file_ref_line, group_record, member_line.
  destruct u as [f1 f2 b1 b2 g].
  cbn [view_file_ref_uuid viewmodel_file_ref_uuid view_build_file_uuid
       viewmodel_build_file_uuid group_uuid flat_map fst snd].
  repeat split; rewrite <- ?app_assoc; reflexivity.
Qed.

Lemma insert_step_inserted (marker entries content : text) :
  re_search (lits marker) content <> None ->
  inserted_after marker entries content (insert_step marker entries content).
Proof.
  intros Hfound. unfold insert_step. rewrite search_marker in *.
  destruct (find marker content) as [i|] eqn:Hfind; [|now elim Hfound].
  destruct (find_sound marker content i Hfind) as (a & b & Hc & Hi).
  exists a, b. split; [exact Hc|]. split; [now rewrite Hfind, Hi|].
  cbn [option_map m_end]. subst i.
  rewrite Hc at 1. rewrite app_assoc.
  replace (length marker + length a) with (length (a ++ marker))
    by (rewrite length_app; lia).
  rewrite splice_app. now rewrite <- app_assoc.
Qed.

Lemma link_listing_appended (header key appended content : text)
      (pos : nat) (listing : text) :
  matched_listing header key content = Some (pos, listing) ->
  positions listing content = [pos] ->
  appended_to header key appended content (link_listing header key appended content).
Proof.
  intros Hm Hpos.
  destruct (re_search (listing_re header key) content) as [m1|] eqn:H1.
  2:{ rewrite matched_listing_absent in Hm by assumption. discriminate. }
  destruct (matched_listing_found header key content m1 H1)
    as (m2 & a & uuid & body & lst & rest & H2 & Hg1 & Hc & Hlen & Hhex
        & Hb & Hb' & Hl & Hl' & Hs1 & _ & Hsp & Hg2).
  assert (Hlst : lst = listing /\ length (a ++ uuid ++ header ++ body ++ key) = pos).
  { unfold matched_listing in Hm. rewrite H1, H2, Hsp in Hm.
    unfold group in Hg2. rewrite Hsp in Hg2. rewrite Hg2 in Hm.
    injection Hm as Hp Hlst. now split. }
  destruct Hlst as [-> Hp].
  exists a, uuid, body, listing, rest.
  split; [exact Hc|]. split; [now split|].
  split; [exact Hb|]. split; [exact Hb'|]. split; [exact Hl|]. split; [exact Hl'|].
  split; [rewrite H1; cbn [option_map]; now rewrite Hs1|].
  unfold link_listing. rewrite H1, H2, Hg2.
  assert (Hc' : content = (a ++ uuid ++ header ++ body ++ key)
                          ++ listing ++ (str ");" ++ rest))
    by (rewrite Hc at 1; now rewrite <- !app_assoc).
  rewrite Hc' at 1. rewrite replace_once.
  - now rewrite <- !app_assoc.
  - exact Hl.
  - apply positions_single with (i := pos). now rewrite <- Hc'.
Qed.

Lemma inserted_after_visible (marker entries before after : text) :
  inserted_after marker entries before after ->
  visible after = visible before + visible entries.
Proof.
  intros (a & b & -> & _ & ->). rewrite !visible_app. lia.
Qed.

Lemma appended_to_visible (header key appended before after : text) :
  appended_to header key appended before after ->
  visible after = visible before + visible appended.
Proof.
  intros (a & uuid & body & listing & rest & -> & _ & _ & _ & _ & _ & _ & ->).
  rewrite !visible_app, visible_rstrip. lia.
Qed.

(** The five edits add the visible characters of the five inserted texts
    and no others. *)
Lemma single_run_edits_visible (u : uuids) (content written : text) :
  single_run_edits u content written ->
  visible written
  = visible content + visible (build_entries u) + visible (file_entries u)
    + visible (new_child u) + visible (group_entry u) + visible (new_source_files u).
Proof.
  intros (c1 & c2 & c3 & c4 & H1 & H2 & H3 & H4 & H5).
  apply inserted_after_visible in H1, H2, H4.
  apply appended_to_visible in H3, H5. lia.
Qed.

(** With every anchor found and every matched listing text unique, the
    patch is the five edits. *)
Lemma listing_found_once_spec (header key content : text) :
  listing_found_once header key content = true <->
  exists pos listing,
    matched_listing header key content = Some (pos, listing)
    /\ positions listing content = [pos].
Proof.
  unfold listing_found_once. split.
  - destruct (matched_listing header key content) as [[pos listing]|]; [|discriminate].
    destruct (positions listing content) as [|p [|q l]] eqn:Hpos; try discriminate.
    intros H. apply Nat.eqb_eq in H. subst p. exists pos, listing. now split.
  - intros (pos & listing & -> & ->). apply Nat.eqb_refl.
Qed.

Lemma patch_single_run (u : uuids) (content : text) :
  anchors_found_once u content -> single_run_edits u content (patch u content).
Proof.
  intros (H1 & H2 & H3 & H4 & H5).
  apply listing_found_once_spec in H3 as (p3 & l3 & H3 & H3').
  apply listing_found_once_spec in H5 as (p5 & l5 & H5 & H5').
  exists (add_build_files u content),
         (add_file_refs u (add_build_files u content)),
         (link_group u (add_file_refs u (add_build_files u content))),
         (add_group u (link_group u (add_file_refs u (add_build_files u content)))).
  split; [|split; [|split; [|split]]].
  - rewrite add_build_files_insert. now apply insert_step_inserted.
  - rewrite (add_file_refs_insert u). now apply insert_step_inserted.
  - rewrite (link_group_listing u).
    now apply link_listing_appended with (pos := p3) (listing := l3).
  - rewrite (add_group_insert u). now apply insert_step_inserted.
  - unfold patch. rewrite (link_sources_listing u).
    now apply link_listing_appended with (pos := p5) (listing := l5).
Qed.

Lemma visible_build_entries (u : uuids) : 0 < visible (build_entries u).
Proof.
  unfold build_entries. rewrite !visible_app.
  assert (0 < visible (str " /* AudioProcessorTestViewModel.swift */; };"))
    by (vm_compute; lia).
  lia.
Qed.

(** No step removes a visible character, and the first adds some when it
    finds its marker. *)
Lemma patch_visible (u : uuids) (content : text) :
  visible content <= visible (patch u content)
  /\ (re_search (lits build_file_marker) content <> None ->
      visible content < visible (patch u content)).
Proof.
  unfold patch.
  assert (H5 := link_listing_visible sources_header files_key (new_source_files u)
                  (add_group u (link_group u (add_file_refs u (add_build_files u content))))
                  (visible_new_source_files u)).
  rewrite <- link_sources_listing in H5. destruct H5 as [H5 _].
  assert (H4 := insert_step_visible group_marker (group_entry u)
                  (link_group u (add_file_refs u (add_build_files u content)))).
  rewrite <- add_group_insert in H4.
  assert (H3 := link_listing_visible features_header children_key (new_child u)
                  (add_file_refs u (add_build_files u content)) (visible_new_child u)).
  rewrite <- link_group_listing in H3. destruct H3 as [H3 _].
  assert (H2 := insert_step_visible file_ref_marker (file_entries u)
                  (add_build_files u content)).
  rewrite <- add_file_refs_insert in H2.
  assert (H1 := insert_step_visible build_file_marker (build_entries u) content).
  rewrite <- add_build_files_insert in H1.
  split; [lia|]. intros Hfound.
  assert (H1' : visible content < visible (add_build_files u content)).
  { unfold add_build_files.
    destruct (re_search (lits build_file_marker) content); [|now elim Hfound].
    rewrite visible_splice. generalize (visible_build_entries u). lia. }
  lia.
Qed.

Lemma inserted_after_unique (marker entries before after : text) :
  inserted_after marker entries before after ->
  re_search (lits marker) before <> None
  /\ after = insert_step marker entries before.
Proof.
  intros (a & b & Hb & Hfind & Ha).
  assert (Hfound : re_search (lits marker) before <> None).
  { rewrite search_marker, Hfind. discriminate. }
  split; [exact Hfound|].
  destruct (insert_step_inserted marker entries before Hfound)
    as (a' & b' & Hb' & Hfind' & Ha').
  rewrite Hfind in Hfind'. injection Hfind' as Hlen.
  rewrite Hb in Hb'. apply app_eq_length in Hb' as [<- Hb']; [|exact Hlen].
  apply app_inv_head in Hb'. subst b'. congruence.
Qed.

Lemma no_features_edits_visible (u : uuids) (content written : text) :
  no_features_edits u content written ->
  visible written
  <= visible content + visible (build_entries u) + visible (file_entries u)
     + visible (group_entry u) + visible (new_source_files u).
Proof.
  intros (c1 & c2 & c4 & H1 & H2 & H4 & [->|H5]).
  - apply inserted_after_visible in H1, H2, H4. lia.
  - apply inserted_after_visible in H1, H2, H4.
    apply appended_to_visible in H5. lia.
Qed.
(* ================================================================== *)
(** * Encodings and line ends *)
(* ================================================================== *)

Ltac ndiv_lia := zify; Z.to_euclidean_division_equations; lia.

Ltac nbool :=
  repeat match goal with
  | H : (_ && _) = true |- _ => apply andb_true_iff in H; destruct H
  | H : negb _ = true |- _ => apply negb_true_iff in H
  | H : (_ <? _)%N = true |- _ => apply N.ltb_lt in H
  | H : (_ <? _)%N = false |- _ => apply N.ltb_ge in H
  | H : (_ <=? _)%N = true |- _ => apply N.leb_le in H
  | H : (_ <=? _)%N = false |- _ => apply N.leb_gt in H
  end.

Lemma is_cont_spec (b : byte) : is_cont b = true <-> (128 <= b < 192)%N.
Proof.
  unfold is_cont. rewrite andb_true_iff, N.leb_le, N.ltb_lt. tauto.
Qed.

Lemma utf8_decode_eq (b0 : byte) (r0 : bytes) :
  utf8_decode (b0 :: r0)
  = if (b0 <? 128)%N then option_map (cons b0) (utf8_decode r0)
    else
      match r0 with
      | [] => None
      | b1 :: r1 =>
          if ((194 <=? b0) && (b0 <? 224))%N then
            if is_cont b1
            then option_map (cons ((b0 - 192) * 64 + (b1 - 128))%N) (utf8_decode r1)
            else None
          else
            match r1 with
            | [] => None
            | b2 :: r2 =>
                if ((224 <=? b0) && (b0 <? 240))%N then
                  let c := ((b0 - 224) * 4096 + (b1 - 128) * 64 + (b2 - 128))%N in
                  if is_cont b1 && is_cont b2 && (2048 <=? c)%N
                     && negb ((55296 <=? c) && (c <? 57344))%N
                  then option_map (cons c) (utf8_decode r2)
                  else None
                else
                  match r2 with
                  | [] => None
                  | b3 :: r3 =>
                      if ((240 <=? b0) && (b0 <? 245))%N then
                        let c := ((b0 - 240) * 262144 + (b1 - 128) * 4096
                                  + (b2 - 128) * 64 + (b3 - 128))%N in
                        if is_cont b1 && is_cont b2 && is_cont b3
                           && (65536 <=? c)%N && (c <? 1114112)%N
                        then option_map (cons c) (utf8_decode r3)
                        else None
                      else None
                  end
            end
      end.
Proof. reflexivity. Qed.

(** Decoding the bytes of one character gives the character back. *)
Lemma utf8_decode_char (c : char) (bc rest : bytes) :
  utf8_encode_char c = Some bc ->
  utf8_decode (bc ++ rest) = option_map (cons c) (utf8_decode rest).
Proof.
  unfold utf8_encode_char. intros H.
  destruct (c <? 128)%N eqn:H1.
  { apply Some_inj in H. subst bc. cbn [app]. rewrite utf8_decode_eq, H1. reflexivity. }
  destruct (c <? 2048)%N eqn:H2.
  { apply Some_inj in H. subst bc. nbool. cbn [app].
    set (x0 := (192 + c / 64)%N). set (x1 := (128 + c mod 64)%N).
    rewrite utf8_decode_eq.
    replace (x0 <? 128)%N with false by (symmetry; apply N.ltb_ge; unfold x0; ndiv_lia).
    replace ((194 <=? x0) && (x0 <? 224))%N with true
      by (symmetry; apply andb_true_iff; rewrite N.leb_le, N.ltb_lt; unfold x0; ndiv_lia).
    replace (is_cont x1) with true
      by (symmetry; apply is_cont_spec; unfold x1; ndiv_lia).
    replace ((x0 - 192) * 64 + (x1 - 128))%N with c by (unfold x0, x1; ndiv_lia).
    reflexivity. }
  destruct (c <? 65536)%N eqn:H3.
  { destruct ((55296 <=? c) && (c <? 57344))%N eqn:H4; [discriminate|].
    apply Some_inj in H. subst bc. cbn [app].
    set (x0 := (224 + c / 4096)%N). set (x1 := (128 + (c / 64) mod 64)%N).
    set (x2 := (128 + c mod 64)%N).
    apply N.ltb_ge in H1, H2. apply N.ltb_lt in H3.
    rewrite utf8_decode_eq.
    replace (x0 <? 128)%N with false by (symmetry; apply N.ltb_ge; unfold x0; ndiv_lia).
    replace ((194 <=? x0) && (x0 <? 224))%N with false
      by (symmetry; apply andb_false_iff; right; apply N.ltb_ge; unfold x0; ndiv_lia).
    replace ((224 <=? x0) && (x0 <? 240))%N with true
      by (symmetry; apply andb_true_iff; rewrite N.leb_le, N.ltb_lt; unfold x0; ndiv_lia).
    cbv zeta.
    replace ((x0 - 224) * 4096 + (x1 - 128) * 64 + (x2 - 128))%N with c
      by (unfold x0, x1, x2; ndiv_lia).
    replace (is_cont x1) with true
      by (symmetry; apply is_cont_spec; unfold x1; ndiv_lia).
    replace (is_cont x2) with true
      by (symmetry; apply is_cont_spec; unfold x2; ndiv_lia).
    replace (2048 <=? c)%N with true by (symmetry; now apply N.leb_le).
    rewrite H4. reflexivity. }
  destruct (c <? 1114112)%N eqn:H4; [|discriminate].
  apply Some_inj in H. subst bc. cbn [app].
  set (x0 := (240 + c / 262144)%N). set (x1 := (128 + (c / 4096) mod 64)%N).
  set (x2 := (128 + (c / 64) mod 64)%N). set (x3 := (128 + c mod 64)%N).
  apply N.ltb_ge in H1, H2, H3.
  assert (H4' := H4). apply N.ltb_lt in H4'.
  rewrite utf8_decode_eq.
  replace (x0 <? 128)%N with false by (symmetry; apply N.ltb_ge; unfold x0; ndiv_lia).
  replace ((194 <=? x0) && (x0 <? 224))%N with false
    by (symmetry; apply andb_false_iff; right; apply N.ltb_ge; unfold x0; ndiv_lia).
  replace ((224 <=? x0) && (x0 <? 240))%N with false
    by (symmetry; apply andb_false_iff; right; apply N.ltb_ge; unfold x0; ndiv_lia).
  replace ((240 <=? x0) && (x0 <? 245))%N with true
    by (symmetry; apply andb_true_iff; rewrite N.leb_le, N.ltb_lt; unfold x0; ndiv_lia).
  cbv zeta.
  replace ((x0 - 240) * 262144 + (x1 - 128) * 4096 + (x2 - 128) * 64 + (x3 - 128))%N
    with c by (unfold x0, x1, x2, x3; ndiv_lia).
  replace (is_cont x1) with true
    by (symmetry; apply is_cont_spec; unfold x1; ndiv_lia).
  replace (is_cont x2) with true
    by (symmetry; apply is_cont_spec; unfold x2; ndiv_lia).
  replace (is_cont x3) with true
    by (symmetry; apply is_cont_spec; unfold x3; ndiv_lia).
  replace (65536 <=? c)%N with true by (symmetry; now apply N.leb_le).
  rewrite H4. reflexivity.
Qed.

Lemma encode_cons (e : encoding) (c : char) (s : text) :
  encode e (c :: s)
  = match encode_char e c, encode e s with
    | Some b, Some bs => Some (b ++ bs)
    | _, _ => None
    end.
Proof. reflexivity. Qed.

Lemma encode_app (e : encoding) (a b : text) :
  encode e (a ++ b)
  = match encode e a, encode e b with
    | Some x, Some y => Some (x ++ y)
    | _, _ => None
    end.
Proof.
  induction a as [|c a IH]; cbn [app].
  - cbn [encode]. now destruct (encode e b).
  - rewrite !encode_cons, IH.
    destruct (encode_char e c) as [bc|]; [|reflexivity].
    destruct (encode e a) as [x|]; [|reflexivity].
    destruct (encode e b) as [y|]; [|reflexivity].
    now rewrite app_assoc.
Qed.

(** Encoding succeeds exactly on the texts whose characters all have an
    encoding. *)
Lemma encode_some (e : encoding) (s : text) :
  encode e s <> None <-> forallb (encodable e) s = true.
Proof.
  induction s as [|c s IH]; [cbn; split; congruence|].
  rewrite encode_cons. cbn [forallb]. unfold encodable at 1.
  destruct (encode_char e c) as [bc|]; [|cbn; split; congruence].
  cbn [andb]. rewrite <- IH.
  destruct (encode e s); split; congruence.
Qed.

Lemma encode_char_ascii (e : encoding) (c : char) :
  is_ascii c = true -> encode_char e c = Some [c].
Proof.
  unfold is_ascii. intros H.
  destruct e; cbn [encode_char]; unfold utf8_encode_char; rewrite ?H; try reflexivity.
  apply N.ltb_lt in H.
  replace (c <? 256)%N with true by (symmetry; apply N.ltb_lt; lia). reflexivity.
Qed.

Lemma ascii_encodable (e : encoding) (c : char) :
  is_ascii c = true -> encodable e c = true.
Proof. intros H. unfold encodable. now rewrite encode_char_ascii. Qed.

(** Every encoding of the model agrees with ASCII on ASCII text. *)
Lemma encode_ascii (e : encoding) (s : text) :
  forallb is_ascii s = true -> encode e s = Some s.
Proof.
  induction s as [|c s IH]; [reflexivity|].
  cbn [forallb]. intros H. apply andb_true_iff in H as [Hc Hs].
  rewrite encode_cons, encode_char_ascii, IH by assumption. reflexivity.
Qed.

Lemma decode_bytewise_encode (e : encoding) (limit : N) (b : bytes) (t : text) :
  (forall c, (c <? limit)%N = true -> encode_char e c = Some [c]) ->
  decode_bytewise limit b = Some t -> encode e t = Some b.
Proof.
  intros He. revert t; induction b as [|x b IH]; intros t H.
  - cbn in H. apply Some_inj in H. now subst t.
  - cbn [decode_bytewise] in H. destruct (x <? limit)%N eqn:Hx; [|discriminate].
    destruct (decode_bytewise limit b) as [t'|]; [|discriminate].
    cbn [option_map] in H. apply Some_inj in H. subst t.
    rewrite encode_cons, (He x Hx), (IH t' eq_refl). reflexivity.
Qed.

Lemma encode_decode_bytewise (e : encoding) (limit : N) (t : text) (b : bytes) :
  (forall c bc, encode_char e c = Some bc -> bc = [c] /\ (c <? limit)%N = true) ->
  encode e t = Some b -> decode_bytewise limit b = Some t.
Proof.
  intros He. revert b; induction t as [|c t IH]; intros b H.
  - cbn in H. apply Some_inj in H. now subst b.
  - rewrite encode_cons in H.
    destruct (encode_char e c) as [bc|] eqn:Hc; [|discriminate].
    destruct (encode e t) as [bs|]; [|discriminate].
    apply Some_inj in H. subst b.
    destruct (He c bc Hc) as [-> Hlt].
    cbn [app decode_bytewise]. rewrite Hlt, (IH bs eq_refl). reflexivity.
Qed.

(** Strict UTF-8 is canonical: the bytes that decode are the encoding of
    what they decode to. *)
Lemma utf8_decode_encode (b : bytes) (t : text) :
  utf8_decode b = Some t -> encode UTF8 t = Some b.
Proof.
  remember (length b) as n eqn:Hn. revert b t Hn.
  induction n as [n IH] using lt_wf_ind. intros b t Hn H.
  destruct b as [|b0 r0].
  { cbn in H. apply Some_inj in H. now subst t. }
  rewrite utf8_decode_eq in H.
  destruct (b0 <? 128)%N eqn:H0.
  { destruct (utf8_decode r0) as [t'|] eqn:Hr; [|discriminate].
    cbn [option_map] in H. apply Some_inj in H. subst t.
    rewrite encode_cons. cbn [encode_char]. unfold utf8_encode_char. rewrite H0.
    rewrite (IH (length r0) ltac:(subst n; cbn; lia) r0 t' eq_refl Hr). reflexivity. }
  destruct r0 as [|b1 r1]; [discriminate|].
  destruct ((194 <=? b0) && (b0 <? 224))%N eqn:H2.
  { destruct (is_cont b1) eqn:Hc1; [|discriminate].
    destruct (utf8_decode r1) as [t'|] eqn:Hr; [|discriminate].
    cbn [option_map] in H. apply Some_inj in H. subst t.
    apply is_cont_spec in Hc1. nbool.
    set (c := ((b0 - 192) * 64 + (b1 - 128))%N).
    rewrite encode_cons. cbn [encode_char]. unfold utf8_encode_char.
    replace (c <? 128)%N with false by (symmetry; apply N.ltb_ge; unfold c; lia).
    replace (c <? 2048)%N with true by (symmetry; apply N.ltb_lt; unfold c; lia).
    rewrite (IH (length r1) ltac:(subst n; cbn; lia) r1 t' eq_refl Hr).
    replace (192 + c / 64)%N with b0 by (unfold c; ndiv_lia).
    replace (128 + c mod 64)%N with b1 by (unfold c; ndiv_lia).
    reflexivity. }
  destruct r1 as [|b2 r2]; [discriminate|].
  destruct ((224 <=? b0) && (b0 <? 240))%N eqn:H3.
  { cbv zeta in H.
    set (c := ((b0 - 224) * 4096 + (b1 - 128) * 64 + (b2 - 128))%N) in *.
    destruct (is_cont b1 && is_cont b2 && (2048 <=? c)%N
              && negb ((55296 <=? c) && (c <? 57344))%N) eqn:Hv; [|discriminate].
    destruct (utf8_decode r2) as [t'|] eqn:Hr; [|discriminate].
    cbn [option_map] in H. apply Some_inj in H. subst t.
    apply andb_true_iff in Hv as [Hv Hsur].
    apply andb_true_iff in Hv as [Hv Hlow].
    apply andb_true_iff in Hv as [Hc1 Hc2].
    apply is_cont_spec in Hc1, Hc2. apply negb_true_iff in Hsur. nbool.
    rewrite encode_cons. cbn [encode_char]. unfold utf8_encode_char.
    replace (c <? 128)%N with false by (symmetry; apply N.ltb_ge; lia).
    replace (c <? 2048)%N with false by (symmetry; apply N.ltb_ge; lia).
    replace (c <? 65536)%N with true by (symmetry; apply N.ltb_lt; unfold c; lia).
    rewrite Hsur.
    rewrite (IH (length r2) ltac:(subst n; cbn; lia) r2 t' eq_refl Hr).
    replace (224 + c / 4096)%N with b0 by (unfold c; ndiv_lia).
    replace (128 + (c / 64) mod 64)%N with b1 by (unfold c; ndiv_lia).
    replace (128 + c mod 64)%N with b2 by (unfold c; ndiv_lia).
    reflexivity. }
  destruct r2 as [|b3 r3]; [discriminate|].
  destruct ((240 <=? b0) && (b0 <? 245))%N eqn:H4; [|discriminate].
  cbv zeta in H.
  set (c := ((b0 - 240) * 262144 + (b1 - 128) * 4096 + (b2 - 128) * 64 + (b3 - 128))%N)
    in *.
  destruct (is_cont b1 && is_cont b2 && is_cont b3
            && (65536 <=? c)%N && (c <? 1114112)%N) eqn:Hv; [|discriminate].
  destruct (utf8_decode r3) as [t'|] eqn:Hr; [|discriminate].
  cbn [option_map] in H. apply Some_inj in H. subst t.
  apply andb_true_iff in Hv as [Hv Hhigh].
  apply andb_true_iff in Hv as [Hv Hlow].
  apply andb_true_iff in Hv as [Hv Hc3].
  apply andb_true_iff in Hv as [Hc1 Hc2].
  apply is_cont_spec in Hc1, Hc2, Hc3.
  nbool.
  rewrite encode_cons. cbn [encode_char]. unfold utf8_encode_char.
  replace (c <? 128)%N with false by (symmetry; apply N.ltb_ge; lia).
  replace (c <? 2048)%N with false by (symmetry; apply N.ltb_ge; lia).
  replace (c <? 65536)%N with false by (symmetry; apply N.ltb_ge; lia).
  replace (c <? 1114112)%N with true by (symmetry; apply N.ltb_lt; lia).
  rewrite (IH (length r3) ltac:(subst n; cbn; lia) r3 t' eq_refl Hr).
  replace (240 + c / 262144)%N with b0 by (unfold c; ndiv_lia).
  replace (128 + (c / 4096) mod 64)%N with b1 by (unfold c; ndiv_lia).
  replace (128 + (c / 64) mod 64)%N with b2 by (unfold c; ndiv_lia).
  replace (128 + c mod 64)%N with b3 by (unfold c; ndiv_lia).
  reflexivity.
Qed.

Lemma encode_utf8_decode (t : text) (b : bytes) :
  encode UTF8 t = Some b -> utf8_decode b = Some t.
Proof.
  revert b; induction t as [|c t IH]; intros b H.
  - cbn in H. apply Some_inj in H. now subst b.
  - rewrite encode_cons in H. cbn [encode_char] in H.
    destruct (utf8_encode_char c) as [bc|] eqn:Hc; [|discriminate].
    destruct (encode UTF8 t) as [bs|]; [|discriminate].
    apply Some_inj in H. subst b.
    rewrite (utf8_decode_char c bc bs Hc), (IH bs eq_refl). reflexivity.
Qed.

(** What decodes is the encoding of what it decodes to. *)
Lemma decode_encode (e : encoding) (b : bytes) (t : text) :
  decode e b = Some t -> encode e t = Some b.
Proof.
  destruct e; cbn [decode].
  - apply decode_bytewise_encode. intros c Hc. cbn [encode_char]. now rewrite Hc.
  - apply decode_bytewise_encode. intros c Hc. cbn [encode_char]. now rewrite Hc.
  - apply utf8_decode_encode.
Qed.

(** What was encoded decodes to the text it encodes. *)
Lemma encode_decode (e : encoding) (t : text) (b : bytes) :
  encode e t = Some b -> decode e b = Some t.
Proof.
  destruct e; cbn [decode].
  - apply encode_decode_bytewise. intros c bc. cbn [encode_char].
    destruct (c <? 128)%N; [|discriminate]. intros H. apply Some_inj in H. now subst bc.
  - apply encode_decode_bytewise. intros c bc. cbn [encode_char].
    destruct (c <? 256)%N; [|discriminate]. intros H. apply Some_inj in H. now subst bc.
  - apply encode_utf8_decode.
Qed.

Lemma decode_encodable (e : encoding) (b : bytes) (t : text) :
  decode e b = Some t -> forallb (encodable e) t = true.
Proof.
  intros H. apply encode_some. apply decode_encode in H. congruence.
Qed.

Lemma encoded_spec (e : encoding) (s : text) :
  forallb (encodable e) s = true -> encode e s = Some (encoded e s).
Proof.
  intros H. apply encode_some in H. unfold encoded.
  destruct (encode e s); [reflexivity|now elim H].
Qed.

(** ** Line ends *)

Lemma universal_newlines_not_cr (s : text) :
  forallb not_cr (universal_newlines s) = true.
Proof.
  remember (length s) as n eqn:Hn. revert s Hn.
  induction n as [n IH] using lt_wf_ind. intros s Hn.
  destruct s as [|c s]; [reflexivity|].
  cbn [universal_newlines].
  destruct (c =? 13)%N eqn:Hc.
  - cbn [forallb]. change (not_cr 10%N) with true. cbn [andb].
    destruct s as [|d s]; [reflexivity|].
    destruct (d =? 10)%N.
    + apply (IH (length s)); [subst n; cbn; lia|reflexivity].
    + apply (IH (length (d :: s))); [subst n; cbn; lia|reflexivity].
  - cbn [forallb]. unfold not_cr at 1. rewrite Hc. cbn [negb andb].
    apply (IH (length s)); [subst n; cbn; lia|reflexivity].
Qed.

Lemma universal_newlines_id (s : text) :
  forallb not_cr s = true -> universal_newlines s = s.
Proof.
  induction s as [|c s IH]; [reflexivity|].
  cbn [forallb]. intros H. apply andb_true_iff in H as [Hc Hs].
  cbn [universal_newlines]. unfold not_cr in Hc. apply negb_true_iff in Hc.
  rewrite Hc. f_equal. now apply IH.
Qed.

Lemma to_linesep_posix (s : text) : to_linesep Posix s = s.
Proof.
  unfold to_linesep. induction s as [|c s IH]; [reflexivity|].
  cbn [flat_map]. rewrite IH.
  destruct (c =? 10)%N eqn:Hc; [|reflexivity].
  apply N.eqb_eq in Hc. now subst c.
Qed.

(** Reading back what was written gives the text written, when it has no
    carriage return. *)
Lemma universal_newlines_to_linesep (p : platform) (s : text) :
  forallb not_cr s = true -> universal_newlines (to_linesep p s) = s.
Proof.
  destruct p.
  - rewrite to_linesep_posix. apply universal_newlines_id.
  - unfold to_linesep. induction s as [|c s IH]; [reflexivity|].
    cbn [forallb]. intros H. apply andb_true_iff in H as [Hc Hs].
    cbn [flat_map].
    destruct (c =? 10)%N eqn:Hnl.
    + apply N.eqb_eq in Hnl. subst c.
      cbn [linesep app universal_newlines N.eqb Pos.eqb]. f_equal. now apply IH.
    + cbn [app universal_newlines]. unfold not_cr in Hc. apply negb_true_iff in Hc.
      rewrite Hc. f_equal. now apply IH.
Qed.

Lemma forallb_to_linesep (P : char -> bool) (p : platform) (s : text) :
  P 10%N = true -> P 13%N = true ->
  forallb P s = true -> forallb P (to_linesep p s) = true.
Proof.
  intros H10 H13. unfold to_linesep.
  induction s as [|c s IH]; [reflexivity|].
  cbn [forallb flat_map]. intros H. apply andb_true_iff in H as [Hc Hs].
  rewrite forallb_app, (IH Hs), andb_true_r.
  destruct (c =? 10)%N; [|cbn [forallb]; now rewrite Hc].
  destruct p; cbn [linesep forallb]; now rewrite ?H10, ?H13.
Qed.

Lemma forallb_universal_newlines (P : char -> bool) (s : text) :
  P 10%N = true ->
  forallb P s = true -> forallb P (universal_newlines s) = true.
Proof.
  intros H10.
  remember (length s) as n eqn:Hn. revert s Hn.
  induction n as [n IH] using lt_wf_ind. intros s Hn H.
  destruct s as [|c s]; [reflexivity|].
  cbn [forallb] in H. apply andb_true_iff in H as [Hc Hs].
  cbn [universal_newlines].
  destruct (c =? 13)%N.
  - cbn [forallb]. rewrite H10. cbn [andb].
    destruct s as [|d s]; [reflexivity|].
    cbn [forallb] in Hs. apply andb_true_iff in Hs as [Hd Hs'].
    destruct (d =? 10)%N.
    + apply (IH (length s)); [subst n; cbn; lia|reflexivity|exact Hs'].
    + apply (IH (length (d :: s))); [subst n; cbn; lia|reflexivity|].
      cbn [forallb]. now rewrite Hd.
  - cbn [forallb]. rewrite Hc. cbn [andb].
    apply (IH (length s)); [subst n; cbn; lia|reflexivity|exact Hs].
Qed.
(* ================================================================== *)
(** * The characters of the patched text *)
(* ================================================================== *)

Lemma forallb_impl (P Q : char -> bool) (s : text) :
  (forall c, P c = true -> Q c = true) ->
  forallb P s = true -> forallb Q s = true.
Proof.
  intros H. rewrite !forallb_forall. auto.
Qed.

Lemma forallb_firstn_skipn (P : char -> bool) (n : nat) (s : text) :
  forallb P s = true ->
  forallb P (firstn n s) = true /\ forallb P (skipn n s) = true.
Proof.
  intros H. rewrite <- (firstn_skipn n s), forallb_app in H.
  now apply andb_true_iff in H.
Qed.

Lemma forallb_splice (P : char -> bool) (content : text) (pos : nat) (entries : text) :
  forallb P content = true -> forallb P entries = true ->
  forallb P (splice content pos entries) = true.
Proof.
  intros Hc He. unfold splice. rewrite !forallb_app.
  destruct (forallb_firstn_skipn P pos content Hc) as [-> ->]. now rewrite He.
Qed.

Lemma forallb_rstrip (P : char -> bool) (s : text) :
  forallb P s = true -> forallb P (rstrip s) = true.
Proof.
  intros H. destruct (rstrip_split s) as (ws & Hs & _).
  rewrite Hs, forallb_app in H. now apply andb_true_iff in H as [H _].
Qed.

Lemma forallb_replace (P : char -> bool) (s old new : text) :
  old <> [] -> forallb P new = true ->
  forallb P s = true -> forallb P (replace s old new) = true.
Proof.
  intros Hold Hnew.
  apply replace_ind
    with (P := fun s r => forallb P s = true -> forallb P r = true).
  - exact Hold.
  - auto.
  - intros b r IH H. rewrite forallb_app in *.
    apply andb_true_iff in H as [_ H]. now rewrite Hnew, IH.
  - intros x t r _ IH H. cbn [forallb] in *.
    apply andb_true_iff in H as [Hx H]. now rewrite Hx, IH.
Qed.

Lemma forallb_insert_step (P : char -> bool) (marker entries content : text) :
  forallb P content = true -> forallb P entries = true ->
  forallb P (insert_step marker entries content) = true.
Proof.
  intros Hc He. unfold insert_step.
  destruct (re_search (lits marker) content); [|exact Hc].
  now apply forallb_splice.
Qed.

Lemma forallb_link_listing (P : char -> bool) (header key appended content : text) :
  forallb P content = true -> forallb P appended = true ->
  forallb P (link_listing header key appended content) = true.
Proof.
  intros Hc Ha.
  destruct (re_search (listing_re header key) content) as [m1|] eqn:H1.
  2:{ now rewrite link_listing_absent. }
  destruct (link_listing_found header key appended content m1 H1)
    as (a & uuid & body & listing & rest & Heq & _ & _ & _ & _ & Hl & _ & _ & Hlink).
  rewrite Hlink.
  assert (Hlst : forallb P listing = true).
  { rewrite Heq in Hc. rewrite !forallb_app in Hc.
    do 5 (apply andb_true_iff in Hc as [_ Hc]).
    now apply andb_true_iff in Hc as [Hc _]. }
  apply forallb_replace; [exact Hl| |exact Hc].
  rewrite forallb_app. now rewrite forallb_rstrip, Ha.
Qed.

Lemma hex_plain (c : char) : is_upper_hex c = true -> is_plain c = true.
Proof.
  unfold is_upper_hex, is_plain. intros H.
  apply orb_true_iff. right. apply andb_true_iff. rewrite N.leb_le, N.ltb_lt.
  apply orb_true_iff in H as [H|H]; apply andb_true_iff in H as [H1 H2];
    apply N.leb_le in H1, H2; lia.
Qed.

Lemma uuid_plain (s : text) : is_xcode_uuid s -> forallb is_plain s = true.
Proof. intros [_ H]. revert H. apply forallb_impl, hex_plain. Qed.

Lemma plain_ascii (c : char) : is_plain c = true -> is_ascii c = true.
Proof.
  unfold is_plain, is_ascii. intros H. apply N.ltb_lt.
  apply orb_true_iff in H as [H|H].
  - apply orb_true_iff in H as [H|H]; apply N.eqb_eq in H; lia.
  - apply andb_true_iff in H as [_ H]. apply N.ltb_lt in H. lia.
Qed.

Lemma plain_not_cr (c : char) : is_plain c = true -> not_cr c = true.
Proof.
  unfold is_plain, not_cr. intros H. apply negb_true_iff, N.eqb_neq. intros ->.
  discriminate.
Qed.

Lemma plain_encodable (e : encoding) (c : char) :
  is_plain c = true -> encodable e c = true.
Proof. intros H. now apply ascii_encodable, plain_ascii. Qed.

Section PlainEntries.
Variable u : uuids.
Hypothesis Hu : valid_uuids u.

Ltac plain_parts :=
  rewrite !forallb_app;
  rewrite ?(uuid_plain _ (valid_view_file_ref u Hu)),
          ?(uuid_plain _ (valid_viewmodel_file_ref u Hu)),
          ?(uuid_plain _ (valid_view_build_file u Hu)),
          ?(uuid_plain _ (valid_viewmodel_build_file u Hu)),
          ?(uuid_plain _ (valid_group u Hu));
  reflexivity.

Lemma plain_build_entries : forallb is_plain (build_entries u) = true.
Proof. unfold build_entries. plain_parts. Qed.

Lemma plain_file_entries : forallb is_plain (file_entries u) = true.
Proof. unfold file_entries. plain_parts. Qed.

Lemma plain_new_child : forallb is_plain (new_child u) = true.
Proof. unfold new_child. plain_parts. Qed.

Lemma plain_group_entry : forallb is_plain (group_entry u) = true.
Proof. unfold group_entry. plain_parts. Qed.

Lemma plain_new_source_files : forallb is_plain (new_source_files u) = true.
Proof. unfold new_source_files. plain_parts. Qed.

Lemma plain_progress_lines :
  Forall (fun line => forallb is_plain line = true) (progress_lines u).
Proof.
  unfold progress_lines. repeat constructor; plain_parts.
Qed.

(** The patch adds plain characters only: what holds of every character
    read and of every plain character holds of every character written. *)
Lemma forallb_patch (P : char -> bool) (content : text) :
  (forall c, is_plain c = true -> P c = true) ->
  forallb P content = true -> forallb P (patch u content) = true.
Proof.
  intros Hplain Hc. unfold patch.
  rewrite link_sources_listing, add_group_insert, link_group_listing,
          add_file_refs_insert, add_build_files_insert.
  apply forallb_link_listing;
    [|apply (forallb_impl is_plain); [exact Hplain|apply plain_new_source_files]].
  apply forallb_insert_step;
    [|apply (forallb_impl is_plain); [exact Hplain|apply plain_group_entry]].
  apply forallb_link_listing;
    [|apply (forallb_impl is_plain); [exact Hplain|apply plain_new_child]].
  apply forallb_insert_step;
    [|apply (forallb_impl is_plain); [exact Hplain|apply plain_file_entries]].
  apply forallb_insert_step;
    [exact Hc|apply (forallb_impl is_plain); [exact Hplain|apply plain_build_entries]].
Qed.
End PlainEntries.

(* ================================================================== *)
(** * The run as a whole *)
(* ================================================================== *)

(** What a successful read tells about the file. *)
Lemma files_inv (w : world) (path : string) (content : text) :
  files w path = Some content ->
  exists f raw,
    disk w (resolve w path) = Some f
    /\ readable f = true
    /\ decode (fs_encoding w) (data f) = Some raw
    /\ content = universal_newlines raw
    /\ read_file path w = Returned content w.
Proof.
  unfold files, read_file.
  destruct (disk w (resolve w path)) as [f|] eqn:Hd; [|discriminate].
  destruct (readable f) eqn:Hr; [|discriminate].
  destruct (decode (fs_encoding w) (data f)) as [raw|] eqn:Hdec; [|discriminate].
  intros H. apply Some_inj in H. subst content. exists f, raw. repeat split; assumption.
Qed.

Lemma files_raw_text (w : world) (path : string) (content : text) :
  files w path = Some content <->
  exists raw, raw_text w path = Some raw /\ content = universal_newlines raw.
Proof.
  unfold files, read_file, raw_text.
  destruct (disk w (resolve w path)) as [f|].
  2:{ split; [discriminate|]. now intros (raw & H & _). }
  destruct (readable f).
  2:{ split; [discriminate|]. now intros (raw & H & _). }
  destruct (decode (fs_encoding w) (data f)) as [raw|].
  2:{ split; [discriminate|]. now intros (raw & H & _). }
  split.
  - intros H. apply Some_inj in H. exists raw. now split.
  - intros (raw' & H & ->). apply Some_inj in H. now subst raw'.
Qed.

(** The text read can be encoded again, and has no carriage return. *)
Lemma files_chars (w : world) (path : string) (content : text) :
  files w path = Some content ->
  forallb (encodable (fs_encoding w)) content = true
  /\ forallb not_cr content = true.
Proof.
  intros H. destruct (files_inv w path content H) as (f & raw & _ & _ & Hdec & -> & _).
  split.
  - apply forallb_universal_newlines; [now apply ascii_encodable|].
    now apply decode_encodable with (b := data f).
  - apply universal_newlines_not_cr.
Qed.

(** The text a run writes can always be encoded: [f.write] of line 82
    raises no [UnicodeEncodeError]. *)
Lemma patch_encodable (w : world) (path : string) (content : text) :
  files w path = Some content ->
  forallb (encodable (fs_encoding w))
    (to_linesep (os w) (patch (run_uuids w) content)) = true.
Proof.
  intros H. destruct (files_chars w path content H) as [He _].
  apply forallb_to_linesep; try (now apply ascii_encodable).
  apply forallb_patch; [apply run_uuids_valid| |exact He].
  intros c Hc. now apply plain_encodable.
Qed.

Lemma patch_not_cr (u : uuids) (content : text) :
  valid_uuids u ->
  forallb not_cr content = true -> forallb not_cr (patch u content) = true.
Proof.
  intros Hu. apply forallb_patch; [exact Hu|]. apply plain_not_cr.
Qed.

Lemma print_encodable (line : text) (w : world) :
  forallb (encodable (stdout_encoding w)) line = true ->
  print line w
  = Returned tt (World (resolve w) (disk w) (fs_encoding w) (os w) (stdout_encoding w)
                       (urandom w) (drawn w) (stdout w ++ [line])).
Proof.
  intros H. unfold print. rewrite (encoded_spec _ _ H). reflexivity.
Qed.

Lemma print_plain (line : text) (w : world) :
  forallb is_plain line = true ->
  print line w
  = Returned tt (World (resolve w) (disk w) (fs_encoding w) (os w) (stdout_encoding w)
                       (urandom w) (drawn w) (stdout w ++ [line])).
Proof.
  intros H. apply print_encodable. revert H. apply forallb_impl.
  intros c. apply plain_encodable.
Qed.

(** The progress lines can always be printed: a run that read the
    manifest reaches the write of lines 81-82 after five draws and three
    lines. *)
Lemma run_reaches_write (pbxproj_path : string) (content : text) (w : world) :
  files w pbxproj_path = Some content ->
  add_files_to_pbxproj pbxproj_path w
  = (write_file pbxproj_path (patch (run_uuids w) content) ;;; print success_line)
      (world_before_write w).
Proof.
  intros Hread.
  destruct (files_inv w pbxproj_path content Hread) as (f & raw & _ & _ & _ & _ & Hr).
  assert (Hp := plain_progress_lines (run_uuids w) (run_uuids_valid w)).
  unfold progress_lines in Hp.
  apply Forall_cons_iff in Hp as [H1 Hp].
  apply Forall_cons_iff in Hp as [H2 Hp].
  apply Forall_cons_iff in Hp as [H3 _].
  unfold add_files_to_pbxproj.
  unfold bind at 1. rewrite Hr.
  cbv [bind generate_xcode_uuid os_urandom16 ret
       resolve disk fs_encoding os stdout_encoding urandom drawn stdout].
  destruct w as [rs dk fe pl se rnd k out].
  cbv [run_uuids draw view_file_ref_uuid viewmodel_file_ref_uuid group_uuid
       urandom drawn Nat.add] in H1, H2, H3.
  rewrite (print_plain _ _ H1). cbv beta iota.
  rewrite (print_plain _ _ H2). cbv beta iota.
  rewrite (print_plain _ _ H3). cbv beta iota.
  cbv [world_before_write run_uuids draw progress_lines
       resolve disk fs_encoding os stdout_encoding urandom drawn stdout
       view_file_ref_uuid viewmodel_file_ref_uuid group_uuid Nat.add].
  repeat rewrite <- app_assoc. reflexivity.
Qed.

(** How a run that read the manifest ends: it fails when the file may not
    be written, with the file as it was, and when standard output cannot
    show the check mark, with the file written; otherwise it returns. *)
Lemma add_files_outcome (pbxproj_path : string) (content : text) (w : world) (f : file) :
  files w pbxproj_path = Some content ->
  disk w (resolve w pbxproj_path) = Some f ->
  add_files_to_pbxproj pbxproj_path w
  = if writable f then
      match encode (stdout_encoding w) success_line with
      | Some _ => Returned tt (world_after pbxproj_path content w)
      | None => Raised (UnicodeEncodeError (stdout_encoding w))
                       (world_written pbxproj_path content w)
      end
    else Raised (PermissionError pbxproj_path) (world_before_write w).
Proof.
  intros Hread Hd.
  rewrite (run_reaches_write pbxproj_path content w Hread).
  destruct (files_inv w pbxproj_path content Hread) as (f' & raw & Hd' & Hr & _).
  assert (f' = f) by congruence. subst f'.
  assert (Henc := encoded_spec _ _ (patch_encodable w pbxproj_path content Hread)).
  unfold bind, write_file.
  cbn [world_before_write resolve disk fs_encoding os].
  rewrite Hd. destruct (writable f) eqn:Hw; [|reflexivity].
  rewrite Henc. unfold print, store.
  cbn [world_before_write resolve disk fs_encoding os stdout_encoding urandom drawn stdout].
  rewrite Hr.
  destruct (encode (stdout_encoding w) success_line) as [b|]; [|reflexivity].
  unfold world_after. now rewrite <- app_assoc.
Qed.

Lemma add_files_run (pbxproj_path : string) (content : text) (w : world) :
  files w pbxproj_path = Some content ->
  permits w pbxproj_path ->
  add_files_to_pbxproj pbxproj_path w = Returned tt (world_after pbxproj_path content w).
Proof.
  intros Hread [(f & Hd & Hw) Hout].
  rewrite (add_files_outcome pbxproj_path content w f Hread Hd), Hw.
  destruct (encode (stdout_encoding w) success_line); [reflexivity|now elim Hout].
Qed.

(** A run that cannot read the manifest raises what the read raises, in
    the world as it was. *)
Lemma add_files_unread (pbxproj_path : string) (w : world) :
  files w pbxproj_path = None ->
  exists e, read_file pbxproj_path w = Raised e w
            /\ add_files_to_pbxproj pbxproj_path w = Raised e w.
Proof.
  unfold files. intros H.
  assert (Hr : exists e, read_file pbxproj_path w = Raised e w).
  { unfold read_file in *.
    destruct (disk w (resolve w pbxproj_path)) as [f|]; [|eexists; reflexivity].
    destruct (readable f); [|eexists; reflexivity].
    destruct (decode (fs_encoding w) (data f)); [discriminate|eexists; reflexivity]. }
  destruct Hr as [e Hr]. exists e. split; [exact Hr|].
  unfold add_files_to_pbxproj. unfold bind at 1. now rewrite Hr.
Qed.

(** A run returns only when it read the manifest and was let finish. *)
Lemma add_files_returned (pbxproj_path : string) (w w' : world) :
  add_files_to_pbxproj pbxproj_path w = Returned tt w' ->
  exists content,
    files w pbxproj_path = Some content
    /\ permits w pbxproj_path
    /\ w' = world_after pbxproj_path content w.
Proof.
  intros Hrun.
  destruct (files w pbxproj_path) as [content|] eqn:Hread.
  2:{ destruct (add_files_unread pbxproj_path w Hread) as (e & _ & He). congruence. }
  exists content. split; [reflexivity|].
  destruct (files_inv w pbxproj_path content Hread) as (f & raw & Hd & _).
  rewrite (add_files_outcome pbxproj_path content w f Hread Hd) in Hrun.
  destruct (writable f) eqn:Hw; [|discriminate].
  destruct (encode (stdout_encoding w) success_line) as [b|] eqn:Hout; [|discriminate].
  split.
  - split; [now exists f|]. congruence.
  - congruence.
Qed.

(** The manifest a finished run leaves reads as the patched text. *)
Lemma files_world_after (pbxproj_path : string) (content : text) (w : world) :
  files w pbxproj_path = Some content ->
  files (world_after pbxproj_path content w) pbxproj_path
  = Some (patch (run_uuids w) content).
Proof.
  intros Hread.
  assert (Henc := encoded_spec _ _ (patch_encodable w pbxproj_path content Hread)).
  apply encode_decode in Henc.
  unfold files, read_file.
  cbn [world_after resolve disk fs_encoding os]. rewrite String.eqb_refl.
  cbn [readable data]. rewrite Henc. f_equal.
  apply universal_newlines_to_linesep.
  apply patch_not_cr; [apply run_uuids_valid|].
  now apply (files_chars w pbxproj_path content).
Qed.

Lemma file_bytes_world_after (pbxproj_path : string) (content : text) (w : world) :
  file_bytes (world_after pbxproj_path content w) pbxproj_path
  = Some (encoded (fs_encoding w) (to_linesep (os w) (patch (run_uuids w) content))).
Proof.
  unfold file_bytes. cbn [world_after resolve disk]. now rewrite String.eqb_refl.
Qed.

Lemma permits_world_after (pbxproj_path : string) (content : text) (w : world) :
  permits w pbxproj_path -> permits (world_after pbxproj_path content w) pbxproj_path.
Proof.
  intros [_ Hout]. split; [|exact Hout].
  eexists. cbn [world_after resolve disk]. rewrite String.eqb_refl. now split.
Qed.

(** The sample worlds let a run finish. *)
Lemma world_with_permits (content : text) : permits (world_with content) project_path.
Proof.
  split; [eexists; split; reflexivity|]. vm_compute. discriminate.
Qed.

Lemma stuck_world_permits (content : text) : permits (stuck_world content) project_path.
Proof.
  split; [eexists; split; reflexivity|]. vm_compute. discriminate.
Qed.

Lemma world_of_bytes_permits (b : bytes) : permits (world_of_bytes b) project_path.
Proof.
  split; [eexists; split; reflexivity|]. vm_compute. discriminate.
Qed.

Lemma Returned_inj (A : Type) (a b : A) (w w' : world) :
  Returned a w = Returned b w' -> w = w'.
Proof. intros H. congruence. Qed.

(* ================================================================== *)
(** * Guards, no-op runs and progress output *)
(* ================================================================== *)

(** C3.  A missing anchor never makes a run fail: whenever the manifest
    can be read and the system lets the run write it and print, the run
    returns, for every manifest text, and what it writes is the composition
    of the five steps, each applied to the text the previous one left.
    Each step is guarded on its own: it leaves the text unchanged exactly
    when its anchor is absent from the text it is given, whatever the other
    anchors do, so a run may apply some steps and skip others. *)
Theorem C3_steps_independently_guarded
        (pbxproj_path : string) (content : text) (w : world) :
  files w pbxproj_path = Some content ->
  permits w pbxproj_path ->
  (exists w',
      add_files_to_pbxproj pbxproj_path w = Returned tt w'
      /\ files w' pbxproj_path =
         Some (link_sources (run_uuids w)
                (add_group (run_uuids w)
                  (link_group (run_uuids w)
                    (add_file_refs (run_uuids w)
                      (add_build_files (run_uuids w) content))))))
  /\ (forall u t, add_build_files u t = t
                  <-> re_search (lits build_file_marker) t = None)
  /\ (forall u t, add_file_refs u t = t
                  <-> re_search (lits file_ref_marker) t = None)
  /\ (forall u t, link_group u t = t <-> re_search features_re t = None)
  /\ (forall u t, add_group u t = t
                  <-> re_search (lits group_marker) t = None)
  /\ (forall u t, link_sources u t = t <-> re_search sources_re t = None).
Proof.
  intros Hread Hperm. split; [|split; [|split; [|split; [|split]]]].
  - exists (world_after pbxproj_path content w).
    split; [now apply add_files_run|]. now apply files_world_after.
  - intros u t. rewrite add_build_files_insert.
    apply insert_step_fixed, build_entries_nonempty.
  - intros u t. rewrite add_file_refs_insert.
    apply insert_step_fixed, file_entries_nonempty.
  - intros u t. rewrite link_group_listing, features_re_listing.
    apply link_listing_fixed, visible_new_child.
  - intros u t. rewrite add_group_insert.
    apply insert_step_fixed, group_entry_nonempty.
  - intros u t. rewrite link_sources_listing, sources_re_listing.
    apply link_listing_fixed, visible_new_source_files.
Qed.

(** A manifest that has the build-file marker only: the run applies the
    first step and skips the four others. *)
Lemma C3_witness :
  exists w',
    add_files_to_pbxproj project_path
      (world_with (str "/* Begin PBXBuildFile section */")) = Returned tt w'
    /\ files w' project_path =
       Some (str "/* Begin PBXBuildFile section */"
             ++ build_entries (run_uuids (world_with (str "/* Begin PBXBuildFile section */")))).
Proof.
  destruct (C3_steps_independently_guarded project_path
              (str "/* Begin PBXBuildFile section */")
              (world_with (str "/* Begin PBXBuildFile section */")) eq_refl
              (world_with_permits _))
    as ((w' & Hrun & Hfile) & _).
  exists w'. split; [exact Hrun|]. rewrite Hfile. vm_compute. reflexivity.
Defined.

(** C7 (amended).  For a manifest that contains none of the five anchor
    patterns, a run that is let finish writes back the text it read: the
    manifest reads afterwards as it read before.  The file itself is the
    same, byte for byte, exactly when the line ends of the manifest are
    those of the platform: reading turns every carriage return, with or
    without a line feed after it, into a line feed, and writing puts the
    line separator of the platform for every line feed. *)
Theorem C7_no_anchor_output_equals_input
        (pbxproj_path : string) (content : text) (w : world) :
  files w pbxproj_path = Some content ->
  permits w pbxproj_path ->
  re_search (lits build_file_marker) content = None ->
  re_search (lits file_ref_marker) content = None ->
  re_search features_re content = None ->
  re_search (lits group_marker) content = None ->
  re_search sources_re content = None ->
  exists w',
    add_files_to_pbxproj pbxproj_path w = Returned tt w'
    /\ files w' pbxproj_path = Some content
    /\ forall raw,
         raw_text w pbxproj_path = Some raw ->
         (file_bytes w' pbxproj_path = file_bytes w pbxproj_path
          <-> native_line_ends (os w) raw).
Proof.
  intros Hread Hperm H1 H2 H3 H4 H5.
  assert (Hpatch : patch (run_uuids w) content = content).
  { unfold patch, add_build_files. rewrite H1.
    unfold add_file_refs. rewrite H2.
    unfold link_group. rewrite H3.
    unfold add_group. rewrite H4.
    unfold link_sources. now rewrite H5. }
  exists (world_after pbxproj_path content w).
  split; [now apply add_files_run|].
  split; [rewrite files_world_after by assumption; now rewrite Hpatch|].
  intros raw Hraw.
  assert (Henc := encoded_spec _ _ (patch_encodable w pbxproj_path content Hread)).
  rewrite file_bytes_world_after, Hpatch in *.
  destruct (files_inv w pbxproj_path content Hread) as (f & raw' & Hd & Hr & Hdec & Hc & _).
  unfold raw_text in Hraw. rewrite Hd, Hr, Hdec in Hraw.
  apply Some_inj in Hraw. subst raw'.
  unfold file_bytes. rewrite Hd. cbn [option_map].
  unfold native_line_ends. rewrite <- Hc.
  split.
  - intros Hsame. apply Some_inj in Hsame. rewrite Hsame in Henc.
    apply encode_decode in Henc. rewrite Hdec in Henc. now apply Some_inj in Henc.
  - intros Hnative. rewrite Hnative in *.
    apply decode_encode in Hdec. congruence.
Qed.

Lemma C7_witness :
  exists w',
    add_files_to_pbxproj project_path (world_with bare_manifest) = Returned tt w'
    /\ files w' project_path = Some bare_manifest
    /\ file_bytes w' project_path = file_bytes (world_with bare_manifest) project_path.
Proof.
  destruct (C7_no_anchor_output_equals_input project_path bare_manifest
              (world_with bare_manifest) eq_refl (world_with_permits _)
              eq_refl eq_refl eq_refl eq_refl eq_refl) as (w' & Hrun & Hfile & Hbytes).
  exists w'. split; [exact Hrun|]. split; [exact Hfile|].
  apply (Hbytes bare_manifest); reflexivity.
Defined.

(** A manifest without anchors whose line ends with a carriage return and
    a line feed is not written back byte for byte: the run reads the line
    end as a line feed and writes a line feed. *)
Lemma C7_counterexample :
  files (world_of_bytes crlf_manifest_bytes) project_path = Some bare_manifest
  /\ patch (run_uuids (world_of_bytes crlf_manifest_bytes)) bare_manifest = bare_manifest
  /\ exists w',
       add_files_to_pbxproj project_path (world_of_bytes crlf_manifest_bytes)
       = Returned tt w'
       /\ file_bytes (world_of_bytes crlf_manifest_bytes) project_path
          = Some (str "// !$*UTF8*$!" ++ [13%N; 10%N])
       /\ file_bytes w' project_path = Some (str "// !$*UTF8*$!" ++ [10%N]).
Proof.
  split; [reflexivity|]. split; [reflexivity|].
  eexists. split; [apply add_files_run; [reflexivity|apply world_of_bytes_permits]|].
  split; [reflexivity|].
  rewrite file_bytes_world_after. vm_compute. reflexivity.
Qed.

(** C8 (amended).  Every run that returns has printed three progress
    lines -- the two file-reference identifiers and the group identifier --
    and then the check-mark line, four lines in all; and a run returns for
    every manifest text that could be read, whether or not any patch step
    applies, when the system lets it write the file and print. *)
Theorem C8_three_progress_lines_and_confirmation (pbxproj_path : string) (w : world) :
  (forall w',
      add_files_to_pbxproj pbxproj_path w = Returned tt w' ->
      stdout w' =
      stdout w
      ++ [str "View File Ref UUID: " ++ view_file_ref_uuid (run_uuids w);
          str "ViewModel File Ref UUID: " ++ viewmodel_file_ref_uuid (run_uuids w);
          str "Group UUID: " ++ group_uuid (run_uuids w);
          success_line])
  /\ (forall content,
         files w pbxproj_path = Some content ->
         permits w pbxproj_path ->
         exists w', add_files_to_pbxproj pbxproj_path w = Returned tt w').
Proof.
  split.
  - intros w' Hrun.
    destruct (add_files_returned pbxproj_path w w' Hrun) as (content & _ & _ & ->).
    reflexivity.
  - intros content Hread Hperm.
    exists (world_after pbxproj_path content w). now apply add_files_run.
Qed.

Lemma C8_witness :
  exists w',
    add_files_to_pbxproj project_path (world_with sample_manifest) = Returned tt w'
    /\ stdout w' =
       [str "View File Ref UUID: 4A4D87C2DC2045C49C4F93D1";
        str "ViewModel File Ref UUID: 4B3B4CA85A86447A898A223F";
        str "Group UUID: 4E049B58D5BA40999139CD8B";
        success_line].
Proof.
  destruct (C8_three_progress_lines_and_confirmation project_path
              (world_with sample_manifest)) as [Hout Hret].
  destruct (Hret sample_manifest eq_refl (world_with_permits _)) as [w' Hrun].
  exists w'. split; [exact Hrun|]. rewrite (Hout w' Hrun). vm_compute. reflexivity.
Defined.

(** The run on the sample manifest returns and has printed four lines, not
    the five progress lines and one confirmation of the claim. *)
Lemma C8_counterexample :
  exists w',
    add_files_to_pbxproj project_path (world_with sample_manifest) = Returned tt w'
    /\ length (stdout w') <> length (stdout (world_with sample_manifest)) + 5 + 1.
Proof.
  eexists. split; [apply add_files_run; [reflexivity|apply world_with_permits]|].
  vm_compute. discriminate.
Qed.
(* ================================================================== *)
(** * Identifiers of a run; balance of the patched manifest *)
(* ================================================================== *)

Lemma NoDup_map_equiv (A B C : Type) (f : A -> B) (g : A -> C) (l : list A) :
  (forall x y, In x l -> In y l -> (f x = f y <-> g x = g y)) ->
  NoDup (map f l) <-> NoDup (map g l).
Proof.
  induction l as [|a l IH]; intros Heq.
  - simpl. split; constructor.
  - assert (Hin : In (f a) (map f l) <-> In (g a) (map g l)).
    { rewrite !in_map_iff. split; intros (x & Hx & Hl); exists x; split; auto;
        apply (Heq x a); simpl; auto. }
    assert (IH' : NoDup (map f l) <-> NoDup (map g l)).
    { apply IH. intros x y Hx Hy. apply Heq; simpl; auto. }
    simpl. rewrite !NoDup_cons_iff. tauto.
Qed.

(** C2 (amended).  Every run that could read the manifest and is let
    finish draws from the random source exactly five times and makes one
    identifier from each draw, in the order file reference, file reference, build file, build
    file, group; each identifier is 24 characters of [A-F0-9].  The five
    are mutually distinct exactly when the five UUIDs drawn differ
    pairwise in their leading 96 bits: the script does not check it. *)
Theorem C2_five_identifiers_of_a_run
        (pbxproj_path : string) (content : text) (w : world) :
  files w pbxproj_path = Some content ->
  permits w pbxproj_path ->
  (exists w',
      add_files_to_pbxproj pbxproj_path w = Returned tt w'
      /\ drawn w' = 5 + drawn w
      /\ files w' pbxproj_path = Some (patch (run_uuids w) content))
  /\ uuid_list (run_uuids w) = map (fun k => xcode_uuid_of (draw w k)) [0; 1; 2; 3; 4]
  /\ Forall is_xcode_uuid (uuid_list (run_uuids w))
  /\ (NoDup (uuid_list (run_uuids w))
      <-> NoDup (map (fun k => leading_bits (draw w k)) [0; 1; 2; 3; 4])).
Proof.
  intros Hread Hperm. split; [|split; [|split]].
  - exists (world_after pbxproj_path content w).
    split; [now apply add_files_run|]. split; [reflexivity|].
    now apply files_world_after.
  - reflexivity.
  - apply run_uuids_valid.
  - change (uuid_list (run_uuids w))
      with (map (fun k => xcode_uuid_of (draw w k)) [0; 1; 2; 3; 4]).
    apply NoDup_map_equiv. intros x y _ _.
    apply xcode_uuid_of_eq; apply draw_bound.
Qed.

Lemma C2_witness :
  Forall is_xcode_uuid (uuid_list (run_uuids (world_with sample_manifest)))
  /\ NoDup (uuid_list (run_uuids (world_with sample_manifest))).
Proof.
  destruct (C2_five_identifiers_of_a_run project_path sample_manifest
              (world_with sample_manifest) eq_refl (world_with_permits _))
    as (_ & _ & Hfmt & Hdup).
  split; [exact Hfmt|]. apply Hdup.
  vm_compute. repeat constructor; simpl; intuition discriminate.
Defined.

(** With a random source that repeats a draw, the run completes and its
    five identifiers are one and the same. *)
Lemma C2_counterexample :
  exists w',
    add_files_to_pbxproj project_path (stuck_world sample_manifest) = Returned tt w'
    /\ stdout w' =
       [str "View File Ref UUID: 4A4D87C2DC2045C49C4F93D1";
        str "ViewModel File Ref UUID: 4A4D87C2DC2045C49C4F93D1";
        str "Group UUID: 4A4D87C2DC2045C49C4F93D1";
        success_line]
    /\ ~ NoDup (uuid_list (run_uuids (stuck_world sample_manifest))).
Proof.
  eexists. split; [apply add_files_run; [reflexivity|apply stuck_world_permits]|].
  split; [vm_compute; reflexivity|].
  intros H. inversion H as [|x l Hnotin _]. apply Hnotin. left. reflexivity.
Qed.

(** C4 (amended).  The nesting of parentheses and braces, counted over
    every character of the text -- those inside comments and quoted
    strings too --, is preserved: when the manifest read is balanced in
    this sense -- every closing bracket closes the innermost open one and
    none stays open -- so is the manifest written back, whichever
    occurrences the anchor patterns match.  The syntax of the format is
    not: see the counterexample. *)
Theorem C4_balance_preserved
        (pbxproj_path : string) (content : text) (w : world) :
  files w pbxproj_path = Some content ->
  permits w pbxproj_path ->
  balanced content = true ->
  exists w' written,
    add_files_to_pbxproj pbxproj_path w = Returned tt w'
    /\ files w' pbxproj_path = Some written
    /\ balanced written = true.
Proof.
  intros Hread Hperm Hbal.
  exists (world_after pbxproj_path content w), (patch (run_uuids w) content).
  split; [now apply add_files_run|]. split.
  - now apply files_world_after.
  - rewrite balanced_patch; [exact Hbal|apply run_uuids_valid].
Qed.

Lemma C4_witness :
  exists w' written,
    add_files_to_pbxproj project_path (world_with sample_manifest) = Returned tt w'
    /\ files w' project_path = Some written
    /\ balanced written = true.
Proof.
  apply (C4_balance_preserved project_path sample_manifest (world_with sample_manifest));
    [reflexivity|apply world_with_permits|reflexivity].
Defined.

(** A manifest that parses, with a child of Features whose label holds a
    parenthesis, is written back as a text that does not parse: the
    pattern takes the parenthesis of the label for the end of the listing
    and line 52 puts the new member inside the comment, which then ends
    early.  The brackets of the text are balanced before and after.  The
    same manifest with an ordinary label is written back as one that
    parses. *)
Lemma C4_counterexample :
  well_formed labelled_manifest = true
  /\ balanced labelled_manifest = true
  /\ (exists w' written,
        add_files_to_pbxproj project_path (world_with labelled_manifest) = Returned tt w'
        /\ files w' project_path = Some written
        /\ balanced written = true
        /\ well_formed written = false)
  /\ well_formed (patch (run_uuids (world_with complete_manifest)) complete_manifest)
     = true.
Proof.
  split; [vm_compute; reflexivity|]. split; [vm_compute; reflexivity|]. split.
  - exists (world_after project_path labelled_manifest (world_with labelled_manifest)),
           (patch (run_uuids (world_with labelled_manifest)) labelled_manifest).
    split; [apply add_files_run; [reflexivity|apply world_with_permits]|].
    split; [now apply files_world_after|].
    split; vm_compute; reflexivity.
  - vm_compute. reflexivity.
Qed.
(* ================================================================== *)
(** * The append steps rewrite every occurrence *)
(* ================================================================== *)

Section AppendFrame.
Variables header key appended : text.
Hypothesis Hvis : 0 < visible appended.

Lemma link_listing_pieces (content : text) (pos : nat) (listing : text) :
  matched_listing header key content = Some (pos, listing) ->
  listing <> []
  /\ content = firstn pos content ++ listing ++ skipn (pos + length listing) content
  /\ join listing (pieces content listing) = content
  /\ link_listing header key appended content
     = join (rstrip listing ++ appended) (pieces content listing).
Proof.
  intros Hm.
  destruct (re_search (listing_re header key) content) as [m1|] eqn:H1.
  2:{ rewrite matched_listing_absent in Hm by assumption. discriminate. }
  destruct (link_listing_found header key appended content m1 H1)
    as (a & uuid & body & lst & rest & Hc & _ & _ & _ & _ & Hl & _ & Hml & Hlink).
  rewrite Hml in Hm. injection Hm as Hpos Hlst. subst lst.
  split; [exact Hl|]. split; [|split].
  - assert (Hc' : content = (a ++ uuid ++ header ++ body ++ key)
                            ++ listing ++ (str ");" ++ rest))
      by (rewrite Hc at 1; now rewrite <- !app_assoc).
    rewrite <- Hpos.
    pose proof (split_at (a ++ uuid ++ header ++ body ++ key) listing
                  (str ");" ++ rest)) as Hs.
    now rewrite <- Hc' in Hs.
  - now apply join_pieces_self.
  - rewrite Hlink. symmetry. now apply join_pieces.
Qed.

Lemma link_listing_not_local (content : text) (pos : nat) (listing : text) :
  matched_listing header key content = Some (pos, listing) ->
  2 <= occurrence_count content listing ->
  link_listing header key appended content
  <> local_append content pos listing appended.
Proof.
  intros Hm Hcount Heq.
  destruct (link_listing_pieces content pos listing Hm) as (Hl & Hc & _ & Hlink).
  apply (f_equal visible) in Heq.
  rewrite Hlink, join_pieces in Heq by assumption.
  assert (Hv := visible_replace_pieces content listing (rstrip listing ++ appended) Hl).
  unfold local_append in Heq.
  rewrite !visible_app, visible_rstrip in *.
  assert (Hvc : visible content = visible (firstn pos content) + visible listing
                + visible (skipn (pos + length listing) content)).
  { rewrite Hc at 1. rewrite !visible_app. lia. }
  unfold occurrence_count in Hcount.
  nia.
Qed.
End AppendFrame.

(** C10 (amended).  Each append step replaces the text of the listing it
    matched wherever a scan of the whole manifest meets it: the manifest is
    its pieces between those occurrences glued with the listing text, the
    step's result is the same pieces glued with the extended listing
    text.  So when the listing text occurs more than once, the result is
    not the edit of the anchored listing alone: text outside that listing
    is rewritten too, wherever the other occurrences lie -- inside the
    targeted group or phase as well as outside it. *)
Theorem C10_append_rewrites_every_occurrence (u : uuids) (content : text) :
  (forall pos listing,
      matched_listing features_header children_key content = Some (pos, listing) ->
      join listing (pieces content listing) = content
      /\ link_group u content
         = join (rstrip listing ++ new_child u) (pieces content listing)
      /\ (2 <= occurrence_count content listing ->
          link_group u content <> local_append content pos listing (new_child u)))
  /\ (forall pos listing,
      matched_listing sources_header files_key content = Some (pos, listing) ->
      join listing (pieces content listing) = content
      /\ link_sources u content
         = join (rstrip listing ++ new_source_files u) (pieces content listing)
      /\ (2 <= occurrence_count content listing ->
          link_sources u content
          <> local_append content pos listing (new_source_files u))).
Proof.
  split; intros pos listing Hm.
  - rewrite link_group_listing.
    destruct (link_listing_pieces features_header children_key (new_child u)
                content pos listing Hm) as (_ & _ & Hself & Hlink).
    split; [exact Hself|]. split; [exact Hlink|].
    apply link_listing_not_local; [apply visible_new_child|exact Hm].
  - rewrite link_sources_listing.
    destruct (link_listing_pieces sources_header files_key (new_source_files u)
                content pos listing Hm) as (_ & _ & Hself & Hlink).
    split; [exact Hself|]. split; [exact Hlink|].
    apply link_listing_not_local; [apply visible_new_source_files|exact Hm].
Qed.

(** In a manifest whose Features group has no child yet the listing text,
    a line break and three tabs, occurs three times, and all three lie in
    the record of the group, from its identifier at offset 16 to the end of
    its closing brace at offset 105: the step rewrites the three of them,
    and the text before and after the group stays as it is. *)
Lemma C10_counterexample :
  matched_listing features_header children_key empty_group_manifest
  = Some (94, nl ++ tabs3)
  /\ positions (nl ++ tabs3) empty_group_manifest = [59; 78; 94]
  /\ occurrence_count empty_group_manifest (nl ++ tabs3) = 3
  /\ slice empty_group_manifest 16 105
     = str "AAAAAAAAAAAAAAAAAAAAAAAA /* Features */ = {" ++ nl
       ++ tabs3 ++ str "isa = PBXGroup;" ++ nl
       ++ tabs3 ++ str "children = (" ++ nl
       ++ tabs3 ++ str ");" ++ nl
       ++ tabs2 ++ str "};"
  /\ exists record',
       link_group (run_uuids (world_with empty_group_manifest)) empty_group_manifest
       = firstn 16 empty_group_manifest ++ record' ++ skipn 105 empty_group_manifest.
Proof.
  split; [vm_compute; reflexivity|]. split; [vm_compute; reflexivity|].
  split; [vm_compute; reflexivity|]. split; [vm_compute; reflexivity|].
  exists (slice (link_group (run_uuids (world_with empty_group_manifest))
                   empty_group_manifest) 16
            (length (link_group (run_uuids (world_with empty_group_manifest))
                       empty_group_manifest) - 49)).
  vm_compute. reflexivity.
Qed.
(* ================================================================== *)
(** * One run on a manifest with all the anchors *)
(* ================================================================== *)

(** C1 (amended).  When each of the five steps finds its anchor in the
    text it is given, and the text of the matched Features children
    listing and that of the matched Sources files listing each occur at
    one offset only of the text at hand, one run makes exactly five edits
    and nothing else: the two build-file entries right after the leftmost
    build-file marker, the two file-reference entries right after the
    leftmost file-reference marker, one member appended to the children
    listing of the leftmost Features record, one group record right after
    the leftmost group marker, two members appended to the files listing
    of the leftmost Sources record.  The identifiers are of the format and
    refer to one another consistently: each build-file entry names its
    file reference, the children of the new group are the two file
    references, the member appended to Features is the new group, the
    members appended to Sources are the two build files. *)
Theorem C1_single_run_five_edits
        (pbxproj_path : string) (content : text) (w : world)
        (children_pos files_pos : nat) (children files_listing : text) :
  files w pbxproj_path = Some content ->
  permits w pbxproj_path ->
  re_search (lits build_file_marker) content <> None ->
  re_search (lits file_ref_marker) (add_build_files (run_uuids w) content) <> None ->
  matched_listing features_header children_key
    (add_file_refs (run_uuids w) (add_build_files (run_uuids w) content))
  = Some (children_pos, children) ->
  positions children
    (add_file_refs (run_uuids w) (add_build_files (run_uuids w) content))
  = [children_pos] ->
  re_search (lits group_marker)
    (link_group (run_uuids w)
       (add_file_refs (run_uuids w) (add_build_files (run_uuids w) content))) <> None ->
  matched_listing sources_header files_key
    (add_group (run_uuids w) (link_group (run_uuids w)
       (add_file_refs (run_uuids w) (add_build_files (run_uuids w) content))))
  = Some (files_pos, files_listing) ->
  positions files_listing
    (add_group (run_uuids w) (link_group (run_uuids w)
       (add_file_refs (run_uuids w) (add_build_files (run_uuids w) content))))
  = [files_pos] ->
  exists w' written,
    add_files_to_pbxproj pbxproj_path w = Returned tt w'
    /\ files w' pbxproj_path = Some written
    /\ single_run_edits (run_uuids w) content written
    /\ valid_uuids (run_uuids w)
    /\ cross_referenced (run_uuids w).
Proof.
  intros Hread Hperm H1 H2 H3 H3' H4 H5 H5'.
  exists (world_after pbxproj_path content w), (patch (run_uuids w) content).
  split; [now apply add_files_run|]. split.
  { now apply files_world_after. }
  split; [|split; [apply run_uuids_valid|apply cross_referenced_always]].
  apply patch_single_run. unfold anchors_found_once.
  split; [exact H1|]. split; [exact H2|].
  split; [apply listing_found_once_spec; now exists children_pos, children|].
  split; [exact H4|].
  apply listing_found_once_spec. now exists files_pos, files_listing.
Qed.

(** In a manifest that has the five anchors and a Features group without
    children yet, the text of the children listing is a line break and
    three tabs: the group-linkage step rewrites every line so indented.
    The new group is listed eight times, in the files of Sources too, and
    the run is not the five edits. *)
Lemma C1_counterexample :
  re_search (lits build_file_marker) empty_features_manifest <> None
  /\ re_search (lits file_ref_marker) empty_features_manifest <> None
  /\ re_search features_re empty_features_manifest <> None
  /\ re_search (lits group_marker) empty_features_manifest <> None
  /\ re_search sources_re empty_features_manifest <> None
  /\ exists w' written,
       add_files_to_pbxproj project_path (world_with empty_features_manifest)
       = Returned tt w'
       /\ files w' project_path = Some written
       /\ length (positions (new_child (run_uuids (world_with empty_features_manifest)))
                    written) = 8
       /\ ~ single_run_edits (run_uuids (world_with empty_features_manifest))
            empty_features_manifest written.
Proof.
  repeat (split; [vm_compute; discriminate|]).
  exists (world_after project_path empty_features_manifest
            (world_with empty_features_manifest)),
         (patch (run_uuids (world_with empty_features_manifest)) empty_features_manifest).
  split; [apply add_files_run; [reflexivity|apply world_with_permits]|].
  split; [now apply files_world_after|].
  split; [vm_compute; reflexivity|].
  intros H. apply single_run_edits_visible in H.
  vm_compute in H. discriminate.
Qed.
(* ================================================================== *)
(** * Inserted entries do not create a record to append to *)
(* ================================================================== *)

Lemma search_listing_iff (header key s : text) :
  re_search (listing_re header key) s <> None <-> has_record header key s.
Proof.
  split.
  - intros H. destruct (re_search (listing_re header key) s) as [m1|] eqn:H1;
      [|now elim H].
    destruct (link_listing_found header key [] s m1 H1)
      as (a & uuid & body & listing & rest & Hc & Hlen & Hhex & Hb & Hb' & Hl & Hl' & _).
    exists a, uuid, body, listing, rest. repeat split; assumption.
  - intros (a & uuid & body & listing & rest & Hc & [Hlen Hhex] & Hb & Hb' & Hl & Hl') Hn.
    unfold re_search in Hn. rewrite search_from_none in Hn.
    specialize (Hn (length a)). rewrite Hc in Hn at 2.
    rewrite skipn_app_exact in Hn.
    assert (Hle : length a <= length s) by (rewrite Hc, length_app; lia).
    specialize (Hn Hle). revert Hn.
    apply listing_re_complete with (uuid := uuid) (body := body) (listing := listing);
      auto.
    repeat split; auto. now exists rest.
Qed.

(** Where a character of a concatenation lies. *)
Lemma locate (x : char) (p s t r : text) :
  p ++ s = t ++ x :: r ->
  (exists p2, p = t ++ x :: p2 /\ r = p2 ++ s)
  \/ (exists s1, t = p ++ s1 /\ s = s1 ++ x :: r).
Proof.
  revert t; induction p as [|y p IH]; intros t H.
  - right. now exists t.
  - destruct t as [|z t].
    + left. simpl in H. injection H as -> H. now exists p.
    + simpl in H. injection H as -> H.
      destruct (IH _ H) as [(p2 & -> & ->)|(s1 & -> & ->)].
      * left. now exists p2.
      * right. now exists s1.
Qed.

Lemma app_eq_cases (x y x' y' : text) :
  x ++ y = x' ++ y' ->
  (exists d, x' = x ++ d /\ y = d ++ y')
  \/ (exists d, d <> [] /\ x = x' ++ d /\ y' = d ++ y).
Proof.
  revert x'; induction x as [|c x IH]; intros x' H.
  - left. now exists x'.
  - destruct x' as [|c' x'].
    + right. exists (c :: x). split; [discriminate|]. now split.
    + simpl in H. injection H as -> H.
      destruct (IH _ H) as [(d & -> & ->)|(d & Hd & -> & ->)].
      * left. now exists d.
      * right. now exists d.
Qed.

Lemma last_of_suffix (x d y : text) (c : char) :
  x ++ d = y ++ [c] -> d <> [] -> exists d0 : text, d = d0 ++ [c].
Proof.
  intros H Hd. destruct (exists_last Hd) as (d0 & c' & ->).
  rewrite app_assoc in H. apply app_inj_tail in H as [_ ->]. now exists d0.
Qed.

Lemma forallb_In (p : char -> bool) (s : text) (c : char) :
  forallb p s = true -> In c s -> p c = true.
Proof. intros H Hin. rewrite forallb_forall in H. now apply H. Qed.

Section NoCreation.
Variables header key entries : text.

(** What is used of the header and the key. *)
Hypothesis Hheader_nl : ~ In ch_nl header.
Hypothesis Hheader_semi : ~ In ch_semi header.
Hypothesis Hkey_nl : ~ In ch_nl key.
Hypothesis Hkey_semi : ~ In ch_semi key.
Hypothesis Hkey_last : exists k0 : text, key = k0 ++ [ch_lparen].

(** What is used of the inserted entries. *)
Hypothesis Hentries_first : exists e' : text, entries = ch_nl :: e'.
Hypothesis Hentries_last : exists e0 : text, entries = e0 ++ [ch_semi].
Hypothesis Hentries_lparen : ~ In ch_lparen entries.
Hypothesis Hentries_rparen : ~ In ch_rparen entries.
Hypothesis Hentries_rbrace : In ch_rbrace entries.
Hypothesis Hentries_header : ~ occurs header entries.

(** Entries put right after a slash create no record. *)
Lemma no_record_created (u0 v : text) :
  has_record header key ((u0 ++ [ch_slash]) ++ entries ++ v) ->
  has_record header key ((u0 ++ [ch_slash]) ++ v).
Proof.
  set (u := u0 ++ [ch_slash]).
  intros (a & uuid & body & listing & rest & Heq & [Hlen Hhex] & Hb & Hb' & Hl & Hl').
  destruct Hentries_first as [e' He1].
  destruct Hentries_last as [e0 He0].
  destruct Hkey_last as [k0 Hk0].
  assert (Hin_key : In ch_lparen key) by (rewrite Hk0; apply in_elt).
  symmetry in Heq. rewrite He1 in Heq. cbn [app] in Heq.
  apply locate in Heq as [(a2 & Ha & Hr)|(s1 & Hu & Hs)].
  - (* the entries begin left of the record *)
    apply app_eq_cases in Hr as [(d & Ha2 & Hv)|(d & Hd & He' & Hw)].
    + exists (u ++ d), uuid, body, listing, rest.
      split; [now rewrite Hv, <- app_assoc|]. repeat split; assumption.
    + exfalso.
      assert (Hlast : exists d0, d = d0 ++ [ch_semi]).
      { apply last_of_suffix with (x := ch_nl :: a2) (y := e0); [|exact Hd].
        cbn [app]. now rewrite <- He', <- He1. }
      destruct Hlast as [d0 ->]. rewrite <- app_assoc in Hw. cbn [app] in Hw.
      apply locate in Hw as [(p2 & Hp & _)|(s2 & Hd0 & Hw)].
      { assert (Hc : is_upper_hex ch_semi = true)
          by (apply forallb_In with (s := uuid); [exact Hhex|rewrite Hp; apply in_elt]).
        discriminate. }
      apply locate in Hw as [(p2 & Hp & _)|(s3 & Hs2 & _)].
      { apply Hheader_semi. rewrite Hp. apply in_elt. }
      apply Hentries_header.
      exists (ch_nl :: a2 ++ uuid), (s3 ++ [ch_semi]).
      rewrite He1, He', Hd0, Hs2. cbn [app]. now rewrite <- !app_assoc.
  - (* the entries begin inside the record or right of it *)
    apply locate in Hs as [(p2 & Hp & _)|(s2 & Hs1 & Hs)].
    { exfalso. assert (Hc : is_upper_hex ch_nl = true)
        by (apply forallb_In with (s := uuid); [exact Hhex|rewrite Hp; apply in_elt]).
      discriminate. }
    apply locate in Hs as [(p2 & Hp & _)|(s3 & Hs2 & Hs)].
    { exfalso. apply Hheader_nl. rewrite Hp. apply in_elt. }
    apply locate in Hs as [(x2 & Hbody & Hr)|(s4 & Hs3 & Hs)].
    { (* inside the body *)
      exfalso.
      apply app_eq_cases in Hr as [(d & Hx2 & _)|(d & Hd & He' & Hw)].
      - assert (Hc : not_rbrace ch_rbrace = true).
        { apply forallb_In with (s := body); [exact Hb'|].
          rewrite Hbody, Hx2. apply in_or_app. right.
          change (ch_nl :: e' ++ d) with ((ch_nl :: e') ++ d). rewrite <- He1.
          apply in_or_app. now left. }
        discriminate.
      - assert (Hlast : exists d0, d = d0 ++ [ch_semi]).
        { apply last_of_suffix with (x := ch_nl :: x2) (y := e0); [|exact Hd].
          cbn [app]. now rewrite <- He', <- He1. }
        destruct Hlast as [d0 ->]. rewrite <- app_assoc in Hw. cbn [app] in Hw.
        apply locate in Hw as [(p2 & Hp & _)|(s5 & Hd0 & _)].
        + apply Hkey_semi. rewrite Hp. apply in_elt.
        + apply Hentries_lparen. rewrite He1, He', Hd0.
          right. apply in_or_app. right. apply in_or_app. left.
          apply in_or_app. now left. }
    apply locate in Hs as [(p2 & Hp & _)|(s5 & Hs4 & Hs)].
    { exfalso. apply Hkey_nl. rewrite Hp. apply in_elt. }
    apply locate in Hs as [(l2 & Hlst & Hr)|(s6 & Hs5 & Hs)].
    { (* inside the listing *)
      apply app_eq_cases in Hr as [(d & Hl2 & Hv)|(d & Hd & He' & Hw)].
      - destruct (s5 ++ d) as [|c0 l0] eqn:Hnew.
        + exfalso. apply app_eq_nil in Hnew as [-> ->].
          assert (Hu' : u = (a ++ uuid ++ header ++ body ++ k0) ++ [ch_lparen]).
          { rewrite Hu, Hs1, Hs2, Hs3, Hs4, Hk0. now rewrite !app_nil_r, <- !app_assoc. }
          unfold u in Hu'. apply app_inj_tail in Hu' as [_ Hc]. discriminate.
        + exists a, uuid, body, (s5 ++ d), rest.
          split.
          { rewrite Hu, Hs1, Hs2, Hs3, Hs4, Hv. now rewrite <- !app_assoc. }
          split; [now split|]. split; [exact Hb|]. split; [exact Hb'|].
          split; [rewrite Hnew; discriminate|].
          rewrite Hlst, Hl2 in Hl'. rewrite forallb_app in *.
          apply andb_true_iff in Hl' as [H5 Hrest]. rewrite H5.
          cbn [forallb] in Hrest. apply andb_true_iff in Hrest as [_ Hrest].
          rewrite forallb_app in Hrest. now apply andb_true_iff in Hrest as [_ ->].
      - exfalso. destruct d as [|c0 d]; [contradiction|].
        cbn in Hw. injection Hw as <- _.
        apply Hentries_rparen. rewrite He1, He'. right. apply in_or_app. right. now left. }
    apply locate in Hs as [(p2 & Hp & _)|(s7 & Hs6 & Hs)].
    { exfalso. cbn in Hp.
      destruct s6 as [|c1 [|c2 [|c3 s6]]]; cbn in Hp; try discriminate;
        injection Hp; intros; discriminate. }
    exists a, uuid, body, listing, (s7 ++ v).
    split.
    { rewrite Hu, Hs1, Hs2, Hs3, Hs4, Hs5, Hs6. now rewrite <- !app_assoc. }
    repeat split; assumption.
Qed.
End NoCreation.
(* ================================================================== *)
(** * The build-file and file-reference entries create no Features record *)
(* ================================================================== *)

Lemma mask_uuid (s : text) : is_xcode_uuid s -> map mask s = repeat 48%N 24.
Proof.
  intros [Hlen Hhex]. rewrite <- Hlen. clear Hlen.
  induction s as [|c s IH]; [reflexivity|].
  simpl in *. apply andb_true_iff in Hhex as [Hc Hs].
  unfold mask at 1. rewrite Hc. f_equal. now apply IH.
Qed.

(** A text that does not occur once the identifiers are masked does not
    occur. *)
Lemma not_occurs_masked (p s masked : text) :
  map mask s = masked -> positions (map mask p) masked = [] -> ~ occurs p s.
Proof.
  intros Hs Hpos (a & b & Heq).
  assert (Hin := positions_complete (map mask p) (map mask a) (map mask b)).
  rewrite <- !map_app, <- Heq, Hs, Hpos in Hin. exact Hin.
Qed.

Ltac not_in_literal :=
  let H := fresh in
  intros H; cbn in H; repeat (destruct H as [H|H]; [discriminate H|]); exact H.

Lemma in_brackets (c : char) (s brackets : text) :
  filter is_bracket s = brackets -> is_bracket c = true ->
  In c s <-> In c brackets.
Proof.
  intros <- Hc. rewrite filter_In. tauto.
Qed.

Section EntriesFacts.
Variable u : uuids.
Hypothesis Hu : valid_uuids u.

Ltac mask_uuids :=
  rewrite !map_app;
  rewrite ?(mask_uuid _ (valid_view_file_ref u Hu)),
          ?(mask_uuid _ (valid_viewmodel_file_ref u Hu)),
          ?(mask_uuid _ (valid_view_build_file u Hu)),
          ?(mask_uuid _ (valid_viewmodel_build_file u Hu)),
          ?(mask_uuid _ (valid_group u Hu)).

Lemma build_entries_no_features_header :
  ~ occurs features_header (build_entries u).
Proof.
  eapply not_occurs_masked.
  - unfold build_entries. mask_uuids. reflexivity.
  - vm_compute. reflexivity.
Qed.

Lemma file_entries_no_features_header :
  ~ occurs features_header (file_entries u).
Proof.
  eapply not_occurs_masked.
  - unfold file_entries. mask_uuids. reflexivity.
  - vm_compute. reflexivity.
Qed.

Lemma build_entries_last : exists e0 : text, build_entries u = e0 ++ [ch_semi].
Proof.
  exists (nl ++ tabs2 ++ view_build_file_uuid u
    ++ str " /* AudioProcessorTestView.swift in Sources */ = {isa = PBXBuildFile; fileRef = "
    ++ view_file_ref_uuid u ++ str " /* AudioProcessorTestView.swift */; };"
    ++ nl ++ tabs2 ++ viewmodel_build_file_uuid u
    ++ str " /* AudioProcessorTestViewModel.swift in Sources */ = {isa = PBXBuildFile; fileRef = "
    ++ viewmodel_file_ref_uuid u ++ str " /* AudioProcessorTestViewModel.swift */; }").
  unfold build_entries. rewrite <- !app_assoc. reflexivity.
Qed.

Lemma file_entries_last : exists e0 : text, file_entries u = e0 ++ [ch_semi].
Proof.
  exists (nl ++ tabs2 ++ view_file_ref_uuid u
    ++ str " /* AudioProcessorTestView.swift */ = {isa = PBXFileReference; lastKnownFileType = sourcecode.swift; path = AudioProcessorTestView.swift; sourceTree = "
    ++ dq ++ str "<group>" ++ dq ++ str "; };"
    ++ nl ++ tabs2 ++ viewmodel_file_ref_uuid u
    ++ str " /* AudioProcessorTestViewModel.swift */ = {isa = PBXFileReference; lastKnownFileType = sourcecode.swift; path = AudioProcessorTestViewModel.swift; sourceTree = "
    ++ dq ++ str "<group>" ++ dq ++ str "; }").
  unfold file_entries. rewrite <- !app_assoc. reflexivity.
Qed.

(** Build-file entries put right after a slash create no Features
    record. *)
Lemma build_entries_no_record (u0 v : text) :
  has_record features_header children_key ((u0 ++ [ch_slash]) ++ build_entries u ++ v) ->
  has_record features_header children_key ((u0 ++ [ch_slash]) ++ v).
Proof.
  apply no_record_created.
  - not_in_literal.
  - not_in_literal.
  - not_in_literal.
  - not_in_literal.
  - now exists (str "children = ").
  - eexists. reflexivity.
  - apply build_entries_last.
  - rewrite (in_brackets ch_lparen _ _ (brackets_build_entries u Hu) eq_refl).
    not_in_literal.
  - rewrite (in_brackets ch_rparen _ _ (brackets_build_entries u Hu) eq_refl).
    not_in_literal.
  - rewrite (in_brackets ch_rbrace _ _ (brackets_build_entries u Hu) eq_refl).
    cbn. tauto.
  - apply build_entries_no_features_header.
Qed.

Lemma file_entries_no_record (u0 v : text) :
  has_record features_header children_key ((u0 ++ [ch_slash]) ++ file_entries u ++ v) ->
  has_record features_header children_key ((u0 ++ [ch_slash]) ++ v).
Proof.
  apply no_record_created.
  - not_in_literal.
  - not_in_literal.
  - not_in_literal.
  - not_in_literal.
  - now exists (str "children = ").
  - eexists. reflexivity.
  - apply file_entries_last.
  - rewrite (in_brackets ch_lparen _ _ (brackets_file_entries u Hu) eq_refl).
    not_in_literal.
  - rewrite (in_brackets ch_rparen _ _ (brackets_file_entries u Hu) eq_refl).
    not_in_literal.
  - rewrite (in_brackets ch_rbrace _ _ (brackets_file_entries u Hu) eq_refl).
    cbn. tauto.
  - apply file_entries_no_features_header.
Qed.

(** The first two steps leave a manifest without Features anchor
    without Features anchor. *)
Lemma insert_keeps_no_record (marker m0 entries content : text) :
  marker = m0 ++ [ch_slash] ->
  (forall u0 v,
      has_record features_header children_key ((u0 ++ [ch_slash]) ++ entries ++ v) ->
      has_record features_header children_key ((u0 ++ [ch_slash]) ++ v)) ->
  re_search features_re content = None ->
  re_search features_re (insert_step marker entries content) = None.
Proof.
  intros Hm Hnc Hnone.
  destruct (re_search (lits marker) content) as [m|] eqn:Hs.
  2:{ unfold insert_step. now rewrite Hs. }
  destruct (insert_step_inserted marker entries content) as (a & b & Hc & _ & Hafter).
  { rewrite Hs. discriminate. }
  rewrite Hafter.
  destruct (re_search features_re (a ++ marker ++ entries ++ b)) as [m'|] eqn:Hs';
    [|reflexivity].
  exfalso.
  assert (Hrec : has_record features_header children_key (a ++ marker ++ entries ++ b)).
  { apply search_listing_iff. rewrite <- features_re_listing, Hs'. discriminate. }
  rewrite Hm in Hrec.
  replace (a ++ (m0 ++ [ch_slash]) ++ entries ++ b)
    with (((a ++ m0) ++ [ch_slash]) ++ entries ++ b) in Hrec
    by (now rewrite <- !app_assoc).
  apply Hnc in Hrec.
  apply search_listing_iff in Hrec. apply Hrec.
  rewrite <- features_re_listing.
  replace (((a ++ m0) ++ [ch_slash]) ++ b) with content; [exact Hnone|].
  rewrite Hc, Hm. now rewrite <- !app_assoc.
Qed.

Lemma features_absent_when_linking (content : text) :
  re_search features_re content = None ->
  re_search features_re (add_file_refs u (add_build_files u content)) = None.
Proof.
  intros Hnone.
  rewrite add_file_refs_insert, add_build_files_insert.
  apply insert_keeps_no_record with (m0 := str "/* Begin PBXFileReference section *");
    [reflexivity|apply file_entries_no_record|].
  apply insert_keeps_no_record with (m0 := str "/* Begin PBXBuildFile section *");
    [reflexivity|apply build_entries_no_record|].
  exact Hnone.
Qed.
End EntriesFacts.
(* ================================================================== *)
(** * What does not occur in the inserted entries *)
(* ================================================================== *)

Section EntriesWithout.
Variable u : uuids.
Hypothesis Hu : valid_uuids u.

Ltac mask_all :=
  rewrite !map_app;
  rewrite ?(mask_uuid _ (valid_view_file_ref u Hu)),
          ?(mask_uuid _ (valid_viewmodel_file_ref u Hu)),
          ?(mask_uuid _ (valid_view_build_file u Hu)),
          ?(mask_uuid _ (valid_viewmodel_build_file u Hu)),
          ?(mask_uuid _ (valid_group u Hu)).

Lemma build_entries_without (p : text) :
  positions (map mask p)
    (map mask (build_entries (Uuids (repeat 48%N 24) (repeat 48%N 24) (repeat 48%N 24)
                                    (repeat 48%N 24) (repeat 48%N 24)))) = [] ->
  ~ occurs p (build_entries u).
Proof.
  intros Hpos. eapply not_occurs_masked; [|exact Hpos].
  unfold build_entries. cbn [view_file_ref_uuid viewmodel_file_ref_uuid view_build_file_uuid
    viewmodel_build_file_uuid group_uuid].
  mask_all. reflexivity.
Qed.

Lemma file_entries_without (p : text) :
  positions (map mask p)
    (map mask (file_entries (Uuids (repeat 48%N 24) (repeat 48%N 24) (repeat 48%N 24)
                                   (repeat 48%N 24) (repeat 48%N 24)))) = [] ->
  ~ occurs p (file_entries u).
Proof.
  intros Hpos. eapply not_occurs_masked; [|exact Hpos].
  unfold file_entries. cbn [view_file_ref_uuid viewmodel_file_ref_uuid view_build_file_uuid
    viewmodel_build_file_uuid group_uuid].
  mask_all. reflexivity.
Qed.


End EntriesWithout.
(* ================================================================== *)
(** * A manifest without Features group *)
(* ================================================================== *)

(** C6 (amended).  When the manifest has no Features anchor and each of
    the three section markers is found when its step runs, the run inserts
    the two build-file entries, the two file-reference entries and the
    group record, each right after the leftmost occurrence of its marker,
    and the group-linkage step changes nothing.  What is written back is
    the build-phase step applied to that text: the text itself when it has
    no Sources anchor, the members appended to one files listing when the
    text of the matched listing occurs only there. *)
Theorem C6_features_absent_three_insertions
        (pbxproj_path : string) (content : text) (w : world) :
  files w pbxproj_path = Some content ->
  permits w pbxproj_path ->
  re_search features_re content = None ->
  re_search (lits build_file_marker) content <> None ->
  re_search (lits file_ref_marker) (add_build_files (run_uuids w) content) <> None ->
  re_search (lits group_marker)
    (add_file_refs (run_uuids w) (add_build_files (run_uuids w) content)) <> None ->
  exists w' c1 c2 c4 written,
    add_files_to_pbxproj pbxproj_path w = Returned tt w'
    /\ files w' pbxproj_path = Some written
    /\ inserted_after build_file_marker (build_entries (run_uuids w)) content c1
    /\ inserted_after file_ref_marker (file_entries (run_uuids w)) c1 c2
    /\ link_group (run_uuids w) c2 = c2
    /\ inserted_after group_marker (group_entry (run_uuids w)) c2 c4
    /\ written = link_sources (run_uuids w) c4
    /\ (re_search sources_re c4 = None -> written = c4)
    /\ (forall pos listing,
           matched_listing sources_header files_key c4 = Some (pos, listing) ->
           positions listing c4 = [pos] ->
           appended_to sources_header files_key (new_source_files (run_uuids w))
             c4 written).
Proof.
  intros Hread Hperm Hfeat H1 H2 H4.
  set (u := run_uuids w) in *.
  assert (Hu : valid_uuids u) by apply run_uuids_valid.
  assert (Hskip : link_group u (add_file_refs u (add_build_files u content))
                  = add_file_refs u (add_build_files u content)).
  { rewrite link_group_listing. apply link_listing_absent.
    rewrite <- features_re_listing. now apply features_absent_when_linking. }
  exists (world_after pbxproj_path content w),
         (add_build_files u content),
         (add_file_refs u (add_build_files u content)),
         (add_group u (add_file_refs u (add_build_files u content))),
         (patch u content).
  split; [now apply add_files_run|].
  split; [now apply files_world_after|].
  split; [rewrite add_build_files_insert; now apply insert_step_inserted|].
  split; [rewrite (add_file_refs_insert u); now apply insert_step_inserted|].
  split; [exact Hskip|].
  split; [rewrite (add_group_insert u); now apply insert_step_inserted|].
  assert (Hpatch : patch u content
                   = link_sources u (add_group u (add_file_refs u (add_build_files u content)))).
  { unfold patch. now rewrite Hskip. }
  split; [exact Hpatch|]. split.
  - intros Hnone. rewrite Hpatch, link_sources_listing.
    apply link_listing_absent. now rewrite <- sources_re_listing.
  - intros pos listing Hm Hpos. rewrite Hpatch, link_sources_listing.
    now apply link_listing_appended with (pos := pos) (listing := listing).
Qed.

(** In a manifest without Features group whose Sources phase has no files
    yet, the text of the files listing is a line break and three tabs: the
    build-phase step rewrites every line so indented, in the new group
    record and in the groups that were there: the two members are
    appended fourteen times. *)
Lemma C6_counterexample :
  re_search features_re no_features_manifest = None
  /\ re_search (lits build_file_marker) no_features_manifest <> None
  /\ re_search (lits file_ref_marker) no_features_manifest <> None
  /\ re_search (lits group_marker) no_features_manifest <> None
  /\ exists w' written,
       add_files_to_pbxproj project_path (world_with no_features_manifest)
       = Returned tt w'
       /\ files w' project_path = Some written
       /\ length (positions
                    (new_source_files (run_uuids (world_with no_features_manifest)))
                    written) = 14
       /\ ~ no_features_edits (run_uuids (world_with no_features_manifest))
            no_features_manifest written.
Proof.
  split; [vm_compute; reflexivity|].
  repeat (split; [vm_compute; discriminate|]).
  exists (world_after project_path no_features_manifest (world_with no_features_manifest)),
         (patch (run_uuids (world_with no_features_manifest)) no_features_manifest).
  split; [apply add_files_run; [reflexivity|apply world_with_permits]|].
  split; [now apply files_world_after|].
  split; [vm_compute; reflexivity|].
  intros H. apply no_features_edits_visible in H.
  vm_compute in H. lia.
Qed.

(** A marker that is in the manifest read can be gone when its step runs:
    here the build-file entries are inserted inside the file-reference
    marker. *)
Lemma marker_lost_by_insertion :
  re_search (lits file_ref_marker) overlap_manifest <> None
  /\ re_search (lits file_ref_marker)
       (add_build_files (run_uuids (world_with overlap_manifest)) overlap_manifest)
     = None.
Proof. split; [vm_compute; discriminate|vm_compute; reflexivity]. Qed.

(* ================================================================== *)
(** * Running the patch twice *)
(* ================================================================== *)

(** C5 (amended).  Nothing in a run checks for entries that are already
    there.  A second run draws five new identifiers; whenever the manifest
    the first run wrote still has the build-file section marker, the second
    run writes a different manifest, with more visible characters; and
    when, in each run, every step finds its anchor and the matched listing
    texts occur once, the second run makes the five edits again on what
    the first wrote: two sets of entries, each under its own identifiers. *)
Theorem C5_second_run_inserts_again
        (pbxproj_path : string) (content : text) (w : world) :
  files w pbxproj_path = Some content ->
  permits w pbxproj_path ->
  exists w1 w2 first second,
    add_files_to_pbxproj pbxproj_path w = Returned tt w1
    /\ files w1 pbxproj_path = Some first
    /\ add_files_to_pbxproj pbxproj_path w1 = Returned tt w2
    /\ files w2 pbxproj_path = Some second
    /\ uuid_list (run_uuids w1)
       = map (fun k => xcode_uuid_of (draw w k)) [5; 6; 7; 8; 9]
    /\ (re_search (lits build_file_marker) first <> None ->
        visible first < visible second /\ second <> first)
    /\ (anchors_found_once (run_uuids w) content ->
        anchors_found_once (run_uuids w1) first ->
        single_run_edits (run_uuids w) content first
        /\ single_run_edits (run_uuids w1) first second).
Proof.
  intros Hread Hperm.
  set (w1 := world_after pbxproj_path content w).
  assert (Hfirst : files w1 pbxproj_path = Some (patch (run_uuids w) content)).
  { unfold w1. now apply files_world_after. }
  assert (Hperm1 : permits w1 pbxproj_path) by now apply permits_world_after.
  exists w1, (world_after pbxproj_path (patch (run_uuids w) content) w1),
         (patch (run_uuids w) content),
         (patch (run_uuids w1) (patch (run_uuids w) content)).
  split; [now apply add_files_run|]. split; [exact Hfirst|].
  split; [now apply add_files_run|].
  split; [now apply files_world_after|].
  split; [reflexivity|]. split.
  - intros Hfound.
    destruct (patch_visible (run_uuids w1) (patch (run_uuids w) content)) as [_ Hlt].
    specialize (Hlt Hfound). split; [exact Hlt|].
    intros Heq. rewrite Heq in Hlt. lia.
  - intros Hrun1 Hrun2. split; now apply patch_single_run.
Qed.

(** The manifest whose Features group has the single child [e] has the
    five anchors; the first run rewrites every [e] of it and leaves no
    anchor, so the second run writes back what it read. *)
Lemma C5_counterexample :
  re_search (lits build_file_marker) child_e_manifest <> None
  /\ re_search (lits file_ref_marker) child_e_manifest <> None
  /\ re_search features_re child_e_manifest <> None
  /\ re_search (lits group_marker) child_e_manifest <> None
  /\ re_search sources_re child_e_manifest <> None
  /\ exists w1 w2 first,
       add_files_to_pbxproj project_path (world_with child_e_manifest) = Returned tt w1
       /\ files w1 project_path = Some first
       /\ add_files_to_pbxproj project_path w1 = Returned tt w2
       /\ files w2 project_path = Some first.
Proof.
  repeat (split; [vm_compute; discriminate|]).
  set (w := world_with child_e_manifest).
  set (first := patch (run_uuids w) child_e_manifest).
  set (w1 := world_after project_path child_e_manifest w).
  assert (Hfirst : files w1 project_path = Some first)
    by (now apply files_world_after).
  assert (Hperm1 : permits w1 project_path)
    by (apply permits_world_after, world_with_permits).
  exists w1, (world_after project_path first w1), first.
  split; [apply add_files_run; [reflexivity|apply world_with_permits]|].
  split; [exact Hfirst|].
  split; [now apply add_files_run|].
  rewrite files_world_after by exact Hfirst. apply f_equal.
  vm_compute. reflexivity.
Qed.
(* ================================================================== *)
(** * Empty listings *)
(* ================================================================== *)



Section EmptyListing.
Variables header key : text.
Hypothesis Hkey : forallb not_rbrace key = true.


End EmptyListing.

Section OpenRecord.
Variables header key entries : text.

Hypothesis Hheader_nl : ~ In ch_nl header.
Hypothesis Hheader_semi : ~ In ch_semi header.
Hypothesis Hkey_nl : ~ In ch_nl key.
Hypothesis Hkey_semi : ~ In ch_semi key.
Hypothesis Hkey_last : exists k0 : text, key = k0 ++ [ch_lparen].

Hypothesis Hentries_first : exists e' : text, entries = ch_nl :: e'.
Hypothesis Hentries_last : exists e0 : text, entries = e0 ++ [ch_semi].
Hypothesis Hentries_rbrace : In ch_rbrace entries.
Hypothesis Hentries_header : ~ occurs header entries.
Hypothesis Hentries_key : ~ occurs key entries.


End OpenRecord.

Section SourcesStaysEmpty.
Variable u : uuids.
Hypothesis Hu : valid_uuids u.

End SourcesStaysEmpty.






(* ================================================================== *)
(** * The theorems at sample inputs *)
(* ================================================================== *)

Lemma C1_witness :
  exists w' written,
    add_files_to_pbxproj project_path (world_with sample_manifest) = Returned tt w'
    /\ files w' project_path = Some written
    /\ single_run_edits (run_uuids (world_with sample_manifest)) sample_manifest written
    /\ valid_uuids (run_uuids (world_with sample_manifest))
    /\ cross_referenced (run_uuids (world_with sample_manifest)).
Proof.
  apply (C1_single_run_five_edits project_path sample_manifest
           (world_with sample_manifest) 1001 1534
           (nl ++ tabs4 ++ str "BBBBBBBBBBBBBBBBBBBBBBBB /* Home */," ++ nl ++ tabs3)
           (nl ++ tabs4 ++ str "DDDDDDDDDDDDDDDDDDDDDDDD /* Home.swift in Sources */,"
            ++ nl ++ tabs3)).
  - reflexivity.
  - apply world_with_permits.
  - vm_compute. discriminate.
  - vm_compute. discriminate.
  - vm_compute. reflexivity.
  - vm_compute. reflexivity.
  - vm_compute. discriminate.
  - vm_compute. reflexivity.
  - vm_compute. reflexivity.
Defined.

Ltac found_once :=
  unfold anchors_found_once;
  split; [vm_compute; discriminate|];
  split; [vm_compute; discriminate|];
  split; [vm_compute; reflexivity|];
  split; [vm_compute; discriminate|];
  vm_compute; reflexivity.

Lemma C5_witness :
  exists w1 w2 first second,
    add_files_to_pbxproj project_path (world_with sample_manifest) = Returned tt w1
    /\ files w1 project_path = Some first
    /\ add_files_to_pbxproj project_path w1 = Returned tt w2
    /\ files w2 project_path = Some second
    /\ second <> first
    /\ single_run_edits (run_uuids (world_with sample_manifest)) sample_manifest first
    /\ single_run_edits (run_uuids w1) first second.
Proof.
  destruct (C5_second_run_inserts_again project_path sample_manifest
              (world_with sample_manifest) eq_refl (world_with_permits _))
    as (w1 & w2 & first & second & Hr1 & Hf1 & Hr2 & Hf2 & _ & Hne & Hsets).
  exists w1, w2, first, second.
  split; [exact Hr1|]. split; [exact Hf1|]. split; [exact Hr2|]. split; [exact Hf2|].
  rewrite (add_files_run project_path sample_manifest (world_with sample_manifest)
             eq_refl (world_with_permits _)) in Hr1.
  apply Returned_inj in Hr1. subst w1.
  rewrite (files_world_after project_path sample_manifest (world_with sample_manifest)
             eq_refl) in Hf1.
  apply Some_inj in Hf1. subst first.
  split.
  - apply Hne. vm_compute. discriminate.
  - apply Hsets; found_once.
Defined.

Lemma C6_witness :
  exists w' written,
    add_files_to_pbxproj project_path (world_with markers_only_manifest) = Returned tt w'
    /\ files w' project_path = Some written
    /\ no_features_edits (run_uuids (world_with markers_only_manifest))
         markers_only_manifest written.
Proof.
  destruct (C6_features_absent_three_insertions project_path markers_only_manifest
              (world_with markers_only_manifest))
    as (w' & c1 & c2 & c4 & written & Hr & Hf & H1 & H2 & _ & H4 & Hw & Hnone & _).
  - reflexivity.
  - apply world_with_permits.
  - vm_compute. reflexivity.
  - vm_compute. discriminate.
  - vm_compute. discriminate.
  - vm_compute. discriminate.
  - exists w', written. split; [exact Hr|]. split; [exact Hf|].
    exists c1, c2, c4. split; [exact H1|]. split; [exact H2|]. split; [exact H4|].
    left. apply Hnone.
    destruct (inserted_after_unique _ _ _ _ H1) as [_ ->].
    destruct (inserted_after_unique _ _ _ _ H2) as [_ ->].
    destruct (inserted_after_unique _ _ _ _ H4) as [_ ->].
    vm_compute. reflexivity.
Defined.

Lemma C10_witness :
  link_group (run_uuids (world_with twin_manifest)) twin_manifest
  <> local_append twin_manifest 202
       (nl ++ tabs4 ++ str "BBBBBBBBBBBBBBBBBBBBBBBB /* Home */," ++ nl ++ tabs3)
       (new_child (run_uuids (world_with twin_manifest)))
  /\ link_sources (run_uuids (world_with twin_manifest)) twin_sources_manifest
     <> local_append twin_sources_manifest 57
          (nl ++ tabs4 ++ str "DDDDDDDDDDDDDDDDDDDDDDDD /* Home.swift in Sources */,"
           ++ nl ++ tabs3)
          (new_source_files (run_uuids (world_with twin_manifest))).
Proof.
  split.
  - destruct (C10_append_rewrites_every_occurrence
                (run_uuids (world_with twin_manifest)) twin_manifest) as [HF _].
    destruct (HF 202 (nl ++ tabs4 ++ str "BBBBBBBBBBBBBBBBBBBBBBBB /* Home */,"
                      ++ nl ++ tabs3)) as (_ & _ & Hne).
    + vm_compute. reflexivity.
    + apply Hne. vm_compute. lia.
  - destruct (C10_append_rewrites_every_occurrence
                (run_uuids (world_with twin_manifest)) twin_sources_manifest) as [_ HS].
    destruct (HS 57 (nl ++ tabs4
                     ++ str "DDDDDDDDDDDDDDDDDDDDDDDD /* Home.swift in Sources */,"
                     ++ nl ++ tabs3)) as (_ & _ & Hne).
    + vm_compute. reflexivity.
    + apply Hne. vm_compute. lia.
Defined.
(* ================================================================== *)
(** * Failure and fixed points of a run *)
(* ================================================================== *)



(** X4.  The inner tests of lines 49 and 75 never fail: whenever the first
    search of an append step finds a record, its group 1 is an identifier
    of 24 characters of [A-F0-9], and the second search, made from that
    identifier, finds a match too, at the same offset, with a non-empty
    group 2. *)
Theorem X4_inner_guards_never_fail (content : text) :
  (forall m1,
      re_search features_re content = Some m1 ->
      is_xcode_uuid (group content m1 1)
      /\ exists m2,
           re_search (features_children_re (group content m1 1)) content = Some m2
           /\ m_start m2 = m_start m1
           /\ group content m2 2 <> [])
  /\ (forall m1,
      re_search sources_re content = Some m1 ->
      is_xcode_uuid (group content m1 1)
      /\ exists m2,
           re_search (sources_files_re (group content m1 1)) content = Some m2
           /\ m_start m2 = m_start m1
           /\ group content m2 2 <> []).
Proof.
  split; intros m1 H1.
  - destruct (matched_listing_found features_header children_key content m1 H1)
      as (m2 & a & uuid & body & listing & rest & H2 & Hg1 & _ & Hlen & Hhex
          & _ & _ & Hl & _ & Hs1 & Hs2 & _ & Hg2).
    split; [rewrite Hg1; now split|].
    exists m2. split; [exact H2|]. split; [congruence|]. now rewrite Hg2.
  - destruct (matched_listing_found sources_header files_key content m1 H1)
      as (m2 & a & uuid & body & listing & rest & H2 & Hg1 & _ & Hlen & Hhex
          & _ & _ & Hl & _ & Hs1 & Hs2 & _ & Hg2).
    split; [rewrite Hg1; now split|].
    exists m2. split; [exact H2|]. split; [congruence|]. now rewrite Hg2.
Qed.

Lemma X4_witness :
  exists m1 m2,
    re_search features_re sample_manifest = Some m1
    /\ re_search (features_children_re (group sample_manifest m1 1)) sample_manifest
       = Some m2
    /\ m_start m2 = m_start m1.
Proof.
  destruct (re_search features_re sample_manifest) as [m1|] eqn:H1.
  - destruct (proj1 (X4_inner_guards_never_fail sample_manifest) m1 H1)
      as (_ & m2 & H2 & Hs & _).
    exists m1, m2. split; [reflexivity|]. split; [exact H2|exact Hs].
  - exfalso. vm_compute in H1. discriminate.
Defined.

(** X5.  What the first pattern of an append step matches: the search of
    line 44 (line 71) succeeds exactly when the text holds, somewhere, 24
    characters of [A-F0-9], the header of a Features (Sources) record, a
    non-empty run without closing brace, the key [children = (]
    ([files = (]), a non-empty run without closing parenthesis and [);]. *)
Theorem X5_append_anchor_characterised (content : text) :
  (re_search features_re content <> None
   <-> has_record features_header children_key content)
  /\ (re_search sources_re content <> None
      <-> has_record sources_header files_key content).
Proof.
  split.
  - rewrite features_re_listing. apply search_listing_iff.
  - rewrite sources_re_listing. apply search_listing_iff.
Qed.

Lemma visible_file_entries (u : uuids) : 0 < visible (file_entries u).
Proof.
  unfold file_entries. rewrite !visible_app.
  assert (0 < visible (str "; };")) by (vm_compute; lia).
  lia.
Qed.

Lemma visible_group_entry (u : uuids) : 0 < visible (group_entry u).
Proof.
  unfold group_entry. rewrite !visible_app.
  assert (0 < visible (str "};")) by (vm_compute; lia).
  lia.
Qed.

Lemma insert_step_visible_found (marker entries content : text) :
  0 < visible entries ->
  re_search (lits marker) content <> None ->
  visible content < visible (insert_step marker entries content).
Proof.
  intros Hv Hfound. unfold insert_step.
  destruct (re_search (lits marker) content); [|now elim Hfound].
  rewrite visible_splice. lia.
Qed.

Lemma insert_step_same_visible (marker entries content : text) :
  0 < visible entries ->
  visible (insert_step marker entries content) <= visible content ->
  re_search (lits marker) content = None
  /\ insert_step marker entries content = content.
Proof.
  intros Hv Hle.
  destruct (re_search (lits marker) content) as [m|] eqn:Hs.
  - assert (H := insert_step_visible_found marker entries content Hv).
    rewrite Hs in H. specialize (H ltac:(discriminate)). lia.
  - split; [reflexivity|]. unfold insert_step. now rewrite Hs.
Qed.

Lemma link_listing_same_visible (header key appended content : text) :
  0 < visible appended ->
  visible (link_listing header key appended content) <= visible content ->
  re_search (listing_re header key) content = None
  /\ link_listing header key appended content = content.
Proof.
  intros Hv Hle.
  destruct (link_listing_visible header key appended content Hv) as [_ Hlt].
  destruct (re_search (listing_re header key) content) as [m|] eqn:Hs.
  - specialize (Hlt ltac:(discriminate)). lia.
  - split; [reflexivity|]. now apply link_listing_absent.
Qed.

(** X7.  The manifests a run leaves as they are are exactly those with
    none of the five anchors: the patch gives back the text it was given
    if and only if none of the five patterns matches that text. *)
Theorem X7_patch_fixes_exactly_the_anchorless (u : uuids) (content : text) :
  patch u content = content
  <-> (re_search (lits build_file_marker) content = None
       /\ re_search (lits file_ref_marker) content = None
       /\ re_search features_re content = None
       /\ re_search (lits group_marker) content = None
       /\ re_search sources_re content = None).
Proof.
  split.
  - intros Hfix.
    assert (H5 := link_listing_visible sources_header files_key (new_source_files u)
                    (add_group u (link_group u (add_file_refs u (add_build_files u content))))
                    (visible_new_source_files u)).
    rewrite <- link_sources_listing in H5. destruct H5 as [H5 _].
    assert (H4 := insert_step_visible group_marker (group_entry u)
                    (link_group u (add_file_refs u (add_build_files u content)))).
    rewrite <- add_group_insert in H4.
    assert (H3 := link_listing_visible features_header children_key (new_child u)
                    (add_file_refs u (add_build_files u content)) (visible_new_child u)).
    rewrite <- link_group_listing in H3. destruct H3 as [H3 _].
    assert (H2 := insert_step_visible file_ref_marker (file_entries u)
                    (add_build_files u content)).
    rewrite <- add_file_refs_insert in H2.
    assert (H1 := insert_step_visible build_file_marker (build_entries u) content).
    rewrite <- add_build_files_insert in H1.
    assert (Hv : visible (patch u content) = visible content) by now rewrite Hfix.
    unfold patch in Hv.
    destruct (insert_step_same_visible build_file_marker (build_entries u) content
                (visible_build_entries u)) as [A1 E1].
    { rewrite <- add_build_files_insert. lia. }
    rewrite <- add_build_files_insert in E1. rewrite E1 in *.
    destruct (insert_step_same_visible file_ref_marker (file_entries u) content
                (visible_file_entries u)) as [A2 E2].
    { rewrite <- add_file_refs_insert. lia. }
    rewrite <- add_file_refs_insert in E2. rewrite E2 in *.
    destruct (link_listing_same_visible features_header children_key (new_child u)
                content (visible_new_child u)) as [A3 E3].
    { rewrite <- link_group_listing. lia. }
    rewrite <- link_group_listing in E3. rewrite E3 in *.
    destruct (insert_step_same_visible group_marker (group_entry u) content
                (visible_group_entry u)) as [A4 E4].
    { rewrite <- add_group_insert. lia. }
    rewrite <- add_group_insert in E4. rewrite E4 in *.
    destruct (link_listing_same_visible sources_header files_key (new_source_files u)
                content (visible_new_source_files u)) as [A5 _].
    { rewrite <- link_sources_listing. lia. }
    rewrite features_re_listing, sources_re_listing. tauto.
  - intros (H1 & H2 & H3 & H4 & H5).
    unfold patch, add_build_files. rewrite H1.
    unfold add_file_refs. rewrite H2.
    unfold link_group. rewrite H3.
    unfold add_group. rewrite H4.
    unfold link_sources. now rewrite H5.
Qed.

(** X11.  The patch neither breaks nor repairs the nesting of parentheses
    and braces: a manifest that is not balanced is written back not
    balanced. *)
Theorem X11_unbalanced_stays_unbalanced
        (pbxproj_path : string) (content : text) (w : world) :
  files w pbxproj_path = Some content ->
  permits w pbxproj_path ->
  balanced content = false ->
  exists w' written,
    add_files_to_pbxproj pbxproj_path w = Returned tt w'
    /\ files w' pbxproj_path = Some written
    /\ balanced written = false.
Proof.
  intros Hread Hperm Hbal.
  exists (world_after pbxproj_path content w), (patch (run_uuids w) content).
  split; [now apply add_files_run|]. split.
  - now apply files_world_after.
  - rewrite balanced_patch; [exact Hbal|apply run_uuids_valid].
Qed.

Lemma X11_witness :
  exists w' written,
    main (world_with unbalanced_manifest) = Returned tt w'
    /\ files w' project_path = Some written
    /\ balanced written = false.
Proof.
  apply (X11_unbalanced_stays_unbalanced project_path unbalanced_manifest
           (world_with unbalanced_manifest));
    [reflexivity|apply world_with_permits|reflexivity].
Defined.
(* ================================================================== *)
(** * What a run keeps *)
(* ================================================================== *)

Lemma subseq_refl (a : text) : subseq a a.
Proof. induction a; [apply subseq_nil|now apply subseq_keep]. Qed.

Lemma subseq_app (a a' b b' : text) :
  subseq a a' -> subseq b b' -> subseq (a ++ b) (a' ++ b').
Proof.
  intros Ha Hb. induction Ha; cbn [app];
    [exact Hb|now apply subseq_skip|now apply subseq_keep].
Qed.

Lemma subseq_nil_l (a : text) : subseq [] a.
Proof. induction a; [apply subseq_nil|now apply subseq_skip]. Qed.

Lemma subseq_trans (a b c : text) : subseq a b -> subseq b c -> subseq a c.
Proof.
  intros Hab Hbc. revert a Hab.
  induction Hbc as [|x b c Hbc IH|x b c Hbc IH]; intros a Hab.
  - exact Hab.
  - constructor. now apply IH.
  - inversion Hab as [|y a1 b1 H1|y a1 b1 H1]; subst.
    + apply subseq_skip. now apply IH.
    + apply subseq_keep. now apply IH.
Qed.

Lemma visible_chars_app (a b : text) :
  visible_chars (a ++ b) = visible_chars a ++ visible_chars b.
Proof. apply filter_app. Qed.

Lemma visible_chars_rstrip (s : text) : visible_chars (rstrip s) = visible_chars s.
Proof.
  apply filter_rstrip. intros c Hc. now apply negb_true_iff in Hc.
Qed.

Lemma visible_chars_splice (content : text) (pos : nat) (entries : text) :
  subseq (visible_chars content) (visible_chars (splice content pos entries)).
Proof.
  unfold splice. rewrite <- (firstn_skipn pos content) at 1.
  rewrite !visible_chars_app.
  apply subseq_app; [apply subseq_refl|].
  rewrite <- (app_nil_l (visible_chars (skipn pos content))) at 1.
  apply subseq_app; [apply subseq_nil_l|apply subseq_refl].
Qed.

Lemma visible_chars_insert_step (marker entries content : text) :
  subseq (visible_chars content) (visible_chars (insert_step marker entries content)).
Proof.
  unfold insert_step. destruct (re_search (lits marker) content).
  - apply visible_chars_splice.
  - apply subseq_refl.
Qed.

Lemma visible_chars_replace (s old appended : text) :
  old <> [] ->
  subseq (visible_chars s) (visible_chars (replace s old (rstrip old ++ appended))).
Proof.
  intros Hold.
  apply replace_ind with
    (P := fun s r => subseq (visible_chars s) (visible_chars r)).
  - exact Hold.
  - constructor.
  - intros b r IH. rewrite !visible_chars_app, visible_chars_rstrip.
    rewrite <- app_assoc. apply subseq_app; [apply subseq_refl|].
    rewrite <- (app_nil_l (visible_chars b)).
    apply subseq_app; [apply subseq_nil_l|exact IH].
  - intros x t r _ IH. unfold visible_chars in *. cbn [filter].
    destruct (negb (is_space x)); [now apply subseq_keep|exact IH].
Qed.

Lemma visible_chars_link_listing (header key appended content : text) :
  subseq (visible_chars content)
         (visible_chars (link_listing header key appended content)).
Proof.
  destruct (re_search (listing_re header key) content) as [m1|] eqn:H1.
  - destruct (link_listing_found header key appended content m1 H1)
      as (a & uuid & body & listing & rest & _ & _ & _ & _ & _ & Hl & _ & _ & Hlink).
    rewrite Hlink. now apply visible_chars_replace.
  - rewrite link_listing_absent by assumption. apply subseq_refl.
Qed.

Lemma visible_chars_patch (u : uuids) (content : text) :
  subseq (visible_chars content) (visible_chars (patch u content)).
Proof.
  unfold patch.
  eapply subseq_trans; [|rewrite link_sources_listing; apply visible_chars_link_listing].
  eapply subseq_trans; [|rewrite add_group_insert; apply visible_chars_insert_step].
  eapply subseq_trans; [|rewrite link_group_listing; apply visible_chars_link_listing].
  eapply subseq_trans; [|rewrite add_file_refs_insert; apply visible_chars_insert_step].
  rewrite add_build_files_insert. apply visible_chars_insert_step.
Qed.

(** X8.  A run only adds text and strips white space: every character of
    the manifest read that is not white space is in the manifest written,
    and they come in the same order. *)
Theorem X8_visible_characters_are_kept
        (pbxproj_path : string) (content : text) (w : world) :
  files w pbxproj_path = Some content ->
  permits w pbxproj_path ->
  exists w' written,
    add_files_to_pbxproj pbxproj_path w = Returned tt w'
    /\ files w' pbxproj_path = Some written
    /\ subseq (visible_chars content) (visible_chars written).
Proof.
  intros Hread Hperm.
  exists (world_after pbxproj_path content w), (patch (run_uuids w) content).
  split; [now apply add_files_run|]. split.
  - now apply files_world_after.
  - apply visible_chars_patch.
Qed.

Lemma X8_witness :
  exists w' written,
    main (world_with empty_features_manifest) = Returned tt w'
    /\ files w' project_path = Some written
    /\ subseq (visible_chars empty_features_manifest) (visible_chars written).
Proof.
  apply (X8_visible_characters_are_kept project_path empty_features_manifest
           (world_with empty_features_manifest));
    [reflexivity|apply world_with_permits].
Defined.

(* ================================================================== *)
(** * What the inserted entries never create *)
(* ================================================================== *)

Lemma search_marker_occurs (marker content : text) :
  re_search (lits marker) content <> None <-> occurs marker content.
Proof.
  rewrite search_marker. split.
  - intros H. destruct (find marker content) as [i|] eqn:Hf; [|now elim H].
    destruct (find_sound marker content i Hf) as (a & b & Hc & _). now exists a, b.
  - intros (a & b & Hc) H.
    destruct (find marker content) as [i|] eqn:Hf; [discriminate|].
    exact (find_none marker content Hf a b Hc).
Qed.

Section NoOccurrenceCreated.
Variables p entries : text.
Hypothesis Hp_nl : ~ In ch_nl p.
Hypothesis Hp_semi : ~ In ch_semi p.
Hypothesis Hentries_first : exists e' : text, entries = ch_nl :: e'.
Hypothesis Hentries_last : exists e0 : text, entries = e0 ++ [ch_semi].
Hypothesis Hentries_p : ~ occurs p entries.

(** An occurrence of [p] in a text with the entries inserted was there
    without them. *)
Lemma no_occurrence_created (u v : text) :
  occurs p (u ++ entries ++ v) -> occurs p (u ++ v).
Proof.
  intros (x & y & Heq).
  destruct Hentries_first as [e' He1].
  destruct Hentries_last as [e0 He0].
  symmetry in Heq. rewrite He1 in Heq. cbn [app] in Heq.
  apply locate in Heq as [(x2 & Hx & Hr)|(s1 & Hu & Hs)].
  - apply app_eq_cases in Hr as [(d & Hx2 & Hv)|(d & Hd & He' & Hw)].
    + exists (u ++ d), y. rewrite Hv. now rewrite <- app_assoc.
    + exfalso.
      assert (Hlast : exists d0 : text, d = d0 ++ [ch_semi]).
      { apply last_of_suffix with (x := ch_nl :: x2) (y := e0); [|exact Hd].
        cbn [app]. now rewrite <- He', <- He1. }
      destruct Hlast as [d0 ->]. rewrite <- app_assoc in Hw. cbn [app] in Hw.
      apply locate in Hw as [(p2 & Hp & _)|(s2 & Hd0 & _)].
      * apply Hp_semi. rewrite Hp. apply in_elt.
      * apply Hentries_p. exists (ch_nl :: x2), (s2 ++ [ch_semi]).
        rewrite He1, He', Hd0. cbn [app]. now rewrite <- !app_assoc.
  - apply locate in Hs as [(p2 & Hp & _)|(s2 & Hs1 & Hy)].
    + exfalso. apply Hp_nl. rewrite Hp. apply in_elt.
    + exists x, (s2 ++ v). rewrite Hu, Hs1. now rewrite <- !app_assoc.
Qed.

Lemma insert_creates_no_marker (marker content : text) :
  re_search (lits p) (insert_step marker entries content) <> None ->
  re_search (lits p) content <> None.
Proof.
  intros Hfound.
  destruct (re_search (lits marker) content) as [m|] eqn:Hs.
  2:{ unfold insert_step in Hfound. now rewrite Hs in Hfound. }
  destruct (insert_step_inserted marker entries content) as (a & b & Hc & _ & Hafter).
  { rewrite Hs. discriminate. }
  rewrite Hafter in Hfound. apply search_marker_occurs in Hfound.
  apply search_marker_occurs. rewrite Hc.
  rewrite app_assoc in Hfound |- *. now apply no_occurrence_created.
Qed.
End NoOccurrenceCreated.

Section NoRecordByInsertion.
Variables header key : text.

Lemma insert_creates_no_record (marker m0 entries content : text) :
  marker = m0 ++ [ch_slash] ->
  (forall u0 v,
      has_record header key ((u0 ++ [ch_slash]) ++ entries ++ v) ->
      has_record header key ((u0 ++ [ch_slash]) ++ v)) ->
  re_search (listing_re header key) content = None ->
  re_search (listing_re header key) (insert_step marker entries content) = None.
Proof.
  intros Hm Hnc Hnone.
  destruct (re_search (lits marker) content) as [m|] eqn:Hs.
  2:{ unfold insert_step. now rewrite Hs. }
  destruct (insert_step_inserted marker entries content) as (a & b & Hc & _ & Hafter).
  { rewrite Hs. discriminate. }
  rewrite Hafter.
  destruct (re_search (listing_re header key) (a ++ marker ++ entries ++ b))
    as [m'|] eqn:Hs'; [|reflexivity].
  exfalso.
  assert (Hrec : has_record header key (a ++ marker ++ entries ++ b)).
  { apply search_listing_iff. rewrite Hs'. discriminate. }
  rewrite Hm in Hrec.
  replace (a ++ (m0 ++ [ch_slash]) ++ entries ++ b)
    with (((a ++ m0) ++ [ch_slash]) ++ entries ++ b) in Hrec
    by (now rewrite <- !app_assoc).
  apply Hnc in Hrec.
  apply search_listing_iff in Hrec. apply Hrec.
  replace (((a ++ m0) ++ [ch_slash]) ++ b) with content; [exact Hnone|].
  rewrite Hc, Hm. now rewrite <- !app_assoc.
Qed.
End NoRecordByInsertion.

Section EntriesCreateNothing.
Variable u : uuids.
Hypothesis Hu : valid_uuids u.

Ltac mask_all :=
  rewrite !map_app;
  rewrite ?(mask_uuid _ (valid_view_file_ref u Hu)),
          ?(mask_uuid _ (valid_viewmodel_file_ref u Hu)),
          ?(mask_uuid _ (valid_view_build_file u Hu)),
          ?(mask_uuid _ (valid_viewmodel_build_file u Hu)),
          ?(mask_uuid _ (valid_group u Hu)).

Lemma build_entries_no_sources_record (u0 v : text) :
  has_record sources_header files_key ((u0 ++ [ch_slash]) ++ build_entries u ++ v) ->
  has_record sources_header files_key ((u0 ++ [ch_slash]) ++ v).
Proof.
  apply no_record_created.
  - not_in_literal.
  - not_in_literal.
  - not_in_literal.
  - not_in_literal.
  - now exists (str "files = ").
  - eexists. reflexivity.
  - apply build_entries_last.
  - rewrite (in_brackets ch_lparen _ _ (brackets_build_entries u Hu) eq_refl).
    not_in_literal.
  - rewrite (in_brackets ch_rparen _ _ (brackets_build_entries u Hu) eq_refl).
    not_in_literal.
  - rewrite (in_brackets ch_rbrace _ _ (brackets_build_entries u Hu) eq_refl).
    cbn. tauto.
  - apply (build_entries_without u Hu). vm_compute. reflexivity.
Qed.

Lemma file_entries_no_sources_record (u0 v : text) :
  has_record sources_header files_key ((u0 ++ [ch_slash]) ++ file_entries u ++ v) ->
  has_record sources_header files_key ((u0 ++ [ch_slash]) ++ v).
Proof.
  apply no_record_created.
  - not_in_literal.
  - not_in_literal.
  - not_in_literal.
  - not_in_literal.
  - now exists (str "files = ").
  - eexists. reflexivity.
  - apply file_entries_last.
  - rewrite (in_brackets ch_lparen _ _ (brackets_file_entries u Hu) eq_refl).
    not_in_literal.
  - rewrite (in_brackets ch_rparen _ _ (brackets_file_entries u Hu) eq_refl).
    not_in_literal.
  - rewrite (in_brackets ch_rbrace _ _ (brackets_file_entries u Hu) eq_refl).
    cbn. tauto.
  - apply (file_entries_without u Hu). vm_compute. reflexivity.
Qed.

Lemma no_append_anchor_created (content : text) :
  (re_search features_re content = None ->
   re_search features_re (add_file_refs u (add_build_files u content)) = None)
  /\ (re_search sources_re content = None ->
      re_search sources_re (add_file_refs u (add_build_files u content)) = None).
Proof.
  split.
  - now apply features_absent_when_linking.
  - intros Hnone. rewrite sources_re_listing in *.
    rewrite add_file_refs_insert, add_build_files_insert.
    apply insert_creates_no_record with (m0 := str "/* Begin PBXFileReference section *");
      [reflexivity|apply file_entries_no_sources_record|].
    apply insert_creates_no_record with (m0 := str "/* Begin PBXBuildFile section *");
      [reflexivity|apply build_entries_no_sources_record|].
    exact Hnone.
Qed.

Lemma no_marker_created (content : text) :
  (re_search (lits file_ref_marker) (add_build_files u content) <> None ->
   re_search (lits file_ref_marker) content <> None)
  /\ (re_search (lits group_marker) (add_file_refs u (add_build_files u content)) <> None ->
      re_search (lits group_marker) content <> None).
Proof.
  split.
  - rewrite add_build_files_insert.
    apply insert_creates_no_marker.
    + not_in_literal.
    + not_in_literal.
    + eexists. reflexivity.
    + apply build_entries_last.
    + apply (build_entries_without u Hu). vm_compute. reflexivity.
  - intros H. rewrite add_file_refs_insert in H.
    apply insert_creates_no_marker in H.
    + rewrite add_build_files_insert in H.
      apply insert_creates_no_marker in H; [exact H| | | | |].
      * not_in_literal.
      * not_in_literal.
      * eexists. reflexivity.
      * apply build_entries_last.
      * apply (build_entries_without u Hu). vm_compute. reflexivity.
    + not_in_literal.
    + not_in_literal.
    + eexists. reflexivity.
    + apply file_entries_last.
    + apply (file_entries_without u Hu). vm_compute. reflexivity.
Qed.
End EntriesCreateNothing.

(** X9.  The entries the first two steps insert never make an anchor of
    an append step appear: a manifest read without Features anchor reaches
    the group-linkage step without one, and a manifest read without Sources
    anchor is still without one at that point. *)
Theorem X9_insertions_create_no_append_anchor (w : world) (content : text) :
  (re_search features_re content = None ->
   re_search features_re
     (add_file_refs (run_uuids w) (add_build_files (run_uuids w) content)) = None)
  /\ (re_search sources_re content = None ->
      re_search sources_re
        (add_file_refs (run_uuids w) (add_build_files (run_uuids w) content)) = None).
Proof. apply no_append_anchor_created, run_uuids_valid. Qed.

Lemma X9_witness :
  re_search features_re
    (add_file_refs (run_uuids (world_with markers_only_manifest))
       (add_build_files (run_uuids (world_with markers_only_manifest))
          markers_only_manifest)) = None
  /\ re_search sources_re
       (add_file_refs (run_uuids (world_with markers_only_manifest))
          (add_build_files (run_uuids (world_with markers_only_manifest))
             markers_only_manifest)) = None.
Proof.
  destruct (X9_insertions_create_no_append_anchor (world_with markers_only_manifest)
              markers_only_manifest) as [HF HS].
  split; [apply HF|apply HS]; vm_compute; reflexivity.
Defined.

(** X12.  The entries the first two steps insert never make a section
    marker appear: when the file-reference step finds its marker, the
    marker was in the manifest read, and so for the group marker in the
    text the first two steps leave.  (The converse fails: an insertion can
    split a marker.) *)
Theorem X12_insertions_create_no_marker (w : world) (content : text) :
  (re_search (lits file_ref_marker) (add_build_files (run_uuids w) content) <> None ->
   re_search (lits file_ref_marker) content <> None)
  /\ (re_search (lits group_marker)
        (add_file_refs (run_uuids w) (add_build_files (run_uuids w) content)) <> None ->
      re_search (lits group_marker) content <> None).
Proof. apply no_marker_created, run_uuids_valid. Qed.

Lemma X12_witness :
  re_search (lits file_ref_marker) sample_manifest <> None
  /\ re_search (lits group_marker) sample_manifest <> None.
Proof.
  destruct (X12_insertions_create_no_marker (world_with sample_manifest) sample_manifest)
    as [H1 H2].
  split; [apply H1|apply H2]; vm_compute; discriminate.
Defined.
(* ================================================================== *)
(** * Which listing an append step works on *)
(* ================================================================== *)

(** A greedy [+] that succeeds stops at the longest run after which the
    rest of the pattern matches. *)
Lemma run_plus_longest (p : char -> bool) (r : regex) (s : text) (pos : nat)
      (g : spans) (res : nat * spans) :
  run (Plus p :: r) s pos g = Some res ->
  exists k, 1 <= k /\ k <= length s /\ forallb p (firstn k s) = true
            /\ run r (skipn k s) (k + pos) g = Some res
            /\ forall k', k < k' -> k' <= length s ->
                 forallb p (firstn k' s) = true ->
                 run r (skipn k' s) (k' + pos) g = None.
Proof.
  simpl. revert pos; induction s as [|x s IH]; intros pos H; [discriminate|].
  destruct (p x) eqn:Hx; [|discriminate].
  match type of H with
  | match ?e with _ => _ end = _ => destruct e as [res'|] eqn:Hg
  end.
  - injection H as <-.
    destruct (IH _ Hg) as (k & Hk1 & Hk2 & Hall & Hrun & Hmax).
    exists (S k). cbn [length firstn skipn forallb]. rewrite Hx.
    split; [lia|]. split; [lia|]. split; [exact Hall|].
    split; [now rewrite Nat.add_succ_r in Hrun|].
    intros [|k'] Hlt Hle Hall'; [lia|].
    cbn [firstn forallb skipn] in *. apply andb_true_iff in Hall' as [_ Hall'].
    specialize (Hmax k' ltac:(lia) ltac:(lia) Hall').
    now rewrite Nat.add_succ_r in Hmax.
  - exists 1. cbn [length firstn skipn forallb]. rewrite Hx.
    split; [lia|]. split; [lia|]. split; [reflexivity|]. split; [exact H|].
    intros [|k'] Hlt Hle Hall'; [lia|].
    cbn [firstn forallb skipn] in *. apply andb_true_iff in Hall' as [_ Hall'].
    destruct (run r (skipn k' s) (S k' + pos) g) as [res'|] eqn:Hr; [|reflexivity].
    exfalso.
    assert (Hc := run_plus_complete p r s (S pos) g k' ltac:(lia) ltac:(lia) Hall').
    apply Hc; [replace (k' + S pos) with (S k' + pos) by lia; congruence | exact Hg].
Qed.

Section LongestBody.
Variables header key : text.

Lemma listing_tail_run (listing rest : text) (pos : nat) (g : spans) :
  listing <> [] -> forallb not_rparen listing = true ->
  run (lits key ++ [Plus not_rparen] ++ lits (str ");"))
      (key ++ listing ++ str ");" ++ rest) pos g <> None.
Proof.
  intros Hl Hl'.
  rewrite run_lits, starts_with_app, skipn_app_exact.
  apply run_plus_complete with (k := length listing).
  - destruct listing; [contradiction|simpl; lia].
  - rewrite length_app. lia.
  - now rewrite firstn_app_exact.
  - rewrite skipn_app_exact, run_lits_only, starts_with_app. discriminate.
Qed.

(** The second pattern takes the longest body the record allows. *)
Lemma listing_group_re_longest (uuid s : text) (pos e : nat) (g : spans) :
  run (listing_group_re uuid header key) s pos [] = Some (e, g) ->
  exists body listing,
    listing_at uuid header key body listing s
    /\ span_of 2 g =
       Some (length (uuid ++ header ++ body ++ key) + pos,
             length (uuid ++ header ++ body ++ key ++ listing) + pos)
    /\ forall body' listing',
         listing_at uuid header key body' listing' s ->
         length body' <= length body.
Proof.
  unfold listing_group_re. intros H.
  cbn [app] in H. rewrite run_open, run_lits in H.
  destruct (starts_with uuid s) eqn:Hu; [|discriminate].
  rewrite run_lits in H.
  destruct (starts_with header (skipn (length uuid) s)) eqn:Hh; [|discriminate].
  apply run_plus_longest in H as (k1 & Hk1 & Hk1' & Hbody & H & Hmax).
  rewrite run_lits in H.
  match type of H with
  | (if starts_with key ?t then _ else _) = _ =>
      destruct (starts_with key t) eqn:Hkey; [|discriminate]
  end.
  cbn [app] in H. rewrite run_close, run_open in H.
  apply run_plus_sound in H as (k2 & Hk2 & Hk2' & Hlst & H).
  rewrite run_close, run_open, run_lits in H.
  match type of H with
  | (if starts_with _ ?t then _ else _) = _ =>
      destruct (starts_with (str ");") t) eqn:Hend; [|discriminate]
  end.
  cbn [run] in H. injection H as _ <-.
  apply starts_with_split in Hu, Hh, Hkey, Hend.
  set (s1 := skipn (length header) (skipn (length uuid) s)) in *.
  set (s2 := skipn (length key) (skipn k1 s1)) in *.
  exists (firstn k1 s1), (firstn k2 s2).
  split; [|split].
  - split; [|split; [|split; [|split]]].
    + exists (skipn (length (str ");")) (skipn k2 s2)).
      rewrite <- Hend, (firstn_skipn k2 s2), <- Hkey, (firstn_skipn k1 s1).
      now rewrite <- Hh.
    + now apply firstn_nonempty.
    + exact Hbody.
    + now apply firstn_nonempty.
    + exact Hlst.
  - cbn [close_group open_group span_of Nat.eqb].
    rewrite !length_app, !length_firstn.
    do 2 f_equal; lia.
  - intros body' listing' ((rest' & Hs) & Hb & Hb' & Hl & Hl').
    rewrite length_firstn.
    destruct (Nat.le_gt_cases (length body') k1) as [Hle|Hgt]; [lia|].
    exfalso.
    assert (Hs1 : s1 = body' ++ key ++ listing' ++ str ");" ++ rest').
    { unfold s1. rewrite Hs. now rewrite skipn_app_exact, skipn_app_exact. }
    specialize (Hmax (length body') Hgt).
    rewrite Hs1, length_app, firstn_app_exact, skipn_app_exact in Hmax.
    specialize (Hmax ltac:(lia) Hb').
    apply (run_strip_groups _ _ _ 0 _ []) in Hmax.
    rewrite !strip_groups_app, !strip_groups_lits in Hmax.
    cbn [strip_groups filter is_group_atom negb app] in Hmax.
    revert Hmax. now apply listing_tail_run.
Qed.

Lemma matched_listing_longest (content : text) (pos : nat) (listing : text)
      (a uuid body' listing' rest' : text) :
  matched_listing header key content = Some (pos, listing) ->
  content = a ++ uuid ++ header ++ body' ++ key ++ listing' ++ str ");" ++ rest' ->
  option_map m_start (re_search (listing_re header key) content) = Some (length a) ->
  length uuid = 24 ->
  body' <> [] -> forallb not_rbrace body' = true ->
  listing' <> [] -> forallb not_rparen listing' = true ->
  length (a ++ uuid ++ header ++ body' ++ key) <= pos.
Proof.
  intros Hm Hc Hstart Hlen Hb Hb' Hl Hl'.
  destruct (re_search (listing_re header key) content) as [m1|] eqn:H1;
    [|discriminate].
  cbn [option_map] in Hstart. injection Hstart as Hstart.
  destruct (matched_listing_found header key content m1 H1)
    as (m2 & af & uf & bf & lf & rf & H2 & Hg1 & Hcf & Hlenf & _ & _ & _ & _ & _
        & Hs1 & Hs2 & _ & _).
  assert (Haf : af = a /\ uf = uuid).
  { rewrite Hc in Hcf at 1.
    apply app_eq_length in Hcf as [<- Hcf]; [|congruence].
    apply app_eq_length in Hcf as [<- _]; [|congruence]. now split. }
  destruct Haf as [-> ->].
  unfold matched_listing in Hm. rewrite H1, H2 in Hm. rewrite Hg1 in H2.
  unfold re_search in H2. apply search_from_sound in H2 as (i2 & _ & Hi2 & Hrun & _).
  rewrite Nat.add_0_r in *.
  assert (Hi2' : i2 = length a) by congruence.
  rewrite Hi2' in Hrun. rewrite Hc in Hrun. rewrite skipn_app_exact in Hrun.
  destruct (listing_group_re_longest _ _ _ _ _ Hrun) as (body & lst & _ & Hsp & Hmax).
  rewrite Hsp in Hm. injection Hm as Hpos _.
  assert (Hle : length body' <= length body).
  { apply (Hmax body' listing'). repeat split; auto. now exists rest'. }
  rewrite <- Hpos. rewrite !length_app in *. lia.
Qed.
End LongestBody.

(** X6.  When the leftmost Features (Sources) record holds several
    listings with the key before its closing brace, the step takes the
    last of them that fits the pattern: no listing of that record that the
    pattern could match begins to the right of the one matched. *)
Theorem X6_append_takes_the_last_listing (content : text) (pos : nat) (listing : text)
        (a uuid body' listing' rest' : text) :
  length uuid = 24 ->
  body' <> [] -> forallb not_rbrace body' = true ->
  listing' <> [] -> forallb not_rparen listing' = true ->
  (matched_listing features_header children_key content = Some (pos, listing) ->
   content = a ++ uuid ++ features_header ++ body' ++ children_key ++ listing'
             ++ str ");" ++ rest' ->
   option_map m_start (re_search features_re content) = Some (length a) ->
   length (a ++ uuid ++ features_header ++ body' ++ children_key) <= pos)
  /\ (matched_listing sources_header files_key content = Some (pos, listing) ->
      content = a ++ uuid ++ sources_header ++ body' ++ files_key ++ listing'
                ++ str ");" ++ rest' ->
      option_map m_start (re_search sources_re content) = Some (length a) ->
      length (a ++ uuid ++ sources_header ++ body' ++ files_key) <= pos).
Proof.
  intros Hlen Hb Hb' Hl Hl'. split; intros Hm Hc Hs.
  - now apply (matched_listing_longest features_header children_key content pos listing
                 a uuid body' listing' rest').
  - now apply (matched_listing_longest sources_header files_key content pos listing
                 a uuid body' listing' rest').
Qed.
(* ================================================================== *)
(** * The digits of an identifier *)
(* ================================================================== *)

(** The digit at place [i] from the left of [hex_of w n]. *)
Lemma nth_hex_of (w i : nat) (n : N) (d : char) :
  i < w ->
  nth i (hex_of w n) d = hex_digit ((n / 16 ^ N.of_nat (w - 1 - i)) mod 16)%N.
Proof.
  revert n i; induction w as [|w IH]; intros n i Hi; [lia|].
  cbn [hex_of].
  destruct (Nat.eq_dec i w) as [->|Hne].
  - rewrite app_nth2 by (rewrite length_hex_of; lia).
    rewrite length_hex_of, Nat.sub_diag.
    replace (S w - 1 - w) with 0 by lia.
    cbn [nth N.of_nat]. now rewrite N.pow_0_r, N.div_1_r.
  - rewrite app_nth1 by (rewrite length_hex_of; lia).
    rewrite IH by lia.
    replace (S w - 1 - i) with (S (w - 1 - i)) by lia.
    rewrite Nat2N.inj_succ, N.pow_succ_r'.
    now rewrite N.Div0.div_div.
Qed.

Lemma nth_xcode_uuid_of (r : N) (i : nat) :
  i < 24 ->
  nth i (xcode_uuid_of r) 0%N
  = upper_char (hex_digit ((uuid4_int r / 2 ^ 32 / 16 ^ N.of_nat (23 - i)) mod 16)%N).
Proof.
  intros Hi. rewrite xcode_uuid_of_leading. unfold upper, leading_bits.
  change 0%N with (upper_char 0%N) at 1. rewrite map_nth.
  rewrite nth_hex_of by assumption.
  rewrite N.shiftr_div_pow2.
  now replace (24 - 1 - i) with (23 - i) by lia.
Qed.

(** The version nibble of a version-4 UUID is 4. *)
Lemma uuid4_int_version (r : N) : ((uuid4_int r / 2 ^ 76) mod 16 = 4)%N.
Proof.
  change 16%N with (2 ^ 4)%N. rewrite <- N.shiftr_div_pow2.
  apply N.bits_inj. intros m.
  destruct (N.lt_ge_cases m 4) as [Hm|Hm].
  - rewrite N.mod_pow2_bits_low by assumption.
    rewrite N.shiftr_spec'. unfold uuid4_int.
    rewrite N.lor_spec, N.ldiff_spec.
    assert (Hcase : (m = 0 \/ m = 1 \/ m = 2 \/ m = 3)%N) by lia.
    destruct Hcase as [-> | [-> | [-> | ->]]];
      cbn [N.add Pos.add Pos.succ];
      match goal with
      | |- context [N.lor ?a ?b] => generalize (N.lor a b); intros x
      end;
      destruct (N.testbit x _); vm_compute; reflexivity.
  - rewrite N.mod_pow2_bits_high by assumption.
    symmetry. rewrite <- (N.mod_small 4 (2 ^ 4)) by reflexivity.
    now apply N.mod_pow2_bits_high.
Qed.

(** The two variant bits of a version-4 UUID are binary 10. *)
Lemma uuid4_int_variant (r : N) : ((uuid4_int r / 2 ^ 62) mod 4 = 2)%N.
Proof.
  change 4%N with (2 ^ 2)%N. rewrite <- N.shiftr_div_pow2.
  apply N.bits_inj. intros m.
  destruct (N.lt_ge_cases m 2) as [Hm|Hm].
  - rewrite N.mod_pow2_bits_low by assumption.
    rewrite N.shiftr_spec'. unfold uuid4_int.
    rewrite N.lor_spec, N.ldiff_spec, N.lor_spec, N.ldiff_spec.
    assert (Hcase : (m = 0 \/ m = 1)%N) by lia.
    destruct Hcase as [-> | ->];
      cbn [N.add Pos.add Pos.succ];
      destruct (N.testbit r _); vm_compute; reflexivity.
  - rewrite N.mod_pow2_bits_high by assumption.
    symmetry. rewrite <- (N.mod_small 2 (2 ^ 2)) by reflexivity.
    now apply N.mod_pow2_bits_high.
Qed.

(** X3.  [generate_xcode_uuid] always returns, after one draw, an
    identifier that shows the version and the variant of the UUID it is
    cut from: its 13th character is [4] and its 17th is one of [8], [9],
    [A] and [B]. *)
Theorem X3_identifier_shows_version_and_variant (w : world) :
  exists u w',
    generate_xcode_uuid w = Returned u w'
    /\ drawn w' = S (drawn w)
    /\ nth 12 u 0%N = 52%N
    /\ In (nth 16 u 0%N) [56; 57; 65; 66]%N.
Proof.
  eexists; eexists. split; [reflexivity|]. split; [reflexivity|].
  set (r := (urandom w (drawn w) mod 2 ^ 128)%N).
  split.
  - rewrite nth_xcode_uuid_of by lia.
    rewrite N.Div0.div_div.
    change (2 ^ 32 * 16 ^ N.of_nat (23 - 12))%N with (2 ^ 76)%N.
    now rewrite uuid4_int_version.
  - rewrite nth_xcode_uuid_of by lia.
    rewrite N.Div0.div_div.
    change (2 ^ 32 * 16 ^ N.of_nat (23 - 16))%N with (2 ^ 60)%N.
    change 16%N with (4 * 4)%N. rewrite N.Div0.mod_mul_r.
    rewrite N.Div0.div_div.
    change (2 ^ 60 * 4)%N with (2 ^ 62)%N.
    rewrite uuid4_int_variant.
    assert (Hlt : (uuid4_int r / 2 ^ 60 mod 4 < 4)%N)
      by (apply N.mod_upper_bound; discriminate).
    destruct (uuid4_int r / 2 ^ 60 mod 4)%N as [|p]; [vm_compute; tauto|].
    destruct p as [[|[]|]|[|[]|]|]; try lia; vm_compute; tauto.
Qed.

(** X10.  The identifier does not depend on the last 32 bits of the draw:
    the eight digits that the slice [[:24]] cuts off hold exactly these
    bits. *)
Theorem X10_identifier_ignores_the_last_32_bits (r1 r2 : N) :
  N.shiftr r1 32 = N.shiftr r2 32 ->
  xcode_uuid_of r1 = xcode_uuid_of r2.
Proof.
  intros H. rewrite !xcode_uuid_of_leading. f_equal. f_equal.
  unfold leading_bits, uuid4_int.
  rewrite !N.shiftr_lor, !N.shiftr_ldiff, !N.shiftr_lor, !N.shiftr_ldiff.
  now rewrite H.
Qed.

Lemma X10_witness :
  xcode_uuid_of 98765432109876543210987654321098765432
  = xcode_uuid_of (98765432109876543210987654321098765432 + 1000000).
Proof.
  apply X10_identifier_ignores_the_last_32_bits. vm_compute. reflexivity.
Defined.
(* ================================================================== *)
(** * The added properties at concrete manifests *)
(* ================================================================== *)

Lemma X5_witness : has_record features_header children_key sample_manifest.
Proof.
  apply (proj1 (proj1 (X5_append_anchor_characterised sample_manifest))).
  vm_compute. discriminate.
Defined.

Lemma X6_witness :
  matched_listing features_header children_key two_listings_manifest
  = Some (80, str "y")
  /\ length (tabs2 ++ str "AAAAAAAAAAAAAAAAAAAAAAAA" ++ features_header
             ++ (nl ++ tabs3) ++ children_key) <= 80.
Proof.
  split; [vm_compute; reflexivity|].
  apply (proj1 (X6_append_takes_the_last_listing two_listings_manifest 80 (str "y")
                  tabs2 (str "AAAAAAAAAAAAAAAAAAAAAAAA") (nl ++ tabs3) (str "x")
                  (nl ++ tabs3 ++ str "children = (y);" ++ nl ++ tabs2 ++ str "};" ++ nl)
                  eq_refl ltac:(discriminate) eq_refl ltac:(discriminate) eq_refl));
    vm_compute; reflexivity.
Defined.

Lemma X7_witness :
  patch (run_uuids (world_with bare_manifest)) bare_manifest = bare_manifest.
Proof.
  apply (proj2 (X7_patch_fixes_exactly_the_anchorless
                  (run_uuids (world_with bare_manifest)) bare_manifest)).
  vm_compute. repeat split.
Defined.
